(** * mastodon-profile-scanner: the collection and journalling engine

    A shallow embedding of [mastodon-profile-scanner.py]: the rate-limit
    monitor, the post classifier and enricher, the two paginated collection
    loops (posts by max-id cursor, followers/following by link header), the
    media file naming and the incremental posts journal, together with the
    properties the specification states about them.

    Conventions.
    - Python exceptions are values of [exn]; a computation that may raise
      returns [result A].
    - The remote service is an explicit state [W] threaded through every
      network call; a call returns its outcome and the next state.
    - The sleeps, the advisories written with [pbar.write] and the page
      requests of the loops are recorded in a trace of [event]s, in
      program order; the other network calls are not.
    - [remaining / limit] is a binary64 float, kept as its exact value.
    - The loops are [while True] loops; they are embedded with a fuel
      argument, [None] meaning that the fuel ran out before the loop left. *)

From Stdlib Require Import ZArith QArith List String Ascii Bool Arith Lia.
From Stdlib Require Import DecimalString.
Import ListNotations.

Local Open Scope string_scope.
Local Open Scope list_scope.

Set Implicit Arguments.

(** ** Exceptions and results *)

Inductive exn : Type :=
| ZeroDivisionError
| OverflowError
| ValueError
| OSError
| UnboundLocalError
| AttributeError
| IndexError
| ConnectionError
| HTTPError
| MastodonNetworkError
| MastodonAPIError.

Inductive result (A : Type) : Type :=
| Ok (a : A)
| Raise (e : exn).

Arguments Ok {A} a.
Arguments Raise {A} e.

Definition bind {A B} (r : result A) (k : A -> result B) : result B :=
  match r with
  | Ok a => k a
  | Raise e => Raise e
  end.

Notation "x <- r ;; k" := (bind r (fun x => k))
  (at level 61, r at next level, right associativity).

(** A bare [try: ... except: ...]: any exception selects the fallback. *)
Definition try_except {A} (r : result A) (fallback : A) : A :=
  match r with
  | Ok a => a
  | Raise _ => fallback
  end.

(** ** Strings *)

(** Python's [needle in hay] on strings. *)
Fixpoint contains (needle hay : string) : bool :=
  if prefix needle hay then true
  else match hay with
       | EmptyString => false
       | String _ rest => contains needle rest
       end.

(** [str.endswith]; used to phrase the specification's wording of the
    favorite rule, the source itself never calls it. *)
Fixpoint ends_with (suffix s : string) : bool :=
  if String.eqb suffix s then true
  else match s with
       | EmptyString => false
       | String _ rest => ends_with suffix rest
       end.

(** [str.split(sep)] for a one-character separator. *)
Fixpoint split_on (sep : ascii) (s : string) : list string :=
  match s with
  | EmptyString => [EmptyString]
  | String c rest =>
      if Ascii.eqb c sep then EmptyString :: split_on sep rest
      else match split_on sep rest with
           | [] => [String c EmptyString]
           | w :: ws => String c w :: ws
           end
  end.

(** [xs[-2]]: the second-to-last element; [IndexError] when there is none. *)
Definition second_to_last {A} (xs : list A) : option A :=
  match rev xs with
  | _ :: x :: _ => Some x
  | _ => None
  end.

(** [str(n)] and [f"{n}"] for an integer. *)
Definition str_of_Z (n : Z) : string := NilZero.string_of_int (Z.to_int n).

(** [os.path.splitext(p)[1]] (posixpath): the extension starts at the last
    dot of the last path component, leading dots of that component apart. *)
Fixpoint rfind (c : ascii) (s : string) : option nat :=
  match s with
  | EmptyString => None
  | String a rest =>
      match rfind c rest with
      | Some i => Some (S i)
      | None => if Ascii.eqb a c then Some 0%nat else None
      end
  end.

Fixpoint all_dots (s : string) : bool :=
  match s with
  | EmptyString => true
  | String a rest => Ascii.eqb a "."%char && all_dots rest
  end.

Definition splitext_ext (p : string) : string :=
  let len := String.length p in
  let name_start := match rfind "/"%char p with Some i => S i | None => 0%nat end in
  match rfind "."%char p with
  | Some dot =>
      if (name_start <=? dot)%nat
      then if all_dots (substring name_start (dot - name_start) p)
           then EmptyString
           else substring dot (len - dot) p
      else EmptyString
  | None => EmptyString
  end.

(** ** RateLimitMonitor: [monitor_rate_limit] *)

(** The advisory is an f-string in the source; it is kept here as the three
    values the string is built from. *)
Record advisory : Type := Advisory {
  adv_remaining : Z;
  adv_limit : Z;
  adv_reset_in : Q
}.

(** What [monitor_rate_limit] reads: the client's [ratelimit_remaining],
    [ratelimit_limit], [ratelimit_reset] and the clock [time.time()]. *)
Record quota : Type := Quota {
  ratelimit_remaining : option Z;
  ratelimit_limit : option Z;
  ratelimit_reset : Q;
  time_now : Q
}.

(** [remaining / limit] divides two integers into a float: Python raises
    [ZeroDivisionError] on a zero divisor, gives the binary64 float nearest
    to the quotient (halves to the even mantissa, subnormals included) and
    raises [OverflowError] when that float would not be finite. A finite
    float is kept as its exact value, a rational.

    Every finite binary64 float is a multiple of [2^-1074]. With
    [N / d] the quotient counted in that unit, the float is [m * 2^e] units
    where [2^e] is the spacing of the floats around the quotient ([e = 0]
    below [2^53] units, that is for the subnormals and the first normal
    binade) and [m <= 2^53] is the quotient rounded at that spacing, that
    is [n / d] rounded to a multiple of [2^(e-1074)]. *)
Definition round_half_even (n d : Z) : Z :=
  let q := (n / d)%Z in
  match (2 * (n mod d) ?= d)%Z with
  | Lt => q
  | Gt => (q + 1)%Z
  | Eq => if Z.even q then q else (q + 1)%Z
  end.

Definition ulp_exponent (N d : Z) : Z :=
  if (N <? d * 2 ^ 53)%Z then 0%Z
  else
    let k := (Z.log2 N - Z.log2 d)%Z in
    ((if (N <? d * 2 ^ k)%Z then k - 1 else k) - 52)%Z.

(** The float nearest to [n / d] for [0 <= n] and [0 < d]; [None] when it
    is beyond the largest finite float. *)
Definition nearest_float (n d : Z) : option Q :=
  let e := ulp_exponent (n * 2 ^ 1074) d in
  let m := if (e <=? 1074)%Z
           then round_half_even (n * 2 ^ (1074 - e)) d
           else round_half_even n (d * 2 ^ (e - 1074)) in
  if (2 ^ 2098 <=? m * 2 ^ e)%Z then None
  else Some (Qmake (m * 2 ^ e) (Z.to_pos (2 ^ 1074))).

Definition true_div (a b : Z) : result Q :=
  if (b =? 0)%Z then Raise ZeroDivisionError
  else match nearest_float (Z.abs a) (Z.abs b) with
       | None => Raise OverflowError
       | Some x => Ok (if (Z.sgn a * Z.sgn b <? 0)%Z then (- x)%Q else x)
       end.

(** The float literal [0.1]: [0x1.999999999999ap-4]. *)
Definition float_tenth : Q := 3602879701896397 # 36028797018963968.

Definition Qltb (a b : Q) : bool :=
  match (a ?= b)%Q with Lt => true | _ => false end.

(** [reset_time] is a difference of two floats; it is kept exact here. The
    float difference has the sign of the exact one, so the test
    [reset_time > 0] is the same on both. *)
Definition monitor_rate_limit (q : quota) : result (option advisory) :=
  match ratelimit_remaining q, ratelimit_limit q with
  | Some remaining, Some limit =>
      ratio <- true_div remaining limit ;;
      if Qltb ratio float_tenth
      then let reset_time := (ratelimit_reset q - time_now q)%Q in
           if Qltb 0 reset_time
           then Ok (Some (Advisory remaining limit reset_time))
           else Ok None
      else Ok None
  | _, _ => Ok None
  end.

(** ** Data model *)

(** The reduced account kept inside a cross-reference. *)
Record account_ref : Type := AccountRef {
  ref_username : string;
  ref_display_name : string;
  ref_url : string
}.

(** A media attachment as a dictionary. [meta] and [local_path] are keys
    that may be absent. *)
Record media : Type := Media {
  media_id : Z;
  media_type : string;
  media_url : string;
  media_preview_url : string;
  media_description : option string;
  media_meta : option string;
  media_local_path : option string
}.

(** A media attachment as a client object; [mo_meta] is [None] when the
    object has no [meta] attribute. *)
Record media_object : Type := MediaObject {
  mo_id : Z;
  mo_type : string;
  mo_url : string;
  mo_preview_url : string;
  mo_description : option string;
  mo_meta : option string
}.

Inductive media_item : Type :=
| MediaDict (d : media)
| MediaObj (o : media_object).

(** A status as it is embedded in a reblog or fetched by id. *)
Record status : Type := Status {
  st_id : Z;
  st_account : account_ref;
  st_created_at : string;
  st_content : string;
  st_media_attachments : list media_item
}.

(** A raw post of a page of [account_statuses]. [post_reblog] is [None]
    when the attribute is missing or null. *)
Record raw_post : Type := RawPost {
  post_id : Z;
  post_created_at : string;
  post_reblog : option status;
  post_content : string;
  post_url : string;
  post_reblogs_count : Z;
  post_favourites_count : Z;
  post_replies_count : Z;
  post_media_attachments : list media_item;
  post_in_reply_to_id : option Z;
  post_in_reply_to_account_id : option Z;
  post_language : option string;
  post_visibility : string;
  post_sensitive : bool;
  post_spoiler_text : string;
  post_poll : option string
}.

(** An entry of [status_reblogged_by] / [status_favourited_by]. *)
Record actor : Type := Actor {
  actor_id : option Z;
  actor_username : string;
  actor_display_name : string;
  actor_url : string
}.

(** What [account_lookup] and [account] return. *)
Record account : Type := Account {
  account_id : Z;
  account_username : string;
  account_display_name : string;
  account_url : string;
  account_avatar : string;
  account_bot : bool;
  account_created_at : string;
  account_followers_count : Z;
  account_following_count : Z;
  account_statuses_count : Z
}.

Record actor_details : Type := ActorDetails {
  ad_avatar : string;
  ad_bot : bool;
  ad_created_at : string;
  ad_followers_count : Z;
  ad_following_count : Z;
  ad_statuses_count : Z
}.

(** An entry of [rebloggers] / [favouriters]: the full record of a
    successful lookup, or the basic one ([ar_details = None]). *)
Record actor_record : Type := ActorRecord {
  ar_id : option Z;
  ar_username : string;
  ar_display_name : string;
  ar_url : string;
  ar_instance : option string;
  ar_details : option actor_details
}.

Record content : Type := Content {
  text : string;
  hashtags : list string;
  mentions : list string;
  urls : list string
}.

Inductive post_type : Type := Reblog | Favorite | Original.

Definition post_type_name (t : post_type) : string :=
  match t with
  | Reblog => "reblog"
  | Favorite => "favorite"
  | Original => "original"
  end.

Record reblogged_from : Type := RebloggedFrom {
  rf_id : Z;
  rf_account : account_ref;
  rf_created_at : string;
  rf_media_attachments : list media
}.

Record favorited_status : Type := FavoritedStatus {
  fs_id : Z;
  fs_account : account_ref;
  fs_created_at : string
}.

(** [post_dict] of [get_all_posts]. [pd_reblogged_from] and
    [pd_favorited_status] are [None] when the key was never set. *)
Record post_dict : Type := PostDict {
  pd_id : Z;
  pd_created_at : string;
  pd_type : post_type;
  pd_url : string;
  pd_reblogs_by : Z;
  pd_favourites_count : Z;
  pd_replies_count : Z;
  pd_media_attachments : list media;
  pd_in_reply_to_id : option Z;
  pd_in_reply_to_account_id : option Z;
  pd_language : option string;
  pd_visibility : string;
  pd_sensitive : bool;
  pd_spoiler_text : string;
  pd_poll : option string;
  pd_rebloggers : list actor_record;
  pd_favouriters : list actor_record;
  pd_content : content;
  pd_reblogged_from : option reblogged_from;
  pd_favorited_status : option favorited_status
}.

(** A reply of [get_context_for_status]. *)
Record reply : Type := Reply {
  reply_id : Z;
  reply_account_id : Z;
  reply_account_username : string;
  reply_account_display_name : string;
  reply_content : string;
  reply_created_at : string
}.

(** [reconstructed_post] of [get_profile_info]: the persisted record. It has
    no [type] key; the two cross-references are [None] for JSON null. *)
Record persisted_post : Type := PersistedPost {
  pp_id : Z;
  pp_created_at : string;
  pp_content : content;
  pp_url : string;
  pp_reblogs_by : Z;
  pp_favourites_count : Z;
  pp_replies_count : Z;
  pp_media_attachments : list media;
  pp_in_reply_to_id : option Z;
  pp_in_reply_to_account_id : option Z;
  pp_language : option string;
  pp_visibility : string;
  pp_sensitive : bool;
  pp_spoiler_text : string;
  pp_poll : option string;
  pp_rebloggers : list actor_record;
  pp_favouriters : list actor_record;
  pp_replies : list reply;
  pp_reblogged_from : option reblogged_from;
  pp_favorited_status : option favorited_status
}.

(** ** Events of a run *)

Inductive event (P : Type) : Type :=
| EvAdvisory (a : advisory)    (* pbar.write(rate_limit_msg) *)
| EvRequest (params : P)       (* a page request and its parameters *)
| EvSleep (seconds : Q).       (* time.sleep(seconds) *)

Arguments EvAdvisory {P} a.
Arguments EvRequest {P} params.
Arguments EvSleep {P} seconds.

(** ** The remote service *)

(** Outcome of [mastodon.account_statuses]. *)
Inductive fetch_outcome : Type :=
| Page (batch : list raw_post)
| RatelimitError                     (* MastodonRatelimitError; the class of
                                        Mastodon.py defines no attribute *)
| FetchError (e : exn).              (* any other exception *)

(** A [requests] response of the followers/following endpoint. *)
Record follower : Type := Follower {
  fo_id : Z;
  fo_username : string;
  fo_display_name : string;
  fo_url : string
}.

Definition params : Type := list (string * string).

Record response : Type := Response {
  status_code : Z;
  retry_after : option string;            (* headers.get("Retry-After") *)
  link_next : option (option params);     (* None: no Link header;
                                             Some None: no rel="next" in it *)
  json_body : list follower
}.

(** Outcome of [requests.get]: a response, whatever its status, or a
    [RequestException] raised before any response was bound. *)
Inductive get_outcome : Type :=
| GetResponse (r : response)
| GetRaised (e : exn).

(** The [mastodon] client, the HTTP transport and the monotonic clock over
    a service state [W]. *)
Record mastodon (W : Type) : Type := Client {
  api_base_url : string;
  client_quota : W -> quota;
  account_statuses : W -> Z -> option Z -> fetch_outcome * W;
  account_info : W -> Z -> result account * W;
  account_lookup : W -> string -> result account * W;
  status_lookup : W -> string -> result status * W;
  status_reblogged_by : W -> Z -> result (list actor) * W;
  status_favourited_by : W -> Z -> result (list actor) * W;
  status_context : W -> Z -> result (list reply) * W;
  requests_get : W -> string -> params -> get_outcome * W;
  download_media : W -> string -> string -> bool * W;
  monotonic_ns : W -> Z       (* the clock [time.sleep] counts from *)
}.

(** What a run leaves behind: the value returned or the exception raised,
    the service state and the events, oldest first. *)
Record run (W A P : Type) : Type := Run {
  returned : result A;
  world : W;
  trace : list (event P)
}.

(** One turn of a [while True] loop. *)
Inductive turn (S : Type) : Type :=
| Continue (s : S)
| Break (s : S)
| Abort (e : exn) (s : S).

Arguments Continue {S} s.
Arguments Break {S} s.
Arguments Abort {S} e s.

(** ** Python list helpers *)

(** [xs[-1]] of a non-empty list. *)
Definition last_item {A} (xs : list A) (d : A) : A := last xs d.

(** [xs[-n:]] for [0 < n]: the last [n] items, all of them when there are
    fewer. *)
Definition last_n {A} (n : nat) (xs : list A) : list A :=
  skipn (List.length xs - n) xs.

(** [xs[:n]] for any integer [n]. *)
Definition slice_to {A} (n : Z) (xs : list A) : list A :=
  if (0 <=? n)%Z then firstn (Z.to_nat n) xs
  else firstn (List.length xs - Z.to_nat (- n)) xs.

(** [x in ids]. *)
Definition id_in (x : Z) (ids : list Z) : bool := existsb (Z.eqb x) ids.

(** ** [int] of a header and [time.sleep] *)

(** The characters [int] strips as whitespace, among the 256 a header can
    hold. *)
Definition is_space (c : ascii) : bool :=
  let n := nat_of_ascii c in
  ((9 <=? n) && (n <=? 13) || (n =? 32) || (n =? 133) || (n =? 160))%nat.

Fixpoint lstrip (cs : list ascii) : list ascii :=
  match cs with
  | c :: rest => if is_space c then lstrip rest else cs
  | [] => []
  end.

Definition strip (cs : list ascii) : list ascii :=
  rev (lstrip (rev (lstrip cs))).

Definition digit_of (c : ascii) : option Z :=
  let n := nat_of_ascii c in
  if ((48 <=? n) && (n <=? 57))%nat then Some (Z.of_nat (n - 48)) else None.

(** Decimal digits with single underscores between them: the value and
    the number of digits. *)
Fixpoint digits_value (cs : list ascii) (acc : Z) (count : nat)
    (after_digit : bool) : option (Z * nat) :=
  match cs with
  | [] => if after_digit then Some (acc, count) else None
  | c :: rest =>
      match digit_of c with
      | Some v => digits_value rest (10 * acc + v)%Z (S count) true
      | None =>
          if Ascii.eqb c "_"%char && after_digit
          then digits_value rest acc count false
          else None
      end
  end.

(** [int(s)] of a string: [None] stands for [ValueError]. Whitespace around
    the number is dropped, a sign may come first, and a number of more than
    4300 digits is refused. *)
Definition python_int (s : string) : option Z :=
  let cs := strip (list_ascii_of_string s) in
  let (negative, digits) :=
    match cs with
    | c :: rest =>
        if Ascii.eqb c "-"%char then (true, rest)
        else if Ascii.eqb c "+"%char then (false, rest)
        else (false, cs)
    | [] => (false, cs)
    end in
  match digits_value digits 0 0 false with
  | Some (v, count) =>
      if (4300 <? count)%nat then None
      else Some (if negative then (- v)%Z else v)
  | None => None
  end.

(** [int(response.headers.get("Retry-After", 60))] *)
Definition retry_after_seconds (r : response) : result Z :=
  match retry_after r with
  | None => Ok 60%Z
  | Some header =>
      match python_int header with
      | Some d => Ok d
      | None => Raise ValueError
      end
  end.

(** [time.sleep(d)] of an integer, as CPython does it on a 64-bit
    nanosecond clock: the seconds slept. It raises [OverflowError] when [d]
    seconds do not fit the clock, [ValueError] on a negative [d], and
    [OSError] when the deadline, counted from the present reading
    [monotonic] of the clock, is past the end of the clock. The half-second
    sleeps of the loops are taken to end before the clock does. *)
Definition sleep_max : Z := 9223372036.

Definition time_sleep (monotonic : Z) (d : Z) : result Q :=
  if (d <? - sleep_max)%Z || (sleep_max <? d)%Z then Raise OverflowError
  else if (d <? 0)%Z then Raise ValueError
  else if (2 ^ 63 <=? monotonic + d * 10 ^ 9)%Z then Raise OSError
  else Ok (inject_Z d).

Section Scanner.

(** [clean_content] parses HTML with BeautifulSoup and [urlparse] belongs to
    the standard library; both are taken as given, and both may raise. *)
Variable clean_content : string -> result content.
Variable urlparse_netloc : string -> result string.

Variable W : Type.
Variable m : mastodon W.

(** *** [extract_instance_from_url] *)
Definition extract_instance_from_url (url : string) : option string :=
  match urlparse_netloc url with
  | Ok netloc => Some netloc
  | Raise _ => None
  end.

(** [f"{x}"] of an optional string. *)
Definition format_opt (o : option string) : string :=
  match o with Some s => s | None => "None" end.

(** *** [process_media_attachments] *)
Definition media_of_object (o : media_object) : media :=
  {| media_id := mo_id o;
     media_type := mo_type o;
     media_url := mo_url o;
     media_preview_url := mo_preview_url o;
     media_description := mo_description o;
     media_meta :=
       if (mo_type o =? "image") || (mo_type o =? "video")
       then Some (match mo_meta o with Some b => b | None => "{}" end)
       else None;
     media_local_path := None |}.

Definition process_media_attachments (l : list media_item) : list media :=
  map (fun it => match it with
                 | MediaDict d => d
                 | MediaObj o => media_of_object o
                 end) l.

(** *** PostEnricher: the body of the [for post in new_posts] loop *)

(** Line 330. [not post.content] holds for the empty string. *)
Definition classify (post : raw_post) : post_type :=
  match post_reblog post with
  | Some _ => Reblog
  | None =>
      if (post_content post =? EmptyString) && contains "/activity" (post_url post)
      then Favorite
      else Original
  end.

Definition full_actor_record (a : account) : actor_record :=
  {| ar_id := Some (account_id a);
     ar_username := account_username a;
     ar_display_name := account_display_name a;
     ar_url := account_url a;
     ar_instance := extract_instance_from_url (account_url a);
     ar_details := Some {| ad_avatar := account_avatar a;
                           ad_bot := account_bot a;
                           ad_created_at := account_created_at a;
                           ad_followers_count := account_followers_count a;
                           ad_following_count := account_following_count a;
                           ad_statuses_count := account_statuses_count a |} |}.

Definition basic_actor_record (u : actor) : actor_record :=
  {| ar_id := actor_id u;
     ar_username := actor_username u;
     ar_display_name := actor_display_name u;
     ar_url := actor_url u;
     ar_instance := extract_instance_from_url (actor_url u);
     ar_details := None |}.

Definition actor_entry (w : W) (u : actor) : actor_record * W :=
  let acct := (actor_username u ++ "@"
               ++ format_opt (extract_instance_from_url (actor_url u)))%string in
  match account_lookup m w acct with
  | (Ok a, w1) => (full_actor_record a, w1)
  | (Raise _, w1) => (basic_actor_record u, w1)
  end.

Fixpoint actor_entries (w : W) (users : list actor) : list actor_record * W :=
  match users with
  | [] => ([], w)
  | u :: rest =>
      let (r, w1) := actor_entry w u in
      let (rs, w2) := actor_entries w1 rest in
      (r :: rs, w2)
  end.

Definition actors_of (fetch : W -> Z -> result (list actor) * W)
    (w : W) (id : Z) : list actor_record * W :=
  match fetch w id with
  | (Ok users, w1) => actor_entries w1 users
  | (Raise _, w1) => ([], w1)
  end.

Definition unavailable_content : content :=
  {| text := "Action non disponible"; hashtags := []; mentions := []; urls := [] |}.

(** The [try] block of the favorite branch: the id is the second-to-last
    segment of the URL, the status is fetched and its content cleaned. *)
Definition resolve_favorite (w : W) (post : raw_post)
    : result (content * favorited_status) * W :=
  match second_to_last (split_on "/" (post_url post)) with
  | None => (Raise IndexError, w)
  | Some status_id =>
      match status_lookup m w status_id with
      | (Raise e, w1) => (Raise e, w1)
      | (Ok original, w1) =>
          (c <- clean_content (st_content original) ;;
           Ok (c, {| fs_id := st_id original;
                     fs_account := st_account original;
                     fs_created_at := st_created_at original |}), w1)
      end
  end.

(** The reblogger and favouriter lists: fetched for a public post only. *)
Definition expand_engagement (w : W) (post : raw_post)
    : list actor_record * list actor_record * W :=
  if post_visibility post =? "public"
  then let (rs, w1) := actors_of (status_reblogged_by m) w (post_id post) in
       let (fs, w2) := actors_of (status_favourited_by m) w1 (post_id post) in
       (rs, fs, w2)
  else ([], [], w).

Definition process_post (w : W) (post : raw_post) : result post_dict * W :=
  let ty := classify post in
  let '(rebloggers, favouriters, w2) := expand_engagement w post in
  let mk (c : content) (rf : option reblogged_from)
         (fav : option favorited_status) : post_dict :=
    {| pd_id := post_id post;
       pd_created_at := post_created_at post;
       pd_type := ty;
       pd_url := post_url post;
       pd_reblogs_by := post_reblogs_count post;
       pd_favourites_count := post_favourites_count post;
       pd_replies_count := post_replies_count post;
       pd_media_attachments := process_media_attachments (post_media_attachments post);
       pd_in_reply_to_id := post_in_reply_to_id post;
       pd_in_reply_to_account_id := post_in_reply_to_account_id post;
       pd_language := post_language post;
       pd_visibility := post_visibility post;
       pd_sensitive := post_sensitive post;
       pd_spoiler_text := post_spoiler_text post;
       pd_poll := post_poll post;
       pd_rebloggers := rebloggers;
       pd_favouriters := favouriters;
       pd_content := c;
       pd_reblogged_from := rf;
       pd_favorited_status := fav |} in
  match ty, post_reblog post with
  | Reblog, Some rb =>
      (c <- clean_content (st_content rb) ;;
       Ok (mk c (Some {| rf_id := st_id rb;
                         rf_account := st_account rb;
                         rf_created_at := st_created_at rb;
                         rf_media_attachments :=
                           process_media_attachments (st_media_attachments rb) |})
                None), w2)
  | Favorite, _ =>
      match resolve_favorite w2 post with
      | (Ok (c, fav), w3) => (Ok (mk c None (Some fav)), w3)
      | (Raise _, w3) => (Ok (mk unavailable_content None None), w3)
      end
  | _, _ =>
      (c <- clean_content (post_content post) ;; Ok (mk c None None), w2)
  end.

(** The HTML [process_post] hands to [clean_content] outside any [try]:
    the content of the reblogged status or the post's own; none for a
    favorite, which is cleaned inside the [try] of its branch. *)
Definition cleaned_html (post : raw_post) : option string :=
  match classify post, post_reblog post with
  | Reblog, Some rb => Some (st_content rb)
  | Favorite, _ => None
  | _, _ => Some (post_content post)
  end.

Fixpoint process_posts (w : W) (posts : list raw_post)
    : result (list post_dict) * W :=
  match posts with
  | [] => (Ok [], w)
  | post :: rest =>
      match process_post w post with
      | (Raise e, w1) => (Raise e, w1)
      | (Ok d, w1) =>
          match process_posts w1 rest with
          | (Raise e, w2) => (Raise e, w2)
          | (Ok ds, w2) => (Ok (d :: ds), w2)
          end
      end
  end.

(** *** PaginatedCollector, cursor by max-id: [get_all_posts] *)

Record posts_state : Type := PostsState {
  all_posts : list post_dict;
  max_id : option Z;
  posts_world : W;
  posts_trace : list (event (option Z))
}.

(** [if max_id: params["max_id"] = max_id]: [None] and [0] add nothing. *)
Definition max_id_param (max_id : option Z) : option Z :=
  match max_id with
  | Some i => if (i =? 0)%Z then None else Some i
  | None => None
  end.

Definition advisory_events {P} (msg : option advisory) : list (event P) :=
  match msg with
  | Some a => [EvAdvisory a]
  | None => []
  end.

(** [post.id not in [existing["id"] for existing in all_posts]] *)
Definition new_posts_of (batch : list raw_post) (known : list post_dict)
    : list raw_post :=
  filter (fun post => negb (id_in (post_id post) (map pd_id known))) batch.

(** [if max_count and len(all_posts) >= max_count] *)
Definition max_count_reached (max_count : option Z) (n : nat) : bool :=
  match max_count with
  | Some c => negb (c =? 0)%Z && (c <=? Z.of_nat n)%Z
  | None => false
  end.

Definition dummy_post : raw_post :=
  RawPost 0 EmptyString None EmptyString EmptyString 0 0 0 [] None None None EmptyString false EmptyString None.

(** One turn of the [while True] of [get_all_posts]. *)
Definition posts_turn (account_id : Z) (max_count : option Z) (s : posts_state)
    : turn posts_state :=
  match monitor_rate_limit (client_quota m (posts_world s)) with
  | Raise e => Abort e s
  | Ok msg =>
      let tr := posts_trace s ++ advisory_events msg in
      let param := max_id_param (max_id s) in
      let tr := tr ++ [EvRequest param] in
      match account_statuses m (posts_world s) account_id param with
      | (RatelimitError, w1) =>
          (* the handler formats and sleeps [e.reset_in], an attribute the
             exception does not have *)
          Abort AttributeError (PostsState (all_posts s) (max_id s) w1 tr)
      | (FetchError e, w1) =>
          Abort e (PostsState (all_posts s) (max_id s) w1 tr)
      | (Page [], w1) =>
          Break (PostsState (all_posts s) (max_id s) w1 tr)
      | (Page batch, w1) =>
          let max_id' := Some (post_id (last_item batch dummy_post)) in
          match new_posts_of batch (all_posts s) with
          | [] => Break (PostsState (all_posts s) max_id' w1 tr)
          | new_posts =>
              match process_posts w1 new_posts with
              | (Raise e, w2) => Abort e (PostsState (all_posts s) max_id' w2 tr)
              | (Ok processed_posts, w2) =>
                  let all := all_posts s ++ processed_posts in
                  if max_count_reached max_count (List.length all)
                  then Break (PostsState
                                (slice_to (match max_count with Some c => c | None => 0%Z end) all)
                                max_id' w2 tr)
                  else Continue (PostsState all max_id' w2 (tr ++ [EvSleep (1 # 2)]))
              end
          end
      end
  end.

Definition posts_run (r : result (list post_dict)) (s : posts_state)
    : run W (list post_dict) (option Z) :=
  Run r (posts_world s) (posts_trace s).

Fixpoint posts_loop (fuel : nat) (account_id : Z) (max_count : option Z)
    (s : posts_state) : option (run W (list post_dict) (option Z)) :=
  match fuel with
  | O => None
  | S fuel' =>
      match posts_turn account_id max_count s with
      | Continue s' => posts_loop fuel' account_id max_count s'
      | Break s' => Some (posts_run (Ok (all_posts s')) s')
      | Abort e s' => Some (posts_run (Raise e) s')
      end
  end.

Definition get_all_posts (fuel : nat) (w : W) (account_id : Z)
    (max_count : option Z) : option (run W (list post_dict) (option Z)) :=
  match account_info m w account_id with
  | (Raise e, w1) => Some (Run (Raise e) w1 [])
  | (Ok _, w1) => posts_loop fuel account_id max_count (PostsState [] None w1 [])
  end.

(** *** PaginatedCollector, link header: [get_followers_or_following_direct] *)

Record followers_state : Type := FollowersState {
  items : list follower;
  request_params : params;
  last_response : option response;   (* the local [response]; None: unbound *)
  followers_world : W;
  followers_trace : list (event params)
}.

(** [response.raise_for_status()] raises for 4xx and 5xx. *)
Definition is_error_status (r : response) : bool :=
  (400 <=? status_code r)%Z && (status_code r <? 600)%Z.

(** [item["id"] not in [existing["id"] for existing in items]] *)
Definition new_items_of (batch known : list follower) : list follower :=
  filter (fun item => negb (id_in (fo_id item) (map fo_id known))) batch.

(** The [except requests.exceptions.RequestException] handler. It reads the
    local [response], which is whatever the last [requests.get] that
    returned has bound. On a 429 it parses the header with [int] and sleeps;
    what either raises leaves the function. *)
Definition followers_except (s : followers_state) : turn followers_state :=
  match last_response s with
  | None => Abort UnboundLocalError s
  | Some r =>
      if (status_code r =? 429)%Z
      then match retry_after_seconds r with
           | Raise e => Abort e s
           | Ok retry_after =>
               match time_sleep (monotonic_ns m (followers_world s)) retry_after with
               | Raise e => Abort e s
               | Ok seconds =>
                   Continue (FollowersState (items s) (request_params s)
                               (last_response s) (followers_world s)
                               (followers_trace s ++ [EvSleep seconds]))
               end
           end
      else Break s
  end.

Definition followers_turn (url : string) (expected_total : Z) (s : followers_state)
    : turn followers_state :=
  match monitor_rate_limit (client_quota m (followers_world s)) with
  | Raise e => Abort e s
  | Ok msg =>
      let tr := followers_trace s ++ advisory_events msg
                ++ [EvRequest (request_params s)] in
      match requests_get m (followers_world s) url (request_params s) with
      | (GetRaised _, w1) =>
          followers_except
            (FollowersState (items s) (request_params s) (last_response s) w1 tr)
      | (GetResponse r, w1) =>
          let s1 := FollowersState (items s) (request_params s) (Some r) w1 tr in
          if is_error_status r then followers_except s1
          else
            match json_body r with
            | [] => Break s1
            | batch =>
                match new_items_of batch (items s) with
                | [] => Break s1
                | new_items =>
                    let all := items s ++ new_items in
                    match link_next r with
                    | Some (Some next) =>
                        let s2 := FollowersState all next (Some r) w1 tr in
                        if (expected_total <=? Z.of_nat (List.length all))%Z
                        then Break s2
                        else Continue (FollowersState all next (Some r) w1
                                         (tr ++ [EvSleep (1 # 2)]))
                    | _ => Break (FollowersState all (request_params s) (Some r) w1 tr)
                    end
                end
            end
      end
  end.

Definition followers_run (r : result (list follower)) (s : followers_state)
    : run W (list follower) params :=
  Run r (followers_world s) (followers_trace s).

Fixpoint followers_loop (fuel : nat) (url : string) (expected_total : Z)
    (s : followers_state) : option (run W (list follower) params) :=
  match fuel with
  | O => None
  | S fuel' =>
      match followers_turn url expected_total s with
      | Continue s' => followers_loop fuel' url expected_total s'
      | Break s' => Some (followers_run (Ok (items s')) s')
      | Abort e s' => Some (followers_run (Raise e) s')
      end
  end.

(** [f"{api_base_url}/api/v1/accounts/{account_id}/{type_list}"] *)
Definition endpoint_url (account_id : Z) (type_list : string) : string :=
  (api_base_url m ++ "/api/v1/accounts/" ++ str_of_Z account_id
   ++ "/" ++ type_list)%string.

Definition initial_params : params := [("limit", "80")].

Definition get_followers_or_following_direct (fuel : nat) (w : W)
    (account_id : Z) (type_list : string)
    : option (run W (list follower) params) :=
  let url := endpoint_url account_id type_list in
  match account_info m w account_id with
  | (Raise e, w1) => Some (Run (Raise e) w1 [])
  | (Ok acct, w1) =>
      let expected_total :=
        if type_list =? "followers" then account_followers_count acct
        else account_following_count acct in
      followers_loop fuel url expected_total
        (FollowersState [] initial_params None w1 [])
  end.

(** *** [get_context_for_status] *)
Definition get_context_for_status (w : W) (status_id : Z) : list reply * W :=
  match status_context m w status_id with
  | (Ok replies, w1) => (replies, w1)
  | (Raise _, w1) => ([], w1)
  end.

(** *** Media naming and download in [get_profile_info] *)

(** [status["reblogged_from"]["id"]] when the post has a cross-reference,
    [status["id"]] otherwise. *)
Definition media_post_id (st : post_dict) : Z :=
  match pd_reblogged_from st with
  | Some rf => rf_id rf
  | None => pd_id st
  end.

Definition file_ext (md : media) : string :=
  let ext := splitext_ext (media_url md) in
  if ext =? EmptyString then (if media_type md =? "image" then ".jpg" else ".mp4")
  else ext.

(** [f"{post_id}_{media['id']}{file_ext}"] *)
Definition media_filename (st : post_dict) (md : media) : string :=
  (str_of_Z (media_post_id st) ++ "_" ++ str_of_Z (media_id md) ++ file_ext md)%string.

(** [os.path.join(a, b)] for a relative [b]. *)
Definition path_join (a b : string) : string := (a ++ "/" ++ b)%string.

Definition download_one (output_dir : string) (st : post_dict)
    (w : W) (md : media) : media * nat * W :=
  let name := media_filename st md in
  let save_path := path_join (path_join output_dir "media") name in
  match download_media m w (media_url md) save_path with
  | (true, w1) =>
      ({| media_id := media_id md;
          media_type := media_type md;
          media_url := media_url md;
          media_preview_url := media_preview_url md;
          media_description := media_description md;
          media_meta := media_meta md;
          media_local_path := Some (path_join "media" name) |}, 1%nat, w1)
  | (false, w1) => (md, 0%nat, w1)
  end.

Fixpoint download_all (output_dir : string) (st : post_dict)
    (w : W) (mds : list media) : list media * nat * W :=
  match mds with
  | [] => ([], 0%nat, w)
  | md :: rest =>
      let '(md', c1, w1) := download_one output_dir st w md in
      let '(rest', c2, w2) := download_all output_dir st w1 rest in
      (md' :: rest', (c1 + c2)%nat, w2)
  end.

(** The body of [for i, status in enumerate(statuses)] up to
    [status_list.append]. The media of the cross-reference are the very
    dictionaries appended to the post's own copies, so a [local_path] set
    on them shows in [reblogged_from] too. *)
Definition reconstruct_post (output_dir : string) (download_media_files : bool)
    (w : W) (st : post_dict) : persisted_post * nat * W :=
  let own := pd_media_attachments st in
  let shared := match pd_reblogged_from st with
                | Some rf => rf_media_attachments rf
                | None => []
                end in
  let '(media_attachments, count, w1) :=
    if download_media_files
    then download_all output_dir st w (own ++ shared)
    else (own ++ shared, 0%nat, w) in
  let (replies, w2) := get_context_for_status w1 (pd_id st) in
  ({| pp_id := pd_id st;
      pp_created_at := pd_created_at st;
      pp_content := pd_content st;
      pp_url := pd_url st;
      pp_reblogs_by := pd_reblogs_by st;
      pp_favourites_count := pd_favourites_count st;
      pp_replies_count := pd_replies_count st;
      pp_media_attachments := media_attachments;
      pp_in_reply_to_id := pd_in_reply_to_id st;
      pp_in_reply_to_account_id := pd_in_reply_to_account_id st;
      pp_language := pd_language st;
      pp_visibility := pd_visibility st;
      pp_sensitive := pd_sensitive st;
      pp_spoiler_text := pd_spoiler_text st;
      pp_poll := pd_poll st;
      pp_rebloggers := pd_rebloggers st;
      pp_favouriters := pd_favouriters st;
      pp_replies := replies;
      pp_reblogged_from :=
        match pd_reblogged_from st with
        | Some rf => Some {| rf_id := rf_id rf;
                             rf_account := rf_account rf;
                             rf_created_at := rf_created_at rf;
                             rf_media_attachments :=
                               skipn (List.length own) media_attachments |}
        | None => None
        end;
      pp_favorited_status := pd_favorited_status st |}, count, w2).

(** *** IncrementalJournal: the posts file *)

(** The posts file: [None] while it does not exist, else the JSON array it
    holds. Writing and reading back a list of records is the identity. *)
Definition posts_file : Type := option (list persisted_post).

(** Lines 594-611, after record [i] of [n] was appended to [status_list].
    [batch_size] is the local constant of the source, [20]; it is an
    argument here and positive. *)
Definition flush_posts (batch_size n i : nat) (status_list : list persisted_post)
    (file : posts_file) : posts_file :=
  if (((i + 1) mod batch_size =? 0) || (i =? n - 1))%nat
  then if (i =? 0)%nat
       then Some status_list
       else match file with
            | Some existing_posts => Some (existing_posts ++ last_n batch_size status_list)
            | None => Some status_list
            end
  else file.

Record journal_state : Type := JournalState {
  status_list : list persisted_post;
  media_count : nat;
  file : posts_file;
  journal_world : W
}.

Fixpoint journal_loop (output_dir : string) (download_media_files : bool)
    (batch_size n i : nat) (statuses : list post_dict) (s : journal_state)
    : journal_state :=
  match statuses with
  | [] => s
  | st :: rest =>
      let '(post, count, w1) :=
        reconstruct_post output_dir download_media_files (journal_world s) st in
      let status_list' := status_list s ++ [post] in
      journal_loop output_dir download_media_files batch_size n (S i) rest
        (JournalState status_list' (media_count s + count)
           (flush_posts batch_size n i status_list' (file s)) w1)
  end.

Definition batch_size : nat := 20.

(** The posts stage of [get_profile_info], from the collected [statuses] and
    the state of the posts file when the stage starts. *)
Definition persist_posts (output_dir : string) (download_media_files : bool)
    (w : W) (statuses : list post_dict) (file0 : posts_file) : journal_state :=
  journal_loop output_dir download_media_files batch_size (List.length statuses) 0
    statuses (JournalState [] 0 file0 w).

End Scanner.

(** ** The favorite rule in the specification's words *)

(** "favorite if the post body is empty AND its canonical URL path ends in
    a literal /activity segment": the same cascade as [classify] with the
    URL test read as a suffix test. Kept apart to be compared with
    [classify]. *)
Definition classify_by_suffix (post : raw_post) : post_type :=
  match post_reblog post with
  | Some _ => Reblog
  | None =>
      if (post_content post =? EmptyString) && ends_with "/activity" (post_url post)
      then Favorite
      else Original
  end.

(** The placeholder body as the specification words it. *)
Definition spec_placeholder_content : content :=
  {| text := "<unavailable>"; hashtags := []; mentions := []; urls := [] |}.

(** "the minimum id seen in the current page" *)
Definition min_id (batch : list raw_post) : option Z :=
  match batch with
  | [] => None
  | p :: rest => Some (fold_left Z.min (map post_id rest) (post_id p))
  end.

(** A page is newest first when its ids strictly decrease. *)
Fixpoint newest_first (ids : list Z) : Prop :=
  match ids with
  | [] => True
  | x :: rest => (forall y, In y rest -> (y < x)%Z) /\ newest_first rest
  end.

(** ** A scripted service, for concrete runs *)

(** The service state is what is left of two scripts: the outcomes of the
    coming [account_statuses] calls and of the coming [requests.get] calls.
    An exhausted script answers with an empty page. No account is found
    by [account_lookup], no post has rebloggers, favouriters or replies,
    statuses are found by id in [known], every download succeeds, the
    monotonic clock is at its origin. *)
Record script : Type := Script {
  posts_script : list fetch_outcome;
  gets_script : list get_outcome
}.

Definition empty_response : response := Response 200 None None [].

Definition scripted_client (acct : account) (known : list (string * status))
    : mastodon script :=
  {| api_base_url := "https://example.social";
     client_quota := fun _ => Quota (Some 300%Z) (Some 300%Z) 0 0;
     account_statuses := fun w _ _ =>
       match posts_script w with
       | [] => (Page [], w)
       | o :: rest => (o, Script rest (gets_script w))
       end;
     account_info := fun w _ => (Ok acct, w);
     account_lookup := fun w _ => (Raise MastodonAPIError, w);
     status_lookup := fun w id =>
       match find (fun kv => fst kv =? id) known with
       | Some kv => (Ok (snd kv), w)
       | None => (Raise MastodonAPIError, w)
       end;
     status_reblogged_by := fun w _ => (Ok [], w);
     status_favourited_by := fun w _ => (Ok [], w);
     status_context := fun w _ => (Ok [], w);
     requests_get := fun w _ _ =>
       match gets_script w with
       | [] => (GetResponse empty_response, w)
       | o :: rest => (o, Script (posts_script w) rest)
       end;
     download_media := fun w _ _ => (true, w);
     monotonic_ns := fun _ => 0%Z |}.

Definition plain_content (html : string) : result content :=
  Ok (Content html [] [] []).

Definition fixed_netloc (url : string) : result string := Ok "example.social".

Definition alice : account :=
  Account 1 "alice" "Alice" "https://example.social/@alice" EmptyString false "2020-01-01" 3 0 3.

Definition bob_ref : account_ref :=
  AccountRef "bob" "Bob" "https://other.social/@bob".

Definition plain_post (id : Z) (body url : string) : raw_post :=
  RawPost id "2024-01-01" None body url 0 0 0 [] None None None "public" false EmptyString None.

(** An empty post whose URL holds [/activity] in the middle. *)
Definition activity_inside_post : raw_post :=
  plain_post 7 EmptyString "https://example.social/activity/42".

(** A favorite marker whose original status is gone. *)
Definition orphan_favorite : raw_post :=
  plain_post 8 EmptyString "https://example.social/users/alice/statuses/42/activity".

(** A favorite marker whose original status is found. *)
Definition found_favorite : raw_post :=
  plain_post 9 EmptyString "https://example.social/users/alice/statuses/43/activity".

Definition status_43 : status := Status 43 bob_ref "2023-12-31" "<p>hi</p>" [].

Definition demo_client : mastodon script :=
  scripted_client alice [("43", status_43)].

Definition idle : script := Script [] [].

Definition picture : media :=
  Media 501 "image" "https://files.other.social/media/501.png" EmptyString None None None.

Definition original_77 : status :=
  Status 77 bob_ref "2023-11-30" "<p>look</p>" [MediaDict picture].

(** Two reblogs of status 77, with ids 1001 and 2002. *)
Definition reblog_of_77 (id : Z) : raw_post :=
  RawPost id "2024-01-02" (Some original_77) EmptyString "https://example.social/@alice/r"
    0 0 0 [] None None None "unlisted" false EmptyString None.

Definition blank_post_dict : post_dict :=
  PostDict 0 EmptyString Original EmptyString 0 0 0 [] None None None EmptyString false EmptyString None
    [] [] unavailable_content None None.

(** The record [process_post] builds for a post on the scripted service. *)
Definition enriched (post : raw_post) : post_dict :=
  match fst (process_post plain_content fixed_netloc demo_client idle post) with
  | Ok d => d
  | Raise _ => blank_post_dict
  end.

(** The state a turn leaves, however it ends. *)
Definition turn_state {S} (t : turn S) : S :=
  match t with
  | Continue s => s
  | Break s => s
  | Abort _ s => s
  end.

Definition text_post (id : Z) : raw_post :=
  plain_post id "<p>hello</p>" "https://example.social/@alice/post".

(** A page that is not newest first. *)
Definition unordered_page : list raw_post := [text_post 1; text_post 5].

(** One page, then a network failure. *)
Definition page_then_failure : script :=
  Script [Page [text_post 3]; FetchError MastodonNetworkError] [].

(** A rate-limit signal, then one page; for the followers endpoint a 429
    that asks for 30 seconds. *)
Definition limited_then_page : script :=
  Script [RatelimitError; Page [text_post 3; text_post 2]]
         [GetResponse (Response 429 (Some "30") None []);
          GetResponse (Response 200 None None [Follower 11 "carol" "Carol" "https://example.social/@carol"])].

(** A 429 whose [Retry-After] is a date, as HTTP allows. *)
Definition dated_retry : script :=
  Script []
         [GetResponse (Response 429 (Some "Wed, 21 Oct 2015 07:28:00 GMT") None []);
          GetResponse (Response 200 None None [Follower 11 "carol" "Carol" "https://example.social/@carol"])].

(** The requests and sleeps of a trace, the advisories left out. *)
Definition is_advisory {P} (e : event P) : bool :=
  match e with
  | EvAdvisory _ => true
  | _ => false
  end.

Definition without_advisories {P} (tr : list (event P)) : list (event P) :=
  filter (fun e => negb (is_advisory e)) tr.

(** The posts file once [k] full batches of [batch_size] records have been
    flushed, none of them being the last flush. *)
Definition flushed (batch_size k : nat) (sl : list persisted_post) : posts_file :=
  match k with
  | O => None
  | S _ => Some (firstn (batch_size * k) sl)
  end.

(** Twenty-five collected posts, ids 1 to 25. *)
Definition twenty_five : list post_dict :=
  map (fun i => enriched (text_post (Z.of_nat i))) (seq 1 25).

(** ** Paged sources *)

(** The posts that follow the one with id [c] in a timeline. *)
Fixpoint after_id (c : Z) (timeline : list raw_post) : list raw_post :=
  match timeline with
  | [] => []
  | p :: rest => if (post_id p =? c)%Z then rest else after_id c rest
  end.

(** What a request carrying [cursor] has still to be served. *)
Definition remaining_after (timeline : list raw_post) (cursor : option Z)
    : list raw_post :=
  match cursor with
  | None => timeline
  | Some c => after_id c timeline
  end.

(** [batch] is an answer of a source that serves [timeline] in pages of
    [P]: the next [P] posts while some remain; once the timeline is
    exhausted, an empty page or posts it has served before (the last page
    again, for one). *)
Definition serves_posts (P : nat) (timeline : list raw_post)
    (cursor : option Z) (batch : list raw_post) : Prop :=
  match remaining_after timeline cursor with
  | [] => forall p, In p batch -> In (post_id p) (map post_id timeline)
  | rest => batch = firstn P rest
  end.

(** The same for the followers endpoint. [rest_of q] is what a request with
    parameters [q] has still to be served; the response carries a next
    link as long as something remains after it, and a next link leads to
    what remains. *)
Definition serves_followers (P : nat) (everyone : list follower)
    (rest_of : params -> list follower) (q : params) (r : response) : Prop :=
  is_error_status r = false /\
  match rest_of q with
  | [] => forall f, In f (json_body r) -> In (fo_id f) (map fo_id everyone)
  | rest => json_body r = firstn P rest
  end /\
  (forall next, link_next r = Some (Some next) -> rest_of next = skipn P (rest_of q)) /\
  (skipn P (rest_of q) <> [] -> exists next, link_next r = Some (Some next)).

(** A client whose two sources serve fixed lists in pages of [P] and
    repeat their last page once exhausted; the rest is [demo_client]. The
    followers link counts the pages served in the request parameters. *)
Definition last_page {A} (P : nat) (l : list A) : list A :=
  last_n (S ((List.length l - 1) mod P)) l.

Definition pages_served (q : params) : nat :=
  List.length (filter (fun kv => fst kv =? "page") q).

Definition paged_client (P : nat) (timeline : list raw_post)
    (everyone : list follower) : mastodon script :=
  {| api_base_url := api_base_url demo_client;
     client_quota := client_quota demo_client;
     account_statuses := fun w _ cursor =>
       match remaining_after timeline cursor with
       | [] => (Page (last_page P timeline), w)
       | rest => (Page (firstn P rest), w)
       end;
     account_info := fun w _ =>
       (Ok (Account 1 "alice" "Alice" "https://example.social/@alice" EmptyString false
              "2020-01-01" (Z.of_nat (List.length everyone))
              (Z.of_nat (List.length everyone))
              (Z.of_nat (List.length timeline))), w);
     account_lookup := account_lookup demo_client;
     status_lookup := status_lookup demo_client;
     status_reblogged_by := status_reblogged_by demo_client;
     status_favourited_by := status_favourited_by demo_client;
     status_context := status_context demo_client;
     requests_get := fun w _ q =>
       let rest := skipn (P * pages_served q) everyone in
       (GetResponse
          (Response 200 None (Some (Some (("page", "next") :: q)))
             (match rest with
              | [] => last_page P everyone
              | _ => firstn P rest
              end)), w);
     download_media := download_media demo_client;
     monotonic_ns := monotonic_ns demo_client |}.

(** The same client, its account counters set to [count] whatever the
    number of followers served. *)
Definition counting_client (count : Z) (P : nat) (timeline : list raw_post)
    (everyone : list follower) : mastodon script :=
  let c := paged_client P timeline everyone in
  {| api_base_url := api_base_url c;
     client_quota := client_quota c;
     account_statuses := account_statuses c;
     account_info := fun w _ =>
       (Ok (Account 1 "alice" "Alice" "https://example.social/@alice" EmptyString false
              "2020-01-01" count count (Z.of_nat (List.length timeline))), w);
     account_lookup := account_lookup c;
     status_lookup := status_lookup c;
     status_reblogged_by := status_reblogged_by c;
     status_favourited_by := status_favourited_by c;
     status_context := status_context c;
     requests_get := requests_get c;
     download_media := download_media c;
     monotonic_ns := monotonic_ns c |}.

(** A client whose quota has a limit of zero. *)
Definition zero_limit_client (c : mastodon script) : mastodon script :=
  {| api_base_url := api_base_url c;
     client_quota := fun _ => Quota (Some 0%Z) (Some 0%Z) 0 0;
     account_statuses := account_statuses c;
     account_info := account_info c;
     account_lookup := account_lookup c;
     status_lookup := status_lookup c;
     status_reblogged_by := status_reblogged_by c;
     status_favourited_by := status_favourited_by c;
     status_context := status_context c;
     requests_get := requests_get c;
     download_media := download_media c;
     monotonic_ns := monotonic_ns c |}.

Definition five_posts : list raw_post := map text_post [50; 40; 30; 20; 10]%Z.

Definition five_followers : list follower :=
  map (fun i => Follower i "user" "User" "https://example.social/@user")
      [11; 12; 13; 14; 15]%Z.

(** The cursor [get_all_posts] holds once the posts [done] are collected. *)
Definition cursor_after (done : list raw_post) : option Z :=
  match done with
  | [] => None
  | _ => Some (post_id (last_item done dummy_post))
  end.

From Stdlib Require DecimalPos DecimalZ.

(** ** The profile handle of [get_profile_info] *)

Definition default_instance : string := "mastodon.social".

(** Lines 474-482. [username, instance = profile_arg.split("@")] unpacks
    exactly two parts; any other number raises [ValueError], which the
    function answers by returning [None]. *)
Definition parse_profile_arg (profile_arg : string) : option (string * string) :=
  if contains "@" profile_arg
  then match split_on "@"%char profile_arg with
       | [username; instance] => Some (username, instance)
       | _ => None
       end
  else Some (profile_arg, default_instance).

(** [f"scrapped_precise_{username}_{instance}"] *)
Definition output_dir_name (username instance : string) : string :=
  ("scrapped_precise_" ++ username ++ "_" ++ instance)%string.

(** ** Followers and following records of [get_profile_info] *)

(** An item of the followers endpoint with the keys the persisted record
    reads through [.get]: [None] is a missing key. The four keys read with
    [item[...]] are those of [follower]. *)
Record follower_json : Type := FollowerJson {
  fj_core : follower;
  fj_avatar : option string;
  fj_header : option string;
  fj_bot : option bool;
  fj_created_at : option string;
  fj_note : option string;
  fj_followers_count : option Z;
  fj_following_count : option Z;
  fj_statuses_count : option Z;
  fj_last_status_at : option string;
  fj_locked : option bool;
  fj_fields : option (list (string * string))
}.

Record account_entry : Type := AccountEntry {
  ae_id : Z;
  ae_username : string;
  ae_display_name : string;
  ae_url : string;
  ae_instance : option string;
  ae_avatar : option string;
  ae_header : option string;
  ae_bot : bool;
  ae_created_at : option string;
  ae_note : string;
  ae_followers_count : Z;
  ae_following_count : Z;
  ae_statuses_count : Z;
  ae_last_status_at : option string;
  ae_locked : bool;
  ae_fields : list (string * string)
}.

(** [d.get(key, default)] *)
Definition get_default {A} (o : option A) (default : A) : A :=
  match o with
  | Some a => a
  | None => default
  end.

Section Accounts.

Variable urlparse_netloc : string -> result string.

(** Lines 621-639 and 653-671. *)
Definition account_entry_of (f : follower_json) : account_entry :=
  {| ae_id := fo_id (fj_core f);
     ae_username := fo_username (fj_core f);
     ae_display_name := fo_display_name (fj_core f);
     ae_url := fo_url (fj_core f);
     ae_instance := extract_instance_from_url urlparse_netloc (fo_url (fj_core f));
     ae_avatar := fj_avatar f;
     ae_header := fj_header f;
     ae_bot := get_default (fj_bot f) false;
     ae_created_at := fj_created_at f;
     ae_note := get_default (fj_note f) EmptyString;
     ae_followers_count := get_default (fj_followers_count f) 0%Z;
     ae_following_count := get_default (fj_following_count f) 0%Z;
     ae_statuses_count := get_default (fj_statuses_count f) 0%Z;
     ae_last_status_at := fj_last_status_at f;
     ae_locked := get_default (fj_locked f) false;
     ae_fields := get_default (fj_fields f) [] |}.

(** The file of a followers or following list: [None] while it does not
    exist. [save_data_to_file] opens it with mode [w]: the whole list
    replaces what was there. *)
Definition accounts_file : Type := option (list account_entry).

(** Lines 642-644 and 674-676, after item [i] of [n] was appended. *)
Definition flush_accounts (batch_size n i : nat) (records : list account_entry)
    (file : accounts_file) : accounts_file :=
  if (((i + 1) mod batch_size =? 0) || (i =? n - 1))%nat
  then Some records
  else file.

Fixpoint accounts_loop (batch_size n i : nat) (data : list follower_json)
    (records : list account_entry) (file : accounts_file)
    : list account_entry * accounts_file :=
  match data with
  | [] => (records, file)
  | item :: rest =>
      let records' := records ++ [account_entry_of item] in
      accounts_loop batch_size n (S i) rest records'
        (flush_accounts batch_size n i records' file)
  end.

(** The batch size of both stages: [batch_size = 100] is set before the
    followers loop and still holds in the following loop. *)
Definition accounts_batch_size : nat := 100.

Definition persist_accounts (data : list follower_json) (file0 : accounts_file)
    : list account_entry * accounts_file :=
  accounts_loop accounts_batch_size (List.length data) 0 data [] file0.

End Accounts.

(** ** [get_all_items] *)

(** [sorted(batch, key=lambda x: int(x.id))]: a stable sort, equal ids keep
    their order. *)
Fixpoint insert_by_id {A} (id_of : A -> Z) (x : A) (l : list A) : list A :=
  match l with
  | [] => [x]
  | y :: rest =>
      if (id_of x <=? id_of y)%Z then x :: l
      else y :: insert_by_id id_of x rest
  end.

Fixpoint sorted_by_id {A} (id_of : A -> Z) (l : list A) : list A :=
  match l with
  | [] => []
  | x :: rest => insert_by_id id_of x (sorted_by_id id_of rest)
  end.

(** Outcome of [fetch_function(account_id, **params)]. *)
Inductive items_outcome (A : Type) : Type :=
| ItemsPage (batch : list A)
| ItemsRatelimit                   (* MastodonRatelimitError *)
| ItemsError (e : exn).

Arguments ItemsPage {A} batch.
Arguments ItemsRatelimit {A}.
Arguments ItemsError {A} e.

Section GetAllItems.

Variable W : Type.
Variable m : mastodon W.
Variable A : Type.
Variable id_of : A -> Z.               (* x.id *)
Variable dummy_item : A.
(** [fetch_function]: called with the account id, [limit] and, when it is
    set, [since_id]. *)
Variable fetch_function : W -> Z -> Z -> option Z -> items_outcome A * W.

Record items_state : Type := ItemsState {
  is_items : list A;
  is_since_id : option Z;
  is_world : W;
  is_trace : list (event (option Z))
}.

Definition is_account_list (desc : string) : bool :=
  (desc =? "followers") || (desc =? "following").

(** One turn of the [while True] of [get_all_items]. [expected_total] is
    read only when [desc] names an account list. *)
Definition items_turn (account_id : Z) (desc : string) (expected_total : Z)
    (s : items_state) : turn items_state :=
  match monitor_rate_limit (client_quota m (is_world s)) with
  | Raise e => Abort e s
  | Ok msg =>
      let limit := if is_account_list desc then 80%Z else 40%Z in
      let param := max_id_param (is_since_id s) in
      let tr := is_trace s ++ advisory_events msg ++ [EvRequest param] in
      match fetch_function (is_world s) account_id limit param with
      | (ItemsRatelimit, w1) =>
          (* [e.reset_in]: the exception has no such attribute *)
          Abort AttributeError (ItemsState (is_items s) (is_since_id s) w1 tr)
      | (ItemsError e, w1) =>
          Abort e (ItemsState (is_items s) (is_since_id s) w1 tr)
      | (ItemsPage [], w1) =>
          Break (ItemsState (is_items s) (is_since_id s) w1 tr)
      | (ItemsPage batch, w1) =>
          let batch := sorted_by_id id_of batch in
          match filter (fun x => negb (id_in (id_of x) (map id_of (is_items s)))) batch with
          | [] => Break (ItemsState (is_items s) (is_since_id s) w1 tr)
          | new_items =>
              let all := is_items s ++ new_items in
              let since_id' := Some (id_of (last batch dummy_item)) in
              if is_account_list desc
                 && (expected_total <=? Z.of_nat (List.length all))%Z
              then Break (ItemsState all since_id' w1 tr)
              else Continue (ItemsState all since_id' w1 tr)
          end
      end
  end.

Fixpoint items_loop (fuel : nat) (account_id : Z) (desc : string)
    (expected_total : Z) (s : items_state)
    : option (run W (list A) (option Z)) :=
  match fuel with
  | O => None
  | S fuel' =>
      match items_turn account_id desc expected_total s with
      | Continue s' => items_loop fuel' account_id desc expected_total s'
      | Break s' => Some (Run (Ok (is_items s')) (is_world s') (is_trace s'))
      | Abort e s' => Some (Run (Raise e) (is_world s') (is_trace s'))
      end
  end.

Definition get_all_items (fuel : nat) (w : W) (account_id : Z) (desc : string)
    : option (run W (list A) (option Z)) :=
  if is_account_list desc
  then match account_info m w account_id with
       | (Raise e, w1) => Some (Run (Raise e) w1 [])
       | (Ok acct, w1) =>
           let expected_total :=
             if desc =? "followers" then account_followers_count acct
             else account_following_count acct in
           items_loop fuel account_id desc expected_total (ItemsState [] None w1 [])
       end
  else items_loop fuel account_id desc 0%Z (ItemsState [] None w []).

End GetAllItems.

(** ** More concrete data *)

Definition bare_follower (id : Z) : follower_json :=
  FollowerJson (Follower id "user" "User" "https://example.social/@user")
    None None None None None None None None None None None.

Definition video_object : media_object :=
  MediaObject 502 "video" "https://files.other.social/media/502" EmptyString None None.

Definition audio_object : media_object :=
  MediaObject 503 "audio" "https://files.other.social/media/503.ogg" EmptyString None None.

(** A private post with text. *)
Definition private_post : raw_post :=
  RawPost 12 "2024-01-03" None "<p>secret</p>" "https://example.social/@alice/12"
    0 0 0 [] None None None "private" false EmptyString None.

(** A cleaner that fails on one input. *)
Definition picky_content (html : string) : result content :=
  if html =? "<a class='mention hashtag'>x</a>" then Raise AttributeError
  else Ok (Content html [] [] []).

(** A post whose body is a hashtag link without the [span] the cleaner
    looks for. *)
Definition bare_hashtag_post (id : Z) : raw_post :=
  plain_post id "<a class='mention hashtag'>x</a>" "https://example.social/@alice/post".

(** [media["id"]] / [media.id] of an attachment, dictionary or object. *)
Definition media_item_id (it : media_item) : Z :=
  match it with
  | MediaDict d => media_id d
  | MediaObj o => mo_id o
  end.

(** The account name an actor is looked up under:
    [f"{user.username}@{extract_instance_from_url(user.url)}"]. *)
Definition actor_acct (urlparse_netloc : string -> result string) (u : actor) : string :=
  (actor_username u ++ "@"
   ++ format_opt (extract_instance_from_url urlparse_netloc (actor_url u)))%string.

(** The record of one listed actor: the full record of the account found
    under its name, or, when that lookup raised, the basic record made of
    the fields of the listing. *)
Definition actor_recorded (urlparse_netloc : string -> result string)
    {W : Type} (m : mastodon W) (u : actor) (r : actor_record) : Prop :=
  (exists w0 w1 a,
     account_lookup m w0 (actor_acct urlparse_netloc u) = (Ok a, w1) /\
     r = full_actor_record urlparse_netloc a) \/
  (exists w0 w1 e,
     account_lookup m w0 (actor_acct urlparse_netloc u) = (Raise e, w1) /\
     r = basic_actor_record urlparse_netloc u).

(** A medium once its file is downloaded: [media["local_path"]] is the path
    of the file relative to the output directory. *)
Definition with_local_path (st : post_dict) (md : media) : media :=
  {| media_id := media_id md;
     media_type := media_type md;
     media_url := media_url md;
     media_preview_url := media_preview_url md;
     media_description := media_description md;
     media_meta := media_meta md;
     media_local_path := Some (path_join "media" (media_filename st md)) |}.

(** [save_path]: where the file of a medium of the post is written. *)
Definition save_path (output_dir : string) (st : post_dict) (md : media) : string :=
  path_join (path_join output_dir "media") (media_filename st md).

(** The media [get_profile_info] handles for a post: the post's own, then
    those of the post it reblogs. *)
Definition media_of_post (st : post_dict) : list media :=
  pd_media_attachments st
  ++ match pd_reblogged_from st with
     | Some rf => rf_media_attachments rf
     | None => []
     end.

(** Ids in ascending order. *)
Fixpoint ascending (ids : list Z) : Prop :=
  match ids with
  | [] => True
  | x :: rest => (forall y, In y rest -> (x <= y)%Z) /\ ascending rest
  end.

(** A page of plain items, for [get_all_items]. *)
Definition scripted_fetch (w : list (items_outcome Z)) (account_id limit : Z)
    (since_id : option Z) : items_outcome Z * list (items_outcome Z) :=
  match w with
  | [] => (ItemsPage [], w)
  | o :: rest => (o, rest)
  end.

Definition items_client : mastodon (list (items_outcome Z)) :=
  {| api_base_url := "https://example.social";
     client_quota := fun _ => Quota None None 0 0;
     account_statuses := fun w _ _ => (Page [], w);
     account_info := fun w _ => (Ok alice, w);
     account_lookup := fun w _ => (Raise MastodonAPIError, w);
     status_lookup := fun w _ => (Raise MastodonAPIError, w);
     status_reblogged_by := fun w _ => (Ok [], w);
     status_favourited_by := fun w _ => (Ok [], w);
     status_context := fun w _ => (Ok [], w);
     requests_get := fun w _ _ => (GetRaised ConnectionError, w);
     download_media := fun w _ _ => (false, w);
     monotonic_ns := fun _ => 0%Z |}.

(** [c] is no decimal digit and no minus sign. *)
Definition not_numeral_char (c : ascii) : Prop :=
  forall d, In d ["0"; "1"; "2"; "3"; "4"; "5"; "6"; "7"; "8"; "9"; "-"]%char ->
            Ascii.eqb c d = false.

(** A trace is paced when no page request follows another page request
    without a sleep in between; [after_request] tells whether a request is the last
    thing that happened, advisories apart. *)
Fixpoint paced {P} (after_request : bool) (tr : list (event P)) : bool :=
  match tr with
  | [] => true
  | EvAdvisory _ :: rest => paced after_request rest
  | EvSleep _ :: rest => paced false rest
  | EvRequest _ :: rest => negb after_request && paced true rest
  end.

Fixpoint ends_after_request {P} (after_request : bool) (tr : list (event P)) : bool :=
  match tr with
  | [] => after_request
  | EvAdvisory _ :: rest => ends_after_request after_request rest
  | EvSleep _ :: rest => ends_after_request false rest
  | EvRequest _ :: rest => ends_after_request true rest
  end.

(** The trace of a turn that starts idle: paced, and idle again when the
    loop goes on. *)
Definition turn_paced {S P} (tr_of : S -> list (event P)) (t : turn S) : Prop :=
  paced false (tr_of (turn_state t)) = true /\
  (forall s', t = Continue s' -> ends_after_request false (tr_of s') = false).

(** * Properties *)

(** ** Float division *)

Section FloatDivision.

Local Open Scope Z_scope.

(** The quotient and remainder behind a rounding. *)
Lemma round_half_even_cases (n d : Z) :
  0 < d ->
  exists q r, n = d * q + r /\ 0 <= r < d /\
    ((2 * r < d /\ round_half_even n d = q) \/
     (d < 2 * r /\ round_half_even n d = q + 1) \/
     (2 * r = d /\ Z.even q = true /\ round_half_even n d = q) \/
     (2 * r = d /\ Z.even q = false /\ round_half_even n d = q + 1)).
Proof.
  intros Hd. exists (n / d), (n mod d).
  split; [apply Z.div_mod; lia |].
  split; [apply Z.mod_pos_bound; lia |].
  unfold round_half_even.
  destruct (Z.compare_spec (2 * (n mod d)) d) as [E | E | E].
  - destruct (Z.even (n / d)) eqn:Ev; [right; right; left | right; right; right]; auto.
  - left; auto.
  - right; left; auto.
Qed.

Lemma round_half_even_le (n d k : Z) :
  0 < d -> n < k * d -> round_half_even n d <= k.
Proof.
  intros Hd Hn.
  destruct (@round_half_even_cases n d Hd) as (q & r & E & Hr & C).
  assert (q < k) by nia.
  destruct C as [[_ ->] | [[_ ->] | [(_ & _ & ->) | (_ & _ & ->)]]]; lia.
Qed.

Lemma round_half_even_ge (n d k : Z) :
  0 < d -> k * d <= n -> k <= round_half_even n d.
Proof.
  intros Hd Hn.
  destruct (@round_half_even_cases n d Hd) as (q & r & E & Hr & C).
  assert (k <= q) by nia.
  destruct C as [[_ ->] | [[_ ->] | [(_ & _ & ->) | (_ & _ & ->)]]]; lia.
Qed.

Lemma round_half_even_lt_even (n d k : Z) :
  0 < d -> Z.even k = true ->
  (round_half_even n d < k <-> 2 * n < (2 * k - 1) * d).
Proof.
  intros Hd Hk.
  destruct (@round_half_even_cases n d Hd) as (q & r & E & Hr & C).
  apply Z.even_spec in Hk. destruct Hk as [j ->].
  destruct C as [[H ->] | [[H ->] | [(H & Ev & ->) | (H & Ev & ->)]]].
  - split; intros L; nia.
  - split; intros L; nia.
  - apply Z.even_spec in Ev. destruct Ev as [i ->]. split; intros L; nia.
  - assert (Od : Z.odd q = true) by (rewrite <- Z.negb_even, Ev; reflexivity).
    apply Z.odd_spec in Od. destruct Od as [i ->]. split; intros L; nia.
Qed.

(** Rounding a quotient does not depend on a common factor. *)
Lemma round_half_even_scale (n d c : Z) :
  0 < d -> 0 < c -> round_half_even (n * c) (d * c) = round_half_even n d.
Proof.
  intros Hd Hc. unfold round_half_even.
  rewrite Z.div_mul_cancel_r by lia.
  rewrite Z.mul_mod_distr_r by lia.
  replace (2 * (n mod d * c)) with (2 * (n mod d) * c) by ring.
  assert (C : (2 * (n mod d) * c ?= d * c) = (2 * (n mod d) ?= d)).
  { destruct (Z.compare_spec (2 * (n mod d)) d);
      [apply Z.compare_eq_iff | apply Z.compare_lt_iff | apply Z.compare_gt_iff]; nia. }
  rewrite C. reflexivity.
Qed.

Lemma ulp_exponent_small (N d : Z) : N < d * 2 ^ 53 -> ulp_exponent N d = 0.
Proof.
  intros H. unfold ulp_exponent.
  destruct (Z.ltb_spec N (d * 2 ^ 53)); [reflexivity | lia].
Qed.

Lemma ulp_exponent_large (N d : Z) :
  0 < d -> d * 2 ^ 53 <= N ->
  1 <= ulp_exponent N d /\
  d * 2 ^ (ulp_exponent N d + 52) <= N < d * 2 ^ (ulp_exponent N d + 53).
Proof.
  intros Hd HN. unfold ulp_exponent.
  destruct (Z.ltb_spec N (d * 2 ^ 53)) as [H | _]; [lia |].
  assert (HNpos : 0 < N) by nia.
  destruct (Z.log2_spec N HNpos) as [Na Nb].
  destruct (Z.log2_spec d Hd) as [Da Db].
  pose proof (Z.log2_nonneg N) as HaN. pose proof (Z.log2_nonneg d) as HbN.
  set (a := Z.log2 N) in *. set (b := Z.log2 d) in *.
  assert (Hk : 53 <= a - b).
  { assert (2 ^ (b + 53) < 2 ^ (Z.succ a)).
    { rewrite Z.pow_add_r by lia. nia. }
    apply Z.pow_lt_mono_r_iff in H; lia. }
  set (k := a - b) in *.
  assert (Ea : 2 ^ a = 2 ^ b * 2 ^ k).
  { rewrite <- Z.pow_add_r by lia. f_equal. lia. }
  assert (Ek1 : 2 ^ k = 2 * 2 ^ (k - 1)).
  { replace k with (Z.succ (k - 1)) at 1 by lia. rewrite Z.pow_succ_r by lia. reflexivity. }
  assert (Ek2 : 2 ^ (k + 1) = 2 * 2 ^ k).
  { replace (k + 1) with (Z.succ k) by lia. rewrite Z.pow_succ_r by lia. reflexivity. }
  assert (Hsa : 2 ^ Z.succ a = 2 * 2 ^ a) by (rewrite Z.pow_succ_r by lia; reflexivity).
  assert (Hsb : 2 ^ Z.succ b = 2 * 2 ^ b) by (rewrite Z.pow_succ_r by lia; reflexivity).
  assert (P1 : 0 < 2 ^ (k - 1)) by (apply Z.pow_pos_nonneg; lia).
  assert (P2 : 0 < 2 ^ b) by (apply Z.pow_pos_nonneg; lia).
  destruct (Z.ltb_spec N (d * 2 ^ k)) as [L | L].
  - replace (k - 1 - 52 + 52) with (k - 1) by lia.
    replace (k - 1 - 52 + 53) with k by lia.
    assert (d * 2 ^ (k - 1) <= N) by nia.
    split; [| lia].
    assert (2 ^ 53 < 2 ^ k) by nia.
    apply Z.pow_lt_mono_r_iff in H0; lia.
  - replace (k - 52 + 52) with k by lia.
    replace (k - 52 + 53) with (k + 1) by lia.
    split; [lia |]. split; [lia |]. nia.
Qed.

Lemma ulp_exponent_nonneg (N d : Z) : 0 < d -> 0 <= ulp_exponent N d.
Proof.
  intros Hd. destruct (Z.lt_ge_cases N (d * 2 ^ 53)) as [H | H].
  - rewrite (@ulp_exponent_small N d H). lia.
  - destruct (@ulp_exponent_large N d Hd H). lia.
Qed.

(** The mantissa of the rounded quotient has at most 53 bits (54 when the
    rounding carries). *)
Lemma mantissa_le (N d : Z) :
  0 < d -> 0 <= N ->
  round_half_even N (d * 2 ^ ulp_exponent N d) <= 2 ^ 53.
Proof.
  intros Hd HN. pose proof (@ulp_exponent_nonneg N d Hd) as He.
  assert (P : 0 < 2 ^ ulp_exponent N d) by (apply Z.pow_pos_nonneg; lia).
  apply (@round_half_even_le N (d * 2 ^ ulp_exponent N d) (2 ^ 53)); [nia |].
  destruct (Z.lt_ge_cases N (d * 2 ^ 53)) as [H | H].
  - rewrite (@ulp_exponent_small N d H). cbn [Z.pow Z.pow_pos Pos.iter]. lia.
  - destruct (@ulp_exponent_large N d Hd H) as [_ [_ U]].
    rewrite Z.pow_add_r in U by lia. lia.
Qed.

(** [nearest_float] rounds the quotient counted in units of [2^-1074] at
    the spacing [2^e]. *)
Lemma nearest_float_uniform (n d : Z) :
  0 < d ->
  nearest_float n d
  = let N := n * 2 ^ 1074 in
    let e := ulp_exponent N d in
    let m := round_half_even N (d * 2 ^ e) in
    if 2 ^ 2098 <=? m * 2 ^ e then None
    else Some (Qmake (m * 2 ^ e) (Z.to_pos (2 ^ 1074))).
Proof.
  intros Hd. unfold nearest_float. cbv zeta.
  pose proof (@ulp_exponent_nonneg (n * 2 ^ 1074) d Hd) as He.
  set (e := ulp_exponent (n * 2 ^ 1074) d) in *.
  assert (M : (if e <=? 1074
               then round_half_even (n * 2 ^ (1074 - e)) d
               else round_half_even n (d * 2 ^ (e - 1074)))
              = round_half_even (n * 2 ^ 1074) (d * 2 ^ e)).
  { destruct (Z.leb_spec e 1074) as [L | L].
    - replace (n * 2 ^ 1074) with (n * 2 ^ (1074 - e) * 2 ^ e).
      + apply eq_sym, round_half_even_scale; [exact Hd |].
        apply Z.pow_pos_nonneg; lia.
      + rewrite <- Z.mul_assoc, <- Z.pow_add_r by lia. do 2 f_equal. lia.
    - replace (d * 2 ^ e) with (d * 2 ^ (e - 1074) * 2 ^ 1074).
      + apply eq_sym, round_half_even_scale.
        * apply Z.mul_pos_pos; [exact Hd | apply Z.pow_pos_nonneg; lia].
        * apply Z.pow_pos_nonneg; lia.
      + rewrite <- Z.mul_assoc, <- Z.pow_add_r by lia. do 2 f_equal. lia. }
  rewrite M. reflexivity.
Qed.

(** A quotient below [2^1023] is in the range of the floats. *)
Lemma nearest_float_in_range (n d : Z) :
  0 < d -> 0 <= n -> n < d * 2 ^ 1023 ->
  exists x, nearest_float n d = Some x.
Proof.
  intros Hd Hn Hr. rewrite (nearest_float_uniform n Hd). cbv zeta.
  set (N := n * 2 ^ 1074).
  assert (HN : 0 <= N) by (unfold N; lia).
  assert (HNr : N < d * 2 ^ 2097).
  { unfold N. replace 2097 with (1023 + 1074) by lia.
    rewrite Z.pow_add_r by lia. nia. }
  pose proof (@mantissa_le N d Hd HN) as Hm.
  pose proof (@ulp_exponent_nonneg N d Hd) as He.
  set (e := ulp_exponent N d) in *.
  set (m := round_half_even N (d * 2 ^ e)) in *.
  assert (Hb : m * 2 ^ e < 2 ^ 2098).
  { assert (Hm0 : 0 <= m).
    { apply (@round_half_even_ge N (d * 2 ^ e) 0); [| lia].
      assert (0 < 2 ^ e) by (apply Z.pow_pos_nonneg; lia). nia. }
    assert (He' : e <= 2044).
    { destruct (Z.lt_ge_cases N (d * 2 ^ 53)) as [H | H].
      - unfold e. rewrite (@ulp_exponent_small N d H). lia.
      - destruct (@ulp_exponent_large N d Hd H) as [_ [L _]]. fold e in L.
        assert (2 ^ (e + 52) < 2 ^ 2097) by nia.
        apply Z.pow_lt_mono_r_iff in H0; lia. }
    assert (2 ^ e <= 2 ^ 2044) by (apply Z.pow_le_mono_r; lia).
    assert (0 < 2 ^ e) by (apply Z.pow_pos_nonneg; lia).
    replace 2098 with (54 + 2044) by lia. rewrite Z.pow_add_r by lia.
    assert (2 ^ 53 < 2 ^ 54) by (apply Z.pow_lt_mono_r; lia).
    nia. }
  destruct (Z.leb_spec (2 ^ 2098) (m * 2 ^ e)) as [L | _]; [lia |].
  eexists. reflexivity.
Qed.

Lemma pow2_split (a b : Z) : 0 <= a -> 0 <= b -> 2 ^ (a + b) = 2 ^ a * 2 ^ b.
Proof. intros. apply Z.pow_add_r; assumption. Qed.

(** The rounded quotient, in units of [2^-1074], against the float [0.1],
    which is [7205759403792794 * 2^1018] units: it is below exactly when
    the quotient is below the midpoint of [0.1] and the float before it. *)
Lemma rounded_below_tenth (n d : Z) :
  0 < d -> 0 <= n ->
  let N := n * 2 ^ 1074 in
  let e := ulp_exponent N d in
  (round_half_even N (d * 2 ^ e) * 2 ^ e < 7205759403792794 * 2 ^ 1018
   <-> n * 2 ^ 57 < 14411518807585587 * d).
Proof.
  intros Hd Hn N e.
  assert (HN : 0 <= N) by (unfold N; lia).
  pose proof (@mantissa_le N d Hd HN) as Hm. fold e in Hm.
  pose proof (@ulp_exponent_nonneg N d Hd) as He. fold e in He.
  assert (Pe : 0 < 2 ^ e) by (apply Z.pow_pos_nonneg; lia).
  assert (E1070 : 2 ^ 1070 = 2 ^ 52 * 2 ^ 1018) by (rewrite <- pow2_split by lia; reflexivity).
  assert (E1071 : 2 ^ 1071 = 2 ^ 53 * 2 ^ 1018) by (rewrite <- pow2_split by lia; reflexivity).
  assert (E1074 : 2 ^ 1074 = 2 ^ 56 * 2 ^ 1018) by (rewrite <- pow2_split by lia; reflexivity).
  assert (P : 0 < 2 ^ 1018) by (apply Z.pow_pos_nonneg; lia).
  assert (EN : N = n * 2 ^ 56 * 2 ^ 1018) by (unfold N; rewrite E1074; ring).
  set (m := round_half_even N (d * 2 ^ e)) in *.
  destruct (Z.lt_ge_cases N (d * 2 ^ 1070)) as [A | A].
  - (* below 2^-4 *)
    assert (R : n * 2 ^ 57 < 14411518807585587 * d).
    { rewrite E1070, EN in A.
      assert (n * 2 ^ 56 < d * 2 ^ 52) by nia. lia. }
    split; [intros _; exact R | intros _].
    assert (B : m * 2 ^ e <= 2 ^ 1070).
    { destruct (Z.lt_ge_cases N (d * 2 ^ 53)) as [H | H].
      - assert (Ee : e = 0) by (unfold e; apply ulp_exponent_small; exact H).
        unfold m. rewrite Ee, Z.pow_0_r, !Z.mul_1_r.
        apply (@round_half_even_le N d (2 ^ 1070)); lia.
      - destruct (@ulp_exponent_large N d Hd H) as [_ [L _]]. fold e in L.
        assert (X : 2 ^ (e + 52) < 2 ^ 1070) by nia.
        apply Z.pow_lt_mono_r_iff in X; [| lia | lia].
        assert (2 ^ e <= 2 ^ 1017) by (apply Z.pow_le_mono_r; lia).
        replace 1070 with (53 + 1017) by lia. rewrite pow2_split by lia.
        assert (0 <= m).
        { apply (@round_half_even_ge N (d * 2 ^ e) 0); nia. }
        nia. }
    rewrite E1070 in B. lia.
  - assert (H53 : d * 2 ^ 53 <= N).
    { assert (2 ^ 53 <= 2 ^ 1070) by (apply Z.pow_le_mono_r; lia). nia. }
    destruct (@ulp_exponent_large N d Hd H53) as [_ [L U]]. fold e in L, U.
    destruct (Z.lt_ge_cases N (d * 2 ^ 1071)) as [B | B].
    + (* the binade of 0.1 *)
      assert (Ee : e = 1018).
      { assert (X : 2 ^ (e + 52) < 2 ^ 1071) by nia.
        apply Z.pow_lt_mono_r_iff in X; [| lia | lia].
        assert (Y : 2 ^ 1070 < 2 ^ (e + 53)) by nia.
        apply Z.pow_lt_mono_r_iff in Y; [| lia | lia]. lia. }
      assert (Em : m = round_half_even N (d * 2 ^ 1018)) by (unfold m; rewrite Ee; reflexivity).
      rewrite Ee.
      pose proof (@round_half_even_lt_even N (d * 2 ^ 1018) 7205759403792794
                    ltac:(nia) eq_refl) as T.
      rewrite <- Em in T. rewrite EN in T.
      split; intros X.
      * assert (m < 7205759403792794) by nia.
        apply T in H. nia.
      * assert (m < 7205759403792794); [| nia].
        apply T. nia.
    + (* at or above 2^-3 *)
      assert (Ee : 1019 <= e).
      { assert (X : 2 ^ 1071 < 2 ^ (e + 53)) by nia.
        apply Z.pow_lt_mono_r_iff in X; [| lia | lia]. lia. }
      assert (M52 : 2 ^ 52 <= m).
      { apply (@round_half_even_ge N (d * 2 ^ e) (2 ^ 52)); [nia |].
        rewrite pow2_split in L by lia. lia. }
      assert (X : 2 ^ 1019 <= 2 ^ e) by (apply Z.pow_le_mono_r; lia).
      replace 1019 with (1 + 1018) in X by lia. rewrite pow2_split in X by lia.
      rewrite E1071, EN in B.
      split; intros Y; exfalso.
      * assert (2 ^ 52 * (2 ^ 1 * 2 ^ 1018) <= m * 2 ^ e) by nia. lia. 
      * assert (d * 2 ^ 53 <= n * 2 ^ 56) by nia. lia.
Qed.

(** What [nearest_float] returns: a non-negative number of units of
    [2^-1074], below the float [0.1] exactly under the midpoint test. *)
Lemma nearest_float_spec (n d : Z) (x : Q) :
  0 < d -> 0 <= n -> nearest_float n d = Some x ->
  exists u,
    x = Qmake u (Z.to_pos (2 ^ 1074)) /\ 0 <= u /\
    (u < 7205759403792794 * 2 ^ 1018 <-> n * 2 ^ 57 < 14411518807585587 * d).
Proof.
  intros Hd Hn. rewrite (nearest_float_uniform n Hd). cbv zeta.
  destruct (2 ^ 2098 <=? _); [discriminate |]. intros [= <-].
  eexists. split; [reflexivity |].
  split; [| apply rounded_below_tenth; assumption].
  pose proof (@ulp_exponent_nonneg (n * 2 ^ 1074) d Hd) as He.
  assert (P : 0 < 2 ^ ulp_exponent (n * 2 ^ 1074) d) by (apply Z.pow_pos_nonneg; lia).
  assert (R : 0 <= round_half_even (n * 2 ^ 1074) (d * 2 ^ ulp_exponent (n * 2 ^ 1074) d)).
  { apply (@round_half_even_ge (n * 2 ^ 1074) (d * 2 ^ ulp_exponent (n * 2 ^ 1074) d) 0);
      [apply Z.mul_pos_pos; assumption |].
    rewrite Z.mul_0_l. apply Z.mul_nonneg_nonneg; [exact Hn |].
    apply Z.pow_nonneg. lia. }
  apply Z.mul_nonneg_nonneg; [exact R | apply Z.lt_le_incl; exact P].
Qed.

End FloatDivision.

(** ** RateLimitMonitor *)

Lemma Qltb_spec (a b : Q) : Qltb a b = true <-> (a < b)%Q.
Proof.
  unfold Qltb. rewrite Qlt_alt. destruct (a ?= b)%Q; split; congruence.
Qed.

Lemma units_below_tenth (u : Z) :
  Qltb (Qmake u (Z.to_pos (2 ^ 1074))) float_tenth
  = (u <? 7205759403792794 * 2 ^ 1018)%Z.
Proof.
  assert (E : (2 ^ 1074 = 2 ^ 56 * 2 ^ 1018)%Z)
    by (rewrite <- Z.pow_add_r by lia; reflexivity).
  assert (P : (0 < 2 ^ 1018)%Z) by (apply Z.pow_pos_nonneg; lia).
  assert (D : Z.pos (Z.to_pos (2 ^ 1074)) = (2 ^ 56 * 2 ^ 1018)%Z).
  { rewrite Z2Pos.id; [exact E | rewrite E; lia]. }
  destruct (Z.ltb_spec u (7205759403792794 * 2 ^ 1018)) as [H | H].
  - apply Qltb_spec. unfold Qlt, float_tenth. cbn [Qnum Qden]. rewrite D. nia.
  - destruct (Qltb _ _) eqn:Q; [| reflexivity].
    apply Qltb_spec in Q. unfold Qlt, float_tenth in Q. cbn [Qnum Qden] in Q.
    rewrite D in Q. nia.
Qed.

Lemma true_div_zero (a : Z) : true_div a 0 = Raise ZeroDivisionError.
Proof. reflexivity. Qed.

(** Division raises on a zero divisor and on a quotient beyond the floats,
    and on nothing else. *)
Lemma true_div_raises (a b : Z) (e : exn) :
  true_div a b = Raise e ->
  (b = 0%Z /\ e = ZeroDivisionError) \/
  (b <> 0%Z /\ e = OverflowError /\ (Z.abs b * 2 ^ 1023 <= Z.abs a)%Z).
Proof.
  unfold true_div. destruct (Z.eqb_spec b 0) as [-> | Hb].
  - intros [= <-]. left. split; reflexivity.
  - destruct (nearest_float (Z.abs a) (Z.abs b)) as [x |] eqn:N; [discriminate |].
    intros [= <-]. right. split; [exact Hb |]. split; [reflexivity |].
    destruct (Z.le_gt_cases (Z.abs b * 2 ^ 1023) (Z.abs a)) as [H | H]; [exact H |].
    destruct (@nearest_float_in_range (Z.abs a) (Z.abs b)) as [x Hx];
      [lia | lia | exact H | congruence].
Qed.

Lemma true_div_in_range (a b : Z) :
  b <> 0%Z -> (Z.abs a < Z.abs b * 2 ^ 1023)%Z -> exists x, true_div a b = Ok x.
Proof.
  intros Hb Hr. destruct (true_div a b) as [x | e] eqn:E; [eauto |].
  destruct (true_div_raises _ _ E) as [[H _] | (_ & _ & H)]; [contradiction | lia].
Qed.

(** The float quotient against the float [0.1], for a positive divisor. *)
Lemma true_div_below_tenth (a b : Z) (x : Q) :
  (0 < b)%Z -> true_div a b = Ok x ->
  Qltb x float_tenth = (a * 2 ^ 57 <? 14411518807585587 * b)%Z.
Proof.
  intros Hb. unfold true_div.
  destruct (Z.eqb_spec b 0) as [-> | _]; [lia |].
  destruct (nearest_float (Z.abs a) (Z.abs b)) as [y |] eqn:N; [| discriminate].
  intros [= <-].
  destruct (@nearest_float_spec (Z.abs a) (Z.abs b) y) as (u & -> & Hu & T);
    [lia | lia | exact N |].
  rewrite (Z.abs_eq b) in T by lia.
  destruct (Z.ltb_spec (Z.sgn a * Z.sgn b) 0) as [S | S].
  - assert (Ha : (a < 0)%Z) by (destruct a, b; cbn in *; lia).
    transitivity true.
    + apply Qltb_spec. unfold Qlt, Qopp, float_tenth. cbn [Qnum Qden].
      assert (0 < Z.pos (Z.to_pos (2 ^ 1074)))%Z by lia. nia.
    + symmetry. apply Z.ltb_lt. nia.
  - assert (Ha : (0 <= a)%Z) by (destruct a, b; cbn in *; lia).
    rewrite (Z.abs_eq a) in T by lia.
    rewrite units_below_tenth.
    destruct (Z.ltb_spec u (7205759403792794 * 2 ^ 1018)) as [H | H];
      symmetry; [apply Z.ltb_lt | apply Z.ltb_ge]; lia.
Qed.

(** The monitor raises on the division only. *)
Lemma monitor_rate_limit_raises (q : quota) (e : exn) :
  monitor_rate_limit q = Raise e ->
  exists remaining limit,
    ratelimit_remaining q = Some remaining /\ ratelimit_limit q = Some limit /\
    true_div remaining limit = Raise e.
Proof.
  destruct q as [[r |] [l |] reset now]; unfold monitor_rate_limit; cbn;
    try discriminate.
  destruct (true_div r l) as [x | e'] eqn:E; cbn.
  - destruct (Qltb _ _); [destruct (Qltb _ _) |]; discriminate.
  - intros [= <-]. exists r, l. auto.
Qed.

(** With a quotient in the range of the floats the monitor returns. *)
Lemma monitor_rate_limit_returns (q : quota) (remaining limit : Z) :
  ratelimit_remaining q = Some remaining -> ratelimit_limit q = Some limit ->
  limit <> 0%Z -> (Z.abs remaining < Z.abs limit * 2 ^ 1023)%Z ->
  exists a, monitor_rate_limit q = Ok a.
Proof.
  intros Hr Hl H0 Hb.
  destruct (monitor_rate_limit q) as [a | e] eqn:E; [eauto |].
  destruct (monitor_rate_limit_raises _ E) as (r & l & Hr' & Hl' & D).
  assert (r = remaining) by congruence. assert (l = limit) by congruence. subst.
  destruct (true_div_in_range remaining H0 Hb) as [x Hx]. congruence.
Qed.

(** C10. [monitor_rate_limit] divides [remaining] by [limit] as soon as both
    are known, with no test of the divisor. It returns nothing when either
    value is unknown. With [limit = 0] and a known [remaining] it does not
    return at all but raises [ZeroDivisionError], and that is the only way
    it raises [ZeroDivisionError]; so when it returns with a known
    [remaining], [limit] is not zero. A limit that is not zero is not
    enough for it to return: the division also raises [OverflowError] when
    the quotient is beyond the floats; it does return when
    [|remaining| < |limit| * 2^1023]. *)
Theorem monitor_rate_limit_division (q : quota) :
  (ratelimit_remaining q = None \/ ratelimit_limit q = None ->
   monitor_rate_limit q = Ok None) /\
  (forall remaining,
     ratelimit_remaining q = Some remaining -> ratelimit_limit q = Some 0%Z ->
     monitor_rate_limit q = Raise ZeroDivisionError) /\
  (forall remaining a,
     ratelimit_remaining q = Some remaining -> monitor_rate_limit q = Ok a ->
     ratelimit_limit q <> Some 0%Z) /\
  (monitor_rate_limit q = Raise ZeroDivisionError ->
   ratelimit_remaining q <> None /\ ratelimit_limit q = Some 0%Z) /\
  (forall remaining limit,
     ratelimit_remaining q = Some remaining -> ratelimit_limit q = Some limit ->
     limit <> 0%Z -> (Z.abs remaining < Z.abs limit * 2 ^ 1023)%Z ->
     exists a, monitor_rate_limit q = Ok a).
Proof.
  split; [| split; [| split; [| split]]].
  - destruct q as [rem lim reset now]; cbn [ratelimit_limit ratelimit_remaining].
    intros [-> | ->]; unfold monitor_rate_limit; cbn; [reflexivity |].
    destruct rem; reflexivity.
  - destruct q as [rem lim reset now]; cbn [ratelimit_limit ratelimit_remaining].
    intros r -> ->. reflexivity.
  - destruct q as [rem lim reset now]; cbn [ratelimit_limit ratelimit_remaining].
    intros r a -> H ->. discriminate.
  - intros H. destruct (monitor_rate_limit_raises _ H) as (r & l & Hr & Hl & D).
    destruct (true_div_raises _ _ D) as [[-> _] | (_ & X & _)]; [| discriminate].
    split; congruence.
  - apply monitor_rate_limit_returns.
Qed.

Lemma monitor_rate_limit_division_witness :
  monitor_rate_limit (Quota None (Some 0%Z) 100 40) = Ok None /\
  monitor_rate_limit (Quota (Some 5%Z) (Some 0%Z) 100 40) = Raise ZeroDivisionError /\
  Some 300%Z <> Some 0%Z /\
  (exists a, monitor_rate_limit (Quota (Some 5%Z) (Some 300%Z) 100 40) = Ok a).
Proof.
  split; [| split; [| split]].
  - apply (proj1 (monitor_rate_limit_division (Quota None (Some 0%Z) 100 40))).
    left. reflexivity.
  - apply (proj1 (proj2 (monitor_rate_limit_division (Quota (Some 5%Z) (Some 0%Z) 100 40)))
             5%Z); reflexivity.
  - apply (proj1 (proj2 (proj2 (monitor_rate_limit_division
                                  (Quota (Some 5%Z) (Some 300%Z) 100 40))))
             5%Z (Some (Advisory 5 300 (100 - 40)))); [reflexivity |].
    vm_compute. reflexivity.
  - apply (proj2 (proj2 (proj2 (proj2 (monitor_rate_limit_division
                                  (Quota (Some 5%Z) (Some 300%Z) 100 40)))))
             5%Z 300%Z); [reflexivity | reflexivity | discriminate |].
    vm_compute. reflexivity.
Defined.

(** ** Classification *)

Lemma prefix_contains (needle hay : string) :
  prefix needle hay = true -> contains needle hay = true.
Proof. intros H. destruct hay; cbn in *; rewrite H; reflexivity. Qed.

Lemma prefix_refl (s : string) : prefix s s = true.
Proof.
  induction s as [| c s IH]; cbn; [reflexivity |].
  destruct (ascii_dec c c); [assumption | contradiction].
Qed.

Lemma contains_cons (needle : string) (c : ascii) (s : string) :
  contains needle (String c s)
  = if prefix needle (String c s) then true else contains needle s.
Proof. reflexivity. Qed.

Lemma ends_with_cons (suffix : string) (c : ascii) (s : string) :
  ends_with suffix (String c s)
  = if String.eqb suffix (String c s) then true else ends_with suffix s.
Proof. reflexivity. Qed.

(** A suffix occurs in the string: the specification's test implies the
    test the source makes. *)
Lemma ends_with_contains (suffix s : string) :
  ends_with suffix s = true -> contains suffix s = true.
Proof.
  induction s as [| c s IH].
  - cbn. destruct (String.eqb_spec suffix EmptyString) as [-> | _];
      [reflexivity | discriminate].
  - rewrite ends_with_cons, contains_cons.
    destruct (String.eqb_spec suffix (String c s)) as [-> | _].
    + intros _. rewrite prefix_refl. reflexivity.
    + intros H. destruct (prefix suffix (String c s)); [reflexivity | auto].
Qed.

(** C2, as the claim words it, fails: an empty post whose URL has
    [/activity] in the middle is a favorite for the source, though its URL
    does not end in [/activity]. *)
Lemma classify_suffix_counterexample :
  classify activity_inside_post = Favorite /\
  post_content activity_inside_post = EmptyString /\
  ends_with "/activity" (post_url activity_inside_post) = false /\
  classify_by_suffix activity_inside_post = Original.
Proof. repeat split. Qed.

(** C2, amended. A post with a reblog payload is a reblog whatever its
    body; otherwise it is a favorite exactly when its body is empty and its
    URL contains [/activity] somewhere (in particular when the URL ends in
    it); otherwise it is original. *)
Theorem classify_rule (post : raw_post) :
  (post_reblog post <> None -> classify post = Reblog) /\
  (post_reblog post = None ->
   (classify post = Favorite <->
    post_content post = EmptyString /\ contains "/activity" (post_url post) = true)) /\
  (post_reblog post = None ->
   post_content post = EmptyString -> ends_with "/activity" (post_url post) = true ->
   classify post = Favorite) /\
  (post_reblog post = None ->
   ~ (post_content post = EmptyString /\ contains "/activity" (post_url post) = true) ->
   classify post = Original).
Proof.
  unfold classify.
  destruct (post_reblog post) as [rb |].
  - split; [reflexivity |].
    split; [discriminate |]. split; discriminate.
  - split; [intros H; contradiction |].
    destruct (String.eqb_spec (post_content post) EmptyString) as [E | E]; cbn [andb].
    + destruct (contains "/activity" (post_url post)) eqn:C.
      * split; [intros _; split; auto |].
        split; [reflexivity |].
        intros _ H. exfalso. apply H. auto.
      * split; [intros _; split; [discriminate | intros [_ H]; discriminate] |].
        split; [| reflexivity].
        intros _ _ H. apply ends_with_contains in H. congruence.
    + split; [intros _; split; [discriminate | intros [H _]; contradiction] |].
      split; [| reflexivity].
      intros _ H. contradiction.
Qed.

Lemma classify_rule_witness :
  classify (RawPost 3 EmptyString (Some status_43) "body" "u" 0 0 0 [] None None None EmptyString false EmptyString None)
    = Reblog /\
  classify orphan_favorite = Favorite /\
  classify (plain_post 4 "hello" "https://example.social/x/activity") = Original.
Proof.
  split; [| split].
  - apply (proj1 (classify_rule _)). cbn. discriminate.
  - apply (proj1 (proj2 (proj2 (classify_rule orphan_favorite)))); reflexivity.
  - apply (proj2 (proj2 (proj2 (classify_rule _)))); [reflexivity |].
    cbn. intros [H _]. discriminate.
Defined.

(** ** PostEnricher *)

Section EnricherProperties.

Variable clean_content : string -> result content.
Variable urlparse_netloc : string -> result string.
Variable W : Type.
Variable m : mastodon W.

Local Abbreviation enrich := (process_post clean_content urlparse_netloc m).
Local Abbreviation engagement := (expand_engagement urlparse_netloc m).
Local Abbreviation resolve := (resolve_favorite clean_content m).

Lemma classify_reblog_iff (post : raw_post) :
  classify post = Reblog <-> post_reblog post <> None.
Proof.
  unfold classify. destruct (post_reblog post) as [rb |].
  - split; [discriminate | reflexivity].
  - destruct (_ && _); split; try discriminate; intros H; contradiction.
Qed.

(** What [process_post] returns, by class of the post. *)
Lemma process_post_inv (w : W) (post : raw_post) (d : post_dict) (w' : W) :
  enrich w post = (Ok d, w') ->
  pd_id d = post_id post /\
  pd_type d = classify post /\
  (pd_reblogged_from d <> None <-> classify post = Reblog) /\
  (pd_favorited_status d <> None <->
   classify post = Favorite /\
   exists c fav w3,
     resolve (snd (engagement w post)) post = (Ok (c, fav), w3)).
Proof.
  unfold process_post.
  destruct (engagement w post) as [[rs fs] w2] eqn:E. cbn [snd].
  pose proof (classify_reblog_iff post) as Hrb.
  destruct (classify post) eqn:C.
  - destruct (post_reblog post) as [rb |] eqn:R.
    + destruct (clean_content (st_content rb)); cbn; [| discriminate].
      intros [= <- <-]; cbn.
      split; [reflexivity |]. split; [reflexivity |].
      split; [split; [reflexivity | discriminate] |].
      split; [congruence | intros [A _]; discriminate].
    + exfalso. apply (proj1 Hrb); reflexivity.
  - destruct (resolve w2 post) as [[[c fav] | e] w3] eqn:F.
    + intros [= <- <-]; cbn.
      split; [reflexivity |]. split; [reflexivity |].
      split; [split; [congruence | discriminate] |].
      split; [intros _; split; [reflexivity | eauto] | discriminate].
    + intros [= <- <-]; cbn.
      split; [reflexivity |]. split; [reflexivity |].
      split; [split; [congruence | discriminate] |].
      split; [congruence | intros (_ & c & fav & w4 & A); discriminate].
  - destruct (clean_content (post_content post)); cbn; [| discriminate].
    intros [= <- <-]; cbn.
    split; [reflexivity |]. split; [reflexivity |].
    split; [split; [congruence | discriminate] |].
    split; [congruence | intros [A _]; discriminate].
Qed.

(** [reconstruct_post] copies the two cross-references: a key that is
    missing becomes null, a key that is there stays populated. *)
Lemma reconstruct_post_cross_references (output_dir : string) (dl : bool)
    (w : W) (d : post_dict) :
  let pp := fst (fst (reconstruct_post m output_dir dl w d)) in
  pp_id pp = pd_id d /\
  (pp_reblogged_from pp = None <-> pd_reblogged_from d = None) /\
  pp_favorited_status pp = pd_favorited_status d.
Proof.
  unfold reconstruct_post.
  destruct (if dl then _ else _) as [[ms c] w1].
  destruct (get_context_for_status m w1 (pd_id d)) as [replies w2]. cbn.
  destruct (pd_reblogged_from d); repeat split; intros; congruence.
Qed.

(** C5, amended. In a persisted record, [reblogged_from] is populated
    exactly when the post is classified [reblog]; [favorited_status] is
    populated exactly when the post is classified [favorite] and the
    original status was resolved; the two are never populated together;
    both are null for an [original] post. *)
Theorem cross_reference_invariant (output_dir : string) (dl : bool)
    (w w1 w2 : W) (post : raw_post) (d : post_dict) :
  enrich w post = (Ok d, w1) ->
  let pp := fst (fst (reconstruct_post m output_dir dl w2 d)) in
  (pp_reblogged_from pp <> None <-> classify post = Reblog) /\
  (pp_favorited_status pp <> None <->
   classify post = Favorite /\
   exists c fav w3,
     resolve (snd (engagement w post)) post = (Ok (c, fav), w3)) /\
  ~ (pp_reblogged_from pp <> None /\ pp_favorited_status pp <> None) /\
  (classify post = Original ->
   pp_reblogged_from pp = None /\ pp_favorited_status pp = None).
Proof.
  intros H pp.
  destruct (process_post_inv _ _ H) as (_ & _ & Hrb & Hfav).
  destruct (reconstruct_post_cross_references output_dir dl w2 d) as (_ & Rrb & Rfav).
  fold pp in Rrb, Rfav. rewrite Rfav.
  assert (Hrb' : pp_reblogged_from pp <> None <-> classify post = Reblog).
  { rewrite <- Hrb. split; intros A B; apply A; apply Rrb; assumption. }
  split; [exact Hrb' |]. split; [exact Hfav |]. split.
  - intros [A B]. apply Hrb' in A. apply Hfav in B. destruct B as [B _]. congruence.
  - intros C. split.
    + destruct (pp_reblogged_from pp) eqn:E; [| reflexivity].
      assert (A : classify post = Reblog) by (apply Hrb'; discriminate). congruence.
    + destruct (pd_favorited_status d) eqn:E; [| reflexivity].
      assert (A : classify post = Favorite) by (apply Hfav; discriminate). congruence.
Qed.

(** When the resolution of a favorite fails, it failed for one of three
    reasons: the URL has no second-to-last segment, the status lookup
    raised, or cleaning the fetched content raised. *)
Lemma resolve_favorite_failure (w w3 : W) (post : raw_post) (e : exn) :
  resolve w post = (Raise e, w3) ->
  second_to_last (split_on "/" (post_url post)) = None \/
  (exists status_id, second_to_last (split_on "/" (post_url post)) = Some status_id /\
     (status_lookup m w status_id = (Raise e, w3) \/
      exists original, status_lookup m w status_id = (Ok original, w3) /\
                       clean_content (st_content original) = Raise e)).
Proof.
  unfold resolve_favorite.
  destruct (second_to_last _) as [sid |]; [| auto].
  intros H. right. exists sid. split; [reflexivity |].
  destruct (status_lookup m w sid) as [[original | e'] w1].
  - right. exists original.
    destruct (clean_content (st_content original)); cbn in H; [discriminate |].
    inversion H; subst. auto.
  - left. congruence.
Qed.

(** C6, amended. A favorite whose original cannot be resolved, whatever
    the exception, is still produced; its content is the fixed placeholder
    whose text is "Action non disponible" with empty tag, mention and link
    lists, and it carries no cross-reference. *)
Theorem favorite_fallback (w w2 w3 : W) (post : raw_post)
    (rs fs : list actor_record) (e : exn) :
  classify post = Favorite ->
  engagement w post = (rs, fs, w2) ->
  resolve w2 post = (Raise e, w3) ->
  exists d,
    enrich w post = (Ok d, w3) /\
    pd_id d = post_id post /\
    pd_type d = Favorite /\
    pd_content d = {| text := "Action non disponible";
                      hashtags := []; mentions := []; urls := [] |} /\
    pd_reblogged_from d = None /\
    pd_favorited_status d = None.
Proof.
  intros C E F. unfold process_post. rewrite E, C, F.
  eexists. split; [reflexivity |]. cbn. repeat split; auto.
Qed.

(** A favorite never makes the enrichment raise. *)
Lemma process_post_favorite_total (w : W) (post : raw_post) :
  classify post = Favorite -> exists d w', enrich w post = (Ok d, w').
Proof.
  intros C. unfold process_post.
  destruct (engagement w post) as [[rs fs] w2]. rewrite C.
  destruct (resolve w2 post) as [[[c fav] | e] w3]; eauto.
Qed.

End EnricherProperties.

(** C5, as the claim words it, fails: the favorite marker of a status that
    cannot be fetched is classified [favorite], yet neither cross-reference
    of its persisted record is populated. *)
Lemma orphan_favorite_has_no_cross_reference :
  exists d w1,
    process_post plain_content fixed_netloc demo_client idle orphan_favorite = (Ok d, w1) /\
    pd_type d = Favorite /\
    let pp := fst (fst (reconstruct_post demo_client "out" true w1 d)) in
    pp_reblogged_from pp = None /\ pp_favorited_status pp = None.
Proof. do 2 eexists. split; [reflexivity |]. cbn. auto. Qed.

Lemma cross_reference_invariant_witness :
  let d := enriched found_favorite in
  let pp := fst (fst (reconstruct_post demo_client "out" true idle d)) in
  pp_reblogged_from pp = None /\ pp_favorited_status pp <> None.
Proof.
  intros d pp.
  assert (H : process_post plain_content fixed_netloc demo_client idle found_favorite
              = (Ok d, idle)) by reflexivity.
  pose proof (@cross_reference_invariant plain_content fixed_netloc script demo_client
                "out" true idle idle idle found_favorite d H) as (_ & Hfav & Hnot & _).
  fold pp in Hfav, Hnot. split.
  - destruct (pp_reblogged_from pp) eqn:E; [| reflexivity].
    exfalso. apply Hnot. split; [discriminate |].
    apply Hfav. split; [reflexivity |]. do 3 eexists. reflexivity.
  - apply Hfav. split; [reflexivity |]. do 3 eexists. reflexivity.
Defined.

(** C6, as the claim words it, fails: the placeholder of the source is not
    the one the specification gives, its text is "Action non disponible". *)
Lemma orphan_favorite_placeholder_text :
  exists d w1,
    process_post plain_content fixed_netloc demo_client idle orphan_favorite = (Ok d, w1) /\
    classify orphan_favorite = Favorite /\
    text (pd_content d) = "Action non disponible" /\
    pd_content d <> spec_placeholder_content.
Proof.
  do 2 eexists. split; [reflexivity |]. cbn.
  repeat split. discriminate.
Qed.

Lemma favorite_fallback_witness :
  exists d,
    process_post plain_content fixed_netloc demo_client idle orphan_favorite = (Ok d, idle) /\
    pd_id d = 8%Z /\
    pd_type d = Favorite /\
    pd_content d = {| text := "Action non disponible";
                      hashtags := []; mentions := []; urls := [] |} /\
    pd_reblogged_from d = None /\
    pd_favorited_status d = None.
Proof.
  apply (@favorite_fallback plain_content fixed_netloc script demo_client
           idle idle idle orphan_favorite [] [] MastodonAPIError); reflexivity.
Defined.

(** ** Media file names *)

(** C9. The local file name of a medium is the original post's id, an
    underscore, the medium's id and the extension; for a post that carries a
    cross-reference the id is the referenced post's, not the post's own. So
    two reblogs of one original post, whatever their own ids, give the same
    attached medium (same id, URL and type) the same file name. *)
Theorem media_filename_deterministic (st1 st2 : post_dict)
    (rf1 rf2 : reblogged_from) (md1 md2 : media) :
  pd_reblogged_from st1 = Some rf1 ->
  pd_reblogged_from st2 = Some rf2 ->
  rf_id rf1 = rf_id rf2 ->
  media_id md1 = media_id md2 ->
  media_url md1 = media_url md2 ->
  media_type md1 = media_type md2 ->
  media_filename st1 md1
    = (str_of_Z (rf_id rf1) ++ "_" ++ str_of_Z (media_id md1) ++ file_ext md1)%string /\
  media_filename st1 md1 = media_filename st2 md2.
Proof.
  intros H1 H2 Hid Hm Hu Ht.
  unfold media_filename, media_post_id, file_ext.
  rewrite H1, H2, Hid, Hm, Hu, Ht. split; reflexivity.
Qed.

Lemma media_filename_deterministic_witness :
  pd_id (enriched (reblog_of_77 1001)) <> pd_id (enriched (reblog_of_77 2002)) /\
  media_filename (enriched (reblog_of_77 1001)) picture = "77_501.png" /\
  media_filename (enriched (reblog_of_77 1001)) picture
    = media_filename (enriched (reblog_of_77 2002)) picture.
Proof.
  split; [cbn; discriminate |].
  refine (@media_filename_deterministic
            (enriched (reblog_of_77 1001)) (enriched (reblog_of_77 2002))
            (RebloggedFrom 77 bob_ref "2023-11-30" [picture])
            (RebloggedFrom 77 bob_ref "2023-11-30" [picture])
            picture picture _ _ _ _ _ _); reflexivity.
Defined.

(** Without a cross-reference, the post's own id names the file. *)
Lemma media_filename_own (st : post_dict) (md : media) :
  pd_reblogged_from st = None ->
  media_filename st md
  = (str_of_Z (pd_id st) ++ "_" ++ str_of_Z (media_id md) ++ file_ext md)%string.
Proof. intros H. unfold media_filename, media_post_id. rewrite H. reflexivity. Qed.

(** ** PaginatedCollector: single turns *)

Lemma filter_all_true {A} (f : A -> bool) (l : list A) :
  (forall x, In x l -> f x = true) -> filter f l = l.
Proof.
  induction l as [| a l IH]; intros H; cbn; [reflexivity |].
  rewrite (H a (or_introl eq_refl)). f_equal. apply IH.
  intros x Hx. apply H. right. exact Hx.
Qed.

Lemma filter_all_false {A} (f : A -> bool) (l : list A) :
  (forall x, In x l -> f x = false) -> filter f l = [].
Proof.
  induction l as [| a l IH]; intros H; cbn; [reflexivity |].
  rewrite (H a (or_introl eq_refl)). apply IH.
  intros x Hx. apply H. right. exact Hx.
Qed.

Lemma id_in_spec (x : Z) (ids : list Z) : id_in x ids = true <-> In x ids.
Proof.
  unfold id_in. rewrite existsb_exists. split.
  - intros (y & Hy & E). apply Z.eqb_eq in E. subst. exact Hy.
  - intros H. exists x. split; [exact H | apply Z.eqb_refl].
Qed.

Lemma id_in_false (x : Z) (ids : list Z) : id_in x ids = false <-> ~ In x ids.
Proof.
  rewrite <- id_in_spec. destruct (id_in x ids); split; congruence.
Qed.

Lemma new_posts_of_nil (batch : list raw_post) : new_posts_of batch [] = batch.
Proof. apply filter_all_true. reflexivity. Qed.

Lemma new_items_of_nil (batch : list follower) : new_items_of batch [] = batch.
Proof. apply filter_all_true. reflexivity. Qed.

Lemma last_map {A B} (f : A -> B) (l : list A) (d : A) :
  f (last l d) = last (map f l) (f d).
Proof.
  induction l as [| a l IH]; [reflexivity |].
  destruct l as [| b l]; [reflexivity |]. exact IH.
Qed.

(** In a page that is newest first, the last id is the least. *)
Lemma min_id_newest_first (batch : list raw_post) :
  batch <> [] -> newest_first (map post_id batch) ->
  min_id batch = Some (post_id (last_item batch dummy_post)).
Proof.
  intros Hne Hnf. destruct batch as [| p rest]; [contradiction |].
  unfold min_id, last_item. f_equal. rewrite last_map. clear Hne.
  cbn [map] in *. generalize dependent (post_id p).
  induction (map post_id rest) as [| y r IH]; intros x Hnf; [reflexivity |].
  cbn [fold_left]. destruct Hnf as [Hx Hr].
  assert (Hy : (y < x)%Z) by (apply Hx; left; reflexivity).
  rewrite Z.min_r by lia.
  rewrite IH by exact Hr.
  destruct r; reflexivity.
Qed.

Section CollectorProperties.

Variable clean_content : string -> result content.
Variable urlparse_netloc : string -> result string.
Variable W : Type.
Variable m : mastodon W.

Local Abbreviation enrich := (process_post clean_content urlparse_netloc m).
Local Abbreviation enrich_all := (process_posts clean_content urlparse_netloc m).
Local Abbreviation turn_posts := (posts_turn clean_content urlparse_netloc m).
Local Abbreviation loop_posts := (posts_loop clean_content urlparse_netloc m).
Local Abbreviation collect_posts := (get_all_posts clean_content urlparse_netloc m).

Lemma process_posts_ids (w w' : W) (l : list raw_post) (ds : list post_dict) :
  enrich_all w l = (Ok ds, w') -> map pd_id ds = map post_id l.
Proof.
  revert w ds. induction l as [| p l IH]; intros w ds; cbn.
  - intros [= <- <-]. reflexivity.
  - destruct (enrich w p) as [[d | e] w1] eqn:E; [| discriminate].
    destruct (enrich_all w1 l) as [[ds' | e] w2] eqn:E'; [| discriminate].
    intros [= <- <-]. cbn.
    destruct (process_post_inv _ _ _ _ _ E) as [-> _].
    f_equal. eapply IH. exact E'.
Qed.

(** The enrichment of a post raises only where [clean_content] raises on
    the HTML of that post. *)
Lemma process_post_total (w : W) (p : raw_post) :
  (forall html, cleaned_html p = Some html -> exists c, clean_content html = Ok c) ->
  exists d w', enrich w p = (Ok d, w').
Proof.
  unfold cleaned_html, process_post. intros Hc.
  destruct (expand_engagement urlparse_netloc m w p) as [[rs fs] w2].
  destruct (classify p).
  - destruct (post_reblog p) as [rb |];
      destruct (Hc _ eq_refl) as [c ->]; cbn; eauto.
  - destruct (resolve_favorite clean_content m w2 p) as [[[c fav] | e] w3]; eauto.
  - destruct (post_reblog p); destruct (Hc _ eq_refl) as [c ->]; cbn; eauto.
Qed.

Lemma process_posts_total (w : W) (l : list raw_post) :
  (forall p html, In p l -> cleaned_html p = Some html ->
                  exists c, clean_content html = Ok c) ->
  exists ds w', enrich_all w l = (Ok ds, w').
Proof.
  revert w. induction l as [| p l IH]; intros w Hc; cbn; [eauto |].
  destruct (@process_post_total w p) as (d & w1 & ->).
  { intros html. apply Hc. left. reflexivity. }
  destruct (IH w1) as (ds & w2 & ->); [| eauto].
  intros q html Hq. apply Hc. right. exact Hq.
Qed.

(** A rate-limit signal: the handler reads [e.reset_in], which the
    exception does not have; the turn ends in [AttributeError], without a
    sleep. *)
Lemma posts_turn_rate_limited (aid : Z) (mc : option Z) (s : posts_state W)
    (msg : option advisory) (w1 : W) :
  monitor_rate_limit (client_quota m (posts_world s)) = Ok msg ->
  account_statuses m (posts_world s) aid (max_id_param (max_id s))
    = (RatelimitError, w1) ->
  turn_posts aid mc s
  = Abort AttributeError
      (PostsState (all_posts s) (max_id s) w1
         ((posts_trace s ++ advisory_events msg)
          ++ [EvRequest (max_id_param (max_id s))])).
Proof. intros Hm Hf. unfold posts_turn. rewrite Hm, Hf. reflexivity. Qed.

(** Any other failure of the fetch leaves the loop as an exception. *)
Lemma posts_turn_fetch_error (aid : Z) (mc : option Z) (s : posts_state W)
    (msg : option advisory) (e : exn) (w1 : W) :
  monitor_rate_limit (client_quota m (posts_world s)) = Ok msg ->
  account_statuses m (posts_world s) aid (max_id_param (max_id s))
    = (FetchError e, w1) ->
  turn_posts aid mc s
  = Abort e (PostsState (all_posts s) (max_id s) w1
               ((posts_trace s ++ advisory_events msg)
                ++ [EvRequest (max_id_param (max_id s))])).
Proof. intros Hm Hf. unfold posts_turn. rewrite Hm, Hf. reflexivity. Qed.

Lemma posts_turn_empty_page (aid : Z) (mc : option Z) (s : posts_state W)
    (msg : option advisory) (w1 : W) :
  monitor_rate_limit (client_quota m (posts_world s)) = Ok msg ->
  account_statuses m (posts_world s) aid (max_id_param (max_id s)) = (Page [], w1) ->
  turn_posts aid mc s
  = Break (PostsState (all_posts s) (max_id s) w1
             ((posts_trace s ++ advisory_events msg)
              ++ [EvRequest (max_id_param (max_id s))])).
Proof. intros Hm Hf. unfold posts_turn. rewrite Hm, Hf. reflexivity. Qed.

Lemma posts_turn_nothing_new (aid : Z) (mc : option Z) (s : posts_state W)
    (msg : option advisory) (batch : list raw_post) (w1 : W) :
  monitor_rate_limit (client_quota m (posts_world s)) = Ok msg ->
  account_statuses m (posts_world s) aid (max_id_param (max_id s)) = (Page batch, w1) ->
  batch <> [] ->
  new_posts_of batch (all_posts s) = [] ->
  turn_posts aid mc s
  = Break (PostsState (all_posts s) (Some (post_id (last_item batch dummy_post))) w1
             ((posts_trace s ++ advisory_events msg)
              ++ [EvRequest (max_id_param (max_id s))])).
Proof.
  intros Hm Hf Hne Hnew. unfold posts_turn. rewrite Hm, Hf.
  destruct batch as [| p rest]; [contradiction |]. rewrite Hnew. reflexivity.
Qed.

Lemma posts_turn_page (aid : Z) (mc : option Z) (s : posts_state W)
    (msg : option advisory) (batch : list raw_post) (w1 w2 : W)
    (ds : list post_dict) :
  monitor_rate_limit (client_quota m (posts_world s)) = Ok msg ->
  account_statuses m (posts_world s) aid (max_id_param (max_id s)) = (Page batch, w1) ->
  new_posts_of batch (all_posts s) <> [] ->
  enrich_all w1 (new_posts_of batch (all_posts s)) = (Ok ds, w2) ->
  max_count_reached mc (List.length (all_posts s ++ ds)) = false ->
  turn_posts aid mc s
  = Continue (PostsState (all_posts s ++ ds)
                (Some (post_id (last_item batch dummy_post))) w2
                (((posts_trace s ++ advisory_events msg)
                  ++ [EvRequest (max_id_param (max_id s))]) ++ [EvSleep (1 # 2)])).
Proof.
  intros Hm Hf Hnew He Hmc. unfold posts_turn. rewrite Hm, Hf.
  destruct batch as [| p rest]; [exfalso; apply Hnew; reflexivity |].
  destruct (new_posts_of (p :: rest) (all_posts s)) as [| n ns] eqn:N;
    [contradiction |].
  rewrite He, Hmc. reflexivity.
Qed.

(** The turn that continues after a page has taken the id of the page's
    last post as its cursor. *)
Lemma posts_turn_continue_page (aid : Z) (mc : option Z) (s s' : posts_state W)
    (batch : list raw_post) (w1 : W) :
  account_statuses m (posts_world s) aid (max_id_param (max_id s)) = (Page batch, w1) ->
  turn_posts aid mc s = Continue s' ->
  batch <> [] /\ max_id s' = Some (post_id (last_item batch dummy_post)).
Proof.
  intros Hf. unfold posts_turn. rewrite Hf.
  destruct (monitor_rate_limit _); [| discriminate].
  destruct batch as [| p rest]; [discriminate |].
  destruct (new_posts_of (p :: rest) (all_posts s)); [discriminate |].
  destruct (enrich_all w1 _) as [[ds | e] w2]; [| discriminate].
  destruct (max_count_reached _ _); [discriminate |].
  intros [= <-]. split; [discriminate | reflexivity].
Qed.

(** Every turn that passes the monitor requests the page below the cursor. *)
Lemma posts_turn_request (aid : Z) (mc : option Z) (s : posts_state W)
    (msg : option advisory) :
  monitor_rate_limit (client_quota m (posts_world s)) = Ok msg ->
  exists rest,
    posts_trace (turn_state (turn_posts aid mc s))
    = posts_trace s ++ advisory_events msg
      ++ EvRequest (max_id_param (max_id s)) :: rest.
Proof.
  intros Hm. unfold posts_turn. rewrite Hm.
  destruct (account_statuses m (posts_world s) aid _) as [[batch | | e] w1].
  - destruct batch as [| p rest].
    { exists []. cbn. rewrite <- app_assoc. reflexivity. }
    destruct (new_posts_of (p :: rest) (all_posts s)).
    { exists []. cbn. rewrite <- app_assoc. reflexivity. }
    destruct (enrich_all w1 _) as [[ds | e] w2].
    + destruct (max_count_reached _ _).
      * exists []. cbn. rewrite <- app_assoc. reflexivity.
      * exists [EvSleep (1 # 2)]. cbn. rewrite <- !app_assoc. reflexivity.
    + exists []. cbn. rewrite <- app_assoc. reflexivity.
  - exists []. cbn. rewrite <- app_assoc. reflexivity.
  - exists []. cbn. rewrite <- app_assoc. reflexivity.
Qed.

(** C7, amended. After a non-empty page, the cursor of the next request is
    the id of the last post of the page (when that id is not zero); it is
    the least id of the page when the page is newest first. *)
Theorem next_cursor_is_last_id (aid : Z) (mc : option Z) (s s' : posts_state W)
    (batch : list raw_post) (w1 : W) :
  account_statuses m (posts_world s) aid (max_id_param (max_id s)) = (Page batch, w1) ->
  turn_posts aid mc s = Continue s' ->
  let last_id := post_id (last_item batch dummy_post) in
  batch <> [] /\
  max_id s' = Some last_id /\
  (last_id <> 0%Z ->
   forall msg, monitor_rate_limit (client_quota m (posts_world s')) = Ok msg ->
   exists rest,
     posts_trace (turn_state (turn_posts aid mc s'))
     = posts_trace s' ++ advisory_events msg ++ EvRequest (Some last_id) :: rest) /\
  (newest_first (map post_id batch) -> min_id batch = Some last_id).
Proof.
  intros Hf Ht last_id.
  destruct (posts_turn_continue_page _ _ _ Hf Ht) as [Hne Hmax].
  split; [exact Hne |]. split; [exact Hmax |]. split.
  - intros Hnz msg Hm.
    destruct (posts_turn_request aid mc s' Hm) as [rest Hrest].
    exists rest. rewrite Hrest, Hmax. unfold max_id_param. fold last_id.
    destruct (Z.eqb_spec last_id 0); [contradiction | reflexivity].
  - intros Hnf. apply min_id_newest_first; assumption.
Qed.

End CollectorProperties.

(** C7, as the claim words it, fails: on a page that is not newest first
    the next request carries the id of the last post, 5, while the least
    id of the page is 1. *)
Lemma unordered_page_cursor :
  exists r,
    get_all_posts plain_content fixed_netloc demo_client 5
      (Script [Page unordered_page] []) 1 None = Some r /\
    trace r = [EvRequest None; EvSleep (1 # 2); EvRequest (Some 5%Z)] /\
    min_id unordered_page = Some 1%Z.
Proof. eexists. split; [reflexivity |]. split; reflexivity. Qed.

Lemma next_cursor_is_last_id_witness :
  let page := [text_post 3; text_post 2] in
  let s := PostsState [] None (Script [Page page] []) [] in
  let s' := turn_state (posts_turn plain_content fixed_netloc demo_client 1 None s) in
  max_id s' = Some 2%Z /\ min_id page = Some 2%Z.
Proof.
  intros page s s'.
  pose proof (@next_cursor_is_last_id plain_content fixed_netloc script demo_client
                1%Z None s s' page idle eq_refl eq_refl) as (_ & H1 & _ & H2).
  split; [exact H1 |]. apply H2. cbn.
  split; [| split; [| exact I]]; intros y Hy; cbn in Hy.
  - destruct Hy as [<- | []]. reflexivity.
  - destruct Hy.
Defined.

(** ** PaginatedCollector: failures and rate limits *)

Lemma without_advisories_app {P} (a b : list (event P)) :
  without_advisories (a ++ b) = without_advisories a ++ without_advisories b.
Proof. apply filter_app. Qed.

Lemma without_advisories_advisory {P} (msg : option advisory) :
  without_advisories (@advisory_events P msg) = [].
Proof. destruct msg; reflexivity. Qed.

(** Whatever the handler of the followers loop does, it keeps the items,
    the parameters, the last response and the service state; it adds a
    sleep to the trace exactly when it lets the loop continue. *)
Lemma followers_except_state {W} (m : mastodon W) (s : followers_state W) :
  let s' := turn_state (followers_except m s) in
  items s' = items s /\ request_params s' = request_params s /\
  last_response s' = last_response s /\ followers_world s' = followers_world s /\
  ((exists seconds,
      followers_except m s = Continue s' /\
      followers_trace s' = followers_trace s ++ [EvSleep seconds]) \/
   ((forall s'', followers_except m s <> Continue s'') /\
    followers_trace s' = followers_trace s)).
Proof.
  unfold followers_except.
  destruct (last_response s) as [r |] eqn:R.
  - destruct (status_code r =? 429)%Z.
    + destruct (retry_after_seconds r) as [d | e].
      * destruct (time_sleep _ d) as [seconds | e]; cbn.
        -- do 4 (split; [first [reflexivity | exact R] |]). left. exists seconds. split; reflexivity.
        -- do 4 (split; [first [reflexivity | exact R] |]). right. split; [discriminate | reflexivity].
      * cbn. do 4 (split; [first [reflexivity | exact R] |]). right. split; [discriminate | reflexivity].
    + cbn. do 4 (split; [first [reflexivity | exact R] |]). right. split; [discriminate | reflexivity].
  - cbn. do 4 (split; [first [reflexivity | exact R] |]). right. split; [discriminate | reflexivity].
Qed.

Section FailureProperties.

Variable clean_content : string -> result content.
Variable urlparse_netloc : string -> result string.
Variable W : Type.
Variable m : mastodon W.

Local Abbreviation enrich_all := (process_posts clean_content urlparse_netloc m).
Local Abbreviation turn_posts := (posts_turn clean_content urlparse_netloc m).
Local Abbreviation loop_posts := (posts_loop clean_content urlparse_netloc m).
Local Abbreviation collect_posts := (get_all_posts clean_content urlparse_netloc m).

(** The posts loop has no handler for a failure that is not a rate limit:
    the exception leaves [get_all_posts], and the posts collected so far
    are not returned. *)
Lemma posts_loop_fetch_error (fuel : nat) (aid : Z) (mc : option Z)
    (s : posts_state W) (msg : option advisory) (e : exn) (w1 : W) :
  monitor_rate_limit (client_quota m (posts_world s)) = Ok msg ->
  account_statuses m (posts_world s) aid (max_id_param (max_id s))
    = (FetchError e, w1) ->
  exists tr, loop_posts (S fuel) aid mc s = Some (Run (Raise e) w1 tr).
Proof.
  intros Hm Hf. cbn [posts_loop].
  rewrite (posts_turn_fetch_error _ _ _ _ _ _ Hm Hf). eexists. reflexivity.
Qed.

(** The followers loop: a transport failure after some response that was
    not a 429 ends the loop with the items collected so far. *)
Lemma followers_loop_transport_failure (fuel : nat) (url : string) (total : Z)
    (s : followers_state W) (msg : option advisory) (e : exn) (w1 : W)
    (r : response) :
  monitor_rate_limit (client_quota m (followers_world s)) = Ok msg ->
  requests_get m (followers_world s) url (request_params s) = (GetRaised e, w1) ->
  last_response s = Some r ->
  status_code r <> 429%Z ->
  exists tr, followers_loop m (S fuel) url total s = Some (Run (Ok (items s)) w1 tr).
Proof.
  intros Hm Hg Hr Hc. cbn [followers_loop]. unfold followers_turn.
  rewrite Hm, Hg. unfold followers_except. cbn. rewrite Hr.
  destruct (Z.eqb_spec (status_code r) 429); [contradiction |].
  eexists. reflexivity.
Qed.

(** An error status other than 429 ends it the same way. *)
Lemma followers_loop_http_error (fuel : nat) (url : string) (total : Z)
    (s : followers_state W) (msg : option advisory) (w1 : W) (r : response) :
  monitor_rate_limit (client_quota m (followers_world s)) = Ok msg ->
  requests_get m (followers_world s) url (request_params s) = (GetResponse r, w1) ->
  is_error_status r = true ->
  status_code r <> 429%Z ->
  exists tr, followers_loop m (S fuel) url total s = Some (Run (Ok (items s)) w1 tr).
Proof.
  intros Hm Hg He Hc. cbn [followers_loop]. unfold followers_turn.
  rewrite Hm, Hg, He. unfold followers_except. cbn.
  destruct (Z.eqb_spec (status_code r) 429); [contradiction |].
  eexists. reflexivity.
Qed.

(** A transport failure of the very first request finds [response]
    unbound in the handler. *)
Lemma followers_loop_first_request_failure (fuel : nat) (url : string)
    (total : Z) (s : followers_state W) (msg : option advisory) (e : exn)
    (w1 : W) :
  monitor_rate_limit (client_quota m (followers_world s)) = Ok msg ->
  requests_get m (followers_world s) url (request_params s) = (GetRaised e, w1) ->
  last_response s = None ->
  exists tr,
    followers_loop m (S fuel) url total s = Some (Run (Raise UnboundLocalError) w1 tr).
Proof.
  intros Hm Hg Hr. cbn [followers_loop]. unfold followers_turn.
  rewrite Hm, Hg. unfold followers_except. cbn. rewrite Hr.
  eexists. reflexivity.
Qed.

Lemma time_sleep_ok (monotonic d : Z) :
  (0 <= d <= sleep_max)%Z -> (monotonic + d * 10 ^ 9 < 2 ^ 63)%Z ->
  time_sleep monotonic d = Ok (inject_Z d).
Proof.
  intros [H0 H1] H2. unfold time_sleep.
  destruct (Z.ltb_spec d (- sleep_max)) as [H | _]; [unfold sleep_max in *; lia |].
  destruct (Z.ltb_spec sleep_max d) as [H | _]; [lia |].
  destruct (Z.ltb_spec d 0) as [H | _]; [lia |].
  destruct (Z.leb_spec (2 ^ 63) (monotonic + d * 10 ^ 9)) as [H | _];
    [lia | reflexivity].
Qed.

Lemma time_sleep_negative (monotonic d : Z) :
  (- sleep_max <= d < 0)%Z -> time_sleep monotonic d = Raise ValueError.
Proof.
  intros [H0 H1]. unfold time_sleep.
  destruct (Z.ltb_spec d (- sleep_max)) as [H | _]; [lia |].
  destruct (Z.ltb_spec sleep_max d) as [H | _]; [unfold sleep_max in *; lia |].
  destruct (Z.ltb_spec d 0) as [H | H]; [reflexivity | lia].
Qed.

(** The handler on a 429: what it does is decided by the header. *)
Lemma followers_except_429 (s : followers_state W) (r : response) :
  last_response s = Some r -> status_code r = 429%Z ->
  followers_except m s
  = match retry_after_seconds r with
    | Raise e => Abort e s
    | Ok d =>
        match time_sleep (monotonic_ns m (followers_world s)) d with
        | Raise e => Abort e s
        | Ok seconds =>
            Continue (FollowersState (items s) (request_params s) (Some r)
                        (followers_world s) (followers_trace s ++ [EvSleep seconds]))
        end
    end.
Proof.
  intros Hr Hc. unfold followers_except. rewrite Hr, Hc. reflexivity.
Qed.

(** A 429 response whose [Retry-After] is absent or an integer that can be
    slept: the turn sleeps for that many seconds (60 without the header)
    and keeps the items and the request parameters. *)
Lemma followers_turn_rate_limited (url : string) (total : Z)
    (s : followers_state W) (msg : option advisory) (w1 : W) (r : response)
    (d : Z) :
  monitor_rate_limit (client_quota m (followers_world s)) = Ok msg ->
  requests_get m (followers_world s) url (request_params s) = (GetResponse r, w1) ->
  status_code r = 429%Z ->
  retry_after_seconds r = Ok d ->
  (0 <= d <= sleep_max)%Z ->
  (monotonic_ns m w1 + d * 10 ^ 9 < 2 ^ 63)%Z ->
  followers_turn m url total s
  = Continue (FollowersState (items s) (request_params s) (Some r) w1
                ((followers_trace s ++ advisory_events msg
                  ++ [EvRequest (request_params s)])
                 ++ [EvSleep (inject_Z d)])).
Proof.
  intros Hm Hg Hc Hd Hr Hclock. unfold followers_turn. rewrite Hm, Hg.
  unfold is_error_status, followers_except.
  cbn -[retry_after_seconds time_sleep]. rewrite Hc.
  cbn -[retry_after_seconds time_sleep]. rewrite Hd, (@time_sleep_ok _ d Hr Hclock).
  reflexivity.
Qed.

(** A 429 response whose [Retry-After] cannot be parsed or slept: what
    [int] or [time.sleep] raises leaves the loop. *)
Lemma followers_turn_retry_raises (url : string) (total : Z)
    (s : followers_state W) (msg : option advisory) (w1 : W) (r : response)
    (e : exn) :
  monitor_rate_limit (client_quota m (followers_world s)) = Ok msg ->
  requests_get m (followers_world s) url (request_params s) = (GetResponse r, w1) ->
  status_code r = 429%Z ->
  (d <- retry_after_seconds r ;; time_sleep (monotonic_ns m w1) d) = Raise e ->
  followers_turn m url total s
  = Abort e (FollowersState (items s) (request_params s) (Some r) w1
               (followers_trace s ++ advisory_events msg
                ++ [EvRequest (request_params s)])).
Proof.
  intros Hm Hg Hc Hd. unfold followers_turn. rewrite Hm, Hg.
  unfold is_error_status, followers_except.
  cbn -[retry_after_seconds time_sleep]. rewrite Hc.
  cbn -[retry_after_seconds time_sleep].
  destruct (retry_after_seconds r) as [d | e']; cbn [bind] in Hd.
  - rewrite Hd. reflexivity.
  - injection Hd as ->. reflexivity.
Qed.

Lemma followers_turn_last_page (url : string) (total : Z)
    (s : followers_state W) (msg : option advisory) (w1 : W) (r : response) :
  monitor_rate_limit (client_quota m (followers_world s)) = Ok msg ->
  requests_get m (followers_world s) url (request_params s) = (GetResponse r, w1) ->
  is_error_status r = false ->
  new_items_of (json_body r) (items s) <> [] ->
  (forall next, link_next r <> Some (Some next)) ->
  followers_turn m url total s
  = Break (FollowersState (items s ++ new_items_of (json_body r) (items s))
             (request_params s) (Some r) w1
             (followers_trace s ++ advisory_events msg
              ++ [EvRequest (request_params s)])).
Proof.
  intros Hm Hg He Hn Hl. unfold followers_turn. rewrite Hm, Hg, He.
  destruct (json_body r) as [| b bs] eqn:B; [exfalso; apply Hn; reflexivity |].
  destruct (new_items_of (b :: bs) (items s)) as [| n ns] eqn:N; [contradiction |].
  destruct (link_next r) as [[next |] |] eqn:L; try reflexivity.
  exfalso. exact (Hl next eq_refl).
Qed.

(** C8. What the loops do on a rate-limit signal, from any state of the
    loop.

    The posts loop does not wait: its handler formats and sleeps
    [e.reset_in], an attribute [MastodonRatelimitError] does not have, so
    the first rate-limit signal leaves [get_all_posts] as an
    [AttributeError], right after the request and without a sleep; the
    posts collected so far are not returned.

    The followers loop waits and retries with the same items and the same
    parameters when the 429 response has no [Retry-After] (60 seconds) or
    one that [int] reads as an integer [d] with [0 <= d <= sleep_max] ([d]
    seconds), the delay ending before the monotonic clock does. A header
    [int] does not read, an HTTP date for one, leaves the function as a
    [ValueError], and so does a negative delay. *)
Theorem rate_limit_backoff (fuel : nat) :
  (forall aid mc (s : posts_state W) msg w1,
     monitor_rate_limit (client_quota m (posts_world s)) = Ok msg ->
     account_statuses m (posts_world s) aid (max_id_param (max_id s))
       = (RatelimitError, w1) ->
     loop_posts (S fuel) aid mc s
     = Some (Run (Raise AttributeError) w1
               ((posts_trace s ++ advisory_events msg)
                ++ [EvRequest (max_id_param (max_id s))]))) /\
  (forall url total (s : followers_state W) msg w1 r,
     monitor_rate_limit (client_quota m (followers_world s)) = Ok msg ->
     requests_get m (followers_world s) url (request_params s) = (GetResponse r, w1) ->
     status_code r = 429%Z ->
     let tr := followers_trace s ++ advisory_events msg
               ++ [EvRequest (request_params s)] in
     (forall d,
        retry_after r = None /\ d = 60%Z \/
        (exists header, retry_after r = Some header /\ python_int header = Some d) ->
        (0 <= d <= sleep_max)%Z ->
        (monotonic_ns m w1 + d * 10 ^ 9 < 2 ^ 63)%Z ->
        followers_loop m (S fuel) url total s
        = followers_loop m fuel url total
            (FollowersState (items s) (request_params s) (Some r) w1
               (tr ++ [EvSleep (inject_Z d)]))) /\
     (forall header,
        retry_after r = Some header -> python_int header = None ->
        followers_loop m (S fuel) url total s = Some (Run (Raise ValueError) w1 tr)) /\
     (forall header d,
        retry_after r = Some header -> python_int header = Some d ->
        (- sleep_max <= d < 0)%Z ->
        followers_loop m (S fuel) url total s = Some (Run (Raise ValueError) w1 tr))).
Proof.
  split.
  - intros aid mc s msg w1 Hm Hf. cbn [posts_loop].
    rewrite (@posts_turn_rate_limited clean_content urlparse_netloc W m aid mc s
               msg w1 Hm Hf).
    reflexivity.
  - intros url total s msg w1 r Hm Hg Hc tr. split; [| split].
    + intros d Hd Hr Hclock. cbn [followers_loop].
      rewrite (@followers_turn_rate_limited url total s msg w1 r d Hm Hg Hc);
        [reflexivity | | exact Hr | exact Hclock].
      unfold retry_after_seconds.
      destruct Hd as [[-> ->] | (h & -> & ->)]; reflexivity.
    + intros h Hh Hp. cbn [followers_loop].
      rewrite (@followers_turn_retry_raises url total s msg w1 r ValueError Hm Hg Hc);
        [reflexivity |].
      unfold retry_after_seconds. rewrite Hh, Hp. reflexivity.
    + intros h d Hh Hp Hd. cbn [followers_loop].
      rewrite (@followers_turn_retry_raises url total s msg w1 r ValueError Hm Hg Hc);
        [reflexivity |].
      unfold retry_after_seconds. rewrite Hh, Hp. cbn [bind].
      apply time_sleep_negative. exact Hd.
Qed.

End FailureProperties.

Lemma rate_limit_backoff_witness :
  let carol := Follower 11 "carol" "Carol" "https://example.social/@carol" in
  get_all_posts plain_content fixed_netloc demo_client 3 limited_then_page 1 None
  = Some (Run (Raise AttributeError)
            (Script [Page [text_post 3; text_post 2]] (gets_script limited_then_page))
            [EvRequest None]) /\
  get_followers_or_following_direct demo_client 2 limited_then_page 1 "followers"
  = Some (Run (Ok [carol]) (Script (posts_script limited_then_page) [])
            [EvRequest initial_params; EvSleep 30; EvRequest initial_params]) /\
  get_followers_or_following_direct demo_client 2 dated_retry 1 "followers"
  = Some (Run (Raise ValueError) (Script [] (tl (gets_script dated_retry)))
            [EvRequest initial_params]).
Proof.
  intros carol.
  pose proof (@rate_limit_backoff plain_content fixed_netloc script demo_client)
    as H.
  split; [| split].
  - apply (proj1 (H 2%nat) 1%Z None (PostsState [] None limited_then_page []) None
             (Script [Page [text_post 3; text_post 2]] (gets_script limited_then_page)));
      reflexivity.
  - destruct (proj2 (H 1%nat) (endpoint_url demo_client 1 "followers") 3%Z
                (FollowersState [] initial_params None limited_then_page []) None
                (Script (posts_script limited_then_page) (tl (gets_script limited_then_page)))
                (Response 429 (Some "30") None []) eq_refl eq_refl eq_refl)
      as (Hwait & _ & _).
    unfold get_followers_or_following_direct. cbn [account_info demo_client scripted_client].
    cbv zeta in Hwait.
    etransitivity.
    + apply (Hwait 30%Z).
      * right. exists "30". split; reflexivity.
      * unfold sleep_max. lia.
      * vm_compute. reflexivity.
    + reflexivity.
  - destruct (proj2 (H 1%nat) (endpoint_url demo_client 1 "followers") 3%Z
                (FollowersState [] initial_params None dated_retry []) None
                (Script [] (tl (gets_script dated_retry)))
                (Response 429 (Some "Wed, 21 Oct 2015 07:28:00 GMT") None [])
                eq_refl eq_refl eq_refl)
      as (_ & Hdate & _).
    apply (Hdate "Wed, 21 Oct 2015 07:28:00 GMT"); reflexivity.
Defined.

(** C3 on the posts loop. One page with post 3 has been collected; the
    second request fails with a network error that is not a rate limit.
    [get_all_posts] raises that error: the collected post is not returned. *)
Theorem posts_failure_discards_progress :
  let start := PostsState [] None page_then_failure [] in
  let s1 := turn_state (posts_turn plain_content fixed_netloc demo_client 1 None start) in
  posts_turn plain_content fixed_netloc demo_client 1 None start = Continue s1 /\
  map pd_id (all_posts s1) = [3%Z] /\
  exists r,
    get_all_posts plain_content fixed_netloc demo_client 5 page_then_failure 1 None
      = Some r /\
    returned r = Raise MastodonNetworkError.
Proof.
  cbv zeta. split; [reflexivity |]. split; [reflexivity |].
  eexists. split; reflexivity.
Qed.

(** The same failure in the followers loop, after a first page: the loop
    ends and the page is returned. On the very first request the handler
    itself fails. *)
Lemma followers_failure_keeps_progress :
  let carol := Follower 11 "carol" "Carol" "https://example.social/@carol" in
  let first_page := Response 200 None (Some (Some [("max_id", "11")])) [carol] in
  (exists r,
     get_followers_or_following_direct demo_client 5
       (Script [] [GetResponse first_page; GetRaised ConnectionError]) 1 "followers"
       = Some r /\
     returned r = Ok [carol]) /\
  (exists r,
     get_followers_or_following_direct demo_client 5
       (Script [] [GetRaised ConnectionError]) 1 "followers" = Some r /\
     returned r = Raise UnboundLocalError).
Proof. cbv zeta. split; eexists; split; reflexivity. Qed.

(** ** IncrementalJournal *)

Lemma succ_mod_zero (B k r : nat) :
  (0 < B)%nat -> (r < B)%nat ->
  ((B * k + r + 1) mod B = 0 <-> r = B - 1)%nat.
Proof.
  intros HB Hr. split.
  - intros H. destruct (Nat.eq_dec r (B - 1)) as [E | E]; [exact E | exfalso].
    assert (Hu : ((B * k + r + 1) mod B = r + 1)%nat).
    { symmetry. apply Nat.mod_unique with (q := k); lia. }
    lia.
  - intros ->. symmetry. apply Nat.mod_unique with (q := S k); lia.
Qed.

Lemma firstn_app_left {A} (n : nat) (l1 l2 : list A) :
  (n <= List.length l1)%nat -> firstn n (l1 ++ l2) = firstn n l1.
Proof.
  intros H. rewrite firstn_app.
  replace (n - List.length l1)%nat with 0%nat by lia.
  cbn. apply app_nil_r.
Qed.

Lemma last_n_all {A} (n : nat) (l : list A) :
  (List.length l <= n)%nat -> last_n n l = l.
Proof.
  intros H. unfold last_n.
  replace (List.length l - n)%nat with 0%nat by lia. reflexivity.
Qed.

(** A flush that is not the last one leaves whole batches on disk. *)
Lemma flush_posts_middle (B n k r : nat) (sl : list persisted_post)
    (post : persisted_post) :
  (0 < B)%nat -> (r < B)%nat ->
  List.length sl = (B * k + r)%nat ->
  (B * k + r <> n - 1)%nat ->
  exists k' r',
    (B * k + r + 1 = B * k' + r')%nat /\ (r' < B)%nat /\
    flush_posts B n (B * k + r) (sl ++ [post]) (flushed B k sl)
    = flushed B k' (sl ++ [post]).
Proof.
  intros HB Hr Hlen Hlast. unfold flush_posts.
  destruct (Nat.eqb_spec (B * k + r) (n - 1)) as [E | _]; [contradiction |].
  rewrite orb_false_r.
  assert (Hlen' : List.length (sl ++ [post]) = (B * k + r + 1)%nat)
    by (rewrite length_app; cbn; lia).
  destruct (Nat.eqb_spec ((B * k + r + 1) mod B) 0) as [E | E].
  - apply succ_mod_zero in E; [| assumption | assumption].
    exists (S k), 0%nat. split; [nia |]. split; [lia |].
    assert (Hfull : List.length (sl ++ [post]) = (B * S k)%nat) by nia.
    unfold flushed at 2.
    rewrite <- Hfull, firstn_all.
    destruct (Nat.eqb_spec (B * k + r) 0) as [Z0 | NZ]; [reflexivity |].
    destruct k as [| k0]; [reflexivity |]. cbn [flushed]. f_equal.
    unfold last_n. rewrite Hfull.
    replace (B * S (S k0) - B)%nat with (B * S k0)%nat by nia.
    rewrite <- (@firstn_app_left _ (B * S k0)%nat sl [post]) by nia.
    apply firstn_skipn.
  - exists k, (r + 1)%nat.
    assert (r <> B - 1)%nat.
    { intros Hr'. apply E. apply succ_mod_zero; assumption. }
    split; [lia |]. split; [lia |].
    destruct k as [| k0]; [reflexivity |]. cbn [flushed]. f_equal.
    symmetry. apply firstn_app_left. nia.
Qed.

(** The last flush: the whole list when nothing is on disk yet, else the
    last [B] records appended to what is on disk. *)
Lemma flush_posts_last (B n k r : nat) (sl : list persisted_post)
    (post : persisted_post) :
  (0 < B)%nat ->
  List.length sl = (B * k + r)%nat ->
  (B * k + r = n - 1)%nat ->
  flush_posts B n (B * k + r) (sl ++ [post]) (flushed B k sl)
  = Some (match k with
          | O => sl ++ [post]
          | S _ => firstn (B * k) (sl ++ [post]) ++ last_n B (sl ++ [post])
          end).
Proof.
  intros HB Hlen Hlast. unfold flush_posts.
  rewrite (proj2 (Nat.eqb_eq _ _) Hlast), orb_true_r.
  destruct k as [| k0].
  - cbn [flushed]. destruct (_ =? 0)%nat; reflexivity.
  - destruct (Nat.eqb_spec (B * S k0 + r) 0) as [Z0 | NZ].
    + exfalso. nia.
    + cbn [flushed]. rewrite firstn_app_left by nia. reflexivity.
Qed.

Section JournalProperties.

Variable W : Type.
Variable m : mastodon W.
Variable output_dir : string.
Variable download_media_files : bool.

Local Abbreviation journal := (journal_loop m output_dir download_media_files).

(** The state of the posts file when the loop ends, for any batch size. *)
Lemma journal_loop_file (B n : nat) (HB : (0 < B)%nat)
    (statuses : list post_dict) :
  forall (k r : nat) (s : journal_state W),
    statuses <> [] ->
    (n = B * k + r + List.length statuses)%nat ->
    (r < B)%nat ->
    List.length (status_list s) = (B * k + r)%nat ->
    file s = flushed B k (status_list s) ->
    let final := journal B n (B * k + r) statuses s in
    exists k' r',
      (n - 1 = B * k' + r')%nat /\ (r' < B)%nat /\
      List.length (status_list final) = n /\
      file final = Some (match k' with
                         | O => status_list final
                         | S _ => firstn (B * k') (status_list final)
                                  ++ last_n B (status_list final)
                         end).
Proof.
  induction statuses as [| st rest IH]; intros k r s Hne Hn Hr Hlen Hfile;
    [contradiction |].
  cbn [journal_loop].
  destruct (reconstruct_post m output_dir download_media_files (journal_world s) st)
    as [[post count] w1].
  destruct rest as [| st' rest'].
  - cbn [journal_loop status_list file]. cbn [List.length] in Hn.
    exists k, r. split; [lia |]. split; [exact Hr |].
    split; [rewrite length_app; cbn; lia |].
    rewrite Hfile. apply flush_posts_last; [exact HB | exact Hlen | lia].
  - cbn [List.length] in Hn.
    destruct (@flush_posts_middle B n k r (status_list s) post HB Hr Hlen)
      as (k' & r' & Hdec & Hr' & Hflush); [lia |].
    replace (S (B * k + r))%nat with (B * k' + r')%nat by lia.
    apply IH.
    + discriminate.
    + cbn [List.length]. lia.
    + exact Hr'.
    + cbn [status_list]. rewrite length_app. cbn. lia.
    + cbn [file status_list]. rewrite Hfile. exact Hflush.
Qed.

(** The records produced are kept in order in [status_list]. *)
Lemma journal_loop_length (B n i : nat) (statuses : list post_dict)
    (s : journal_state W) :
  List.length (status_list (journal B n i statuses s))
  = (List.length (status_list s) + List.length statuses)%nat.
Proof.
  revert i s. induction statuses as [| st rest IH]; intros i s; cbn [journal_loop].
  - cbn. lia.
  - destruct (reconstruct_post m output_dir download_media_files (journal_world s) st)
      as [[post count] w1].
    rewrite IH. cbn [status_list List.length]. rewrite length_app. cbn. lia.
Qed.

(** When the number of records is at most the batch size or a multiple of
    it, the posts file ends up holding exactly the records produced, in
    order. *)
Lemma journal_complete (B : nat) (statuses : list post_dict) (w : W) :
  (0 < B)%nat -> statuses <> [] ->
  (List.length statuses <= B \/ List.length statuses mod B = 0)%nat ->
  let final := journal B (List.length statuses) 0 statuses (JournalState [] 0 None w) in
  file final = Some (status_list final).
Proof.
  intros HB Hne Hn final.
  destruct (@journal_loop_file B (List.length statuses) HB statuses 0%nat 0%nat
              (JournalState [] 0 None w)) as (k & r & Hdec & Hr & Hlen & Hfile);
    try assumption; try (cbn; lia); try reflexivity.
  replace (B * 0 + 0)%nat with 0%nat in Hfile, Hlen by lia.
  fold final in Hfile, Hlen. rewrite Hfile. f_equal.
  destruct k as [| k0]; [reflexivity |].
  assert (Hpos : (0 < List.length statuses)%nat)
    by (destruct statuses; [contradiction | cbn; lia]).
  destruct Hn as [Hle | Hmod]; [nia |].
  assert (Hr' : (r = B - 1)%nat).
  { apply (@succ_mod_zero B (S k0) r); [assumption | assumption |].
    replace (B * S k0 + r + 1)%nat with (List.length statuses) by lia. exact Hmod. }
  unfold last_n. rewrite Hlen.
  replace (List.length statuses - B)%nat with (B * S k0)%nat by nia.
  apply firstn_skipn.
Qed.

(** Otherwise the last flush appends a full batch, not the remainder: the
    file holds more records than were produced. *)
Lemma journal_duplicates (B : nat) (statuses : list post_dict) (w : W) :
  (0 < B)%nat ->
  (B < List.length statuses)%nat -> (List.length statuses mod B <> 0)%nat ->
  let n := List.length statuses in
  let final := journal B n 0 statuses (JournalState [] 0 None w) in
  exists on_disk,
    file final = Some on_disk /\
    on_disk = firstn (n - n mod B) (status_list final) ++ last_n B (status_list final) /\
    List.length on_disk = (n - n mod B + B)%nat /\
    (n < List.length on_disk)%nat.
Proof.
  intros HB Hlt Hmod n final.
  assert (Hne : statuses <> []) by (destruct statuses; [cbn in Hlt; lia | discriminate]).
  destruct (@journal_loop_file B n HB statuses 0%nat 0%nat (JournalState [] 0 None w))
    as (k & r & Hdec & Hr & Hlen & Hfile);
    try assumption; try (cbn; lia); try reflexivity.
  replace (B * 0 + 0)%nat with 0%nat in Hfile, Hlen by lia.
  fold final in Hfile, Hlen.
  assert (Hr' : (r <> B - 1)%nat).
  { intros E. apply Hmod. fold n.
    replace n with (B * k + r + 1)%nat by lia. apply succ_mod_zero; assumption. }
  assert (Hm : (n mod B = r + 1)%nat).
  { symmetry. apply Nat.mod_unique with (q := k); lia. }
  destruct k as [| k0]; [exfalso; fold n in Hlt; nia |].
  eexists. split; [exact Hfile |].
  replace (n - n mod B)%nat with (B * S k0)%nat by lia.
  split; [reflexivity |].
  assert (Hlen2 : List.length (firstn (B * S k0) (status_list final)
                               ++ last_n B (status_list final))
                  = (B * S k0 + B)%nat).
  { rewrite length_app, length_firstn. unfold last_n. rewrite length_skipn. lia. }
  split; [exact Hlen2 | lia].
Qed.

End JournalProperties.

(** C1 at the source's batch size of 20, on 25 records and no posts file.
    The first flush writes records 1 to 20; the last one appends
    [status_list[-20:]], records 6 to 25, so the file ends with 40 records,
    records 6 to 20 twice, while 25 were produced. *)
Theorem journal_final_batch_overlaps :
  let final := persist_posts demo_client "out" true idle twenty_five None in
  map pp_id (status_list final) = map Z.of_nat (seq 1 25) /\
  option_map (map pp_id) (file final)
  = Some (map Z.of_nat (seq 1 20 ++ seq 6 20)) /\
  file final <> Some (status_list final).
Proof.
  cbv zeta. split; [vm_compute; reflexivity |].
  split; [vm_compute; reflexivity |].
  intros H. apply (f_equal (option_map (@List.length _))) in H.
  vm_compute in H. discriminate.
Qed.

(** ** PaginatedCollector: completeness over a paged source *)

Lemma in_firstn {A} (n : nat) (l : list A) (x : A) : In x (firstn n l) -> In x l.
Proof.
  intros H. rewrite <- (firstn_skipn n l). apply in_or_app. left. exact H.
Qed.

Lemma nodup_app_disjoint {A} (l1 l2 : list A) (x : A) :
  NoDup (l1 ++ l2) -> In x l1 -> In x l2 -> False.
Proof.
  induction l1 as [| a l1 IH]; intros Hnd H1 H2; [destruct H1 |].
  cbn in Hnd. inversion Hnd as [| ? ? Hnot Hnd']; subst.
  destruct H1 as [-> | H1].
  - apply Hnot. apply in_or_app. right. exact H2.
  - exact (IH Hnd' H1 H2).
Qed.

Lemma last_app_nonempty {A} (l1 l2 : list A) (d : A) :
  l2 <> [] -> last (l1 ++ l2) d = last l2 d.
Proof.
  intros Hne. induction l1 as [| a l1 IH]; [reflexivity |].
  change ((a :: l1) ++ l2) with (a :: (l1 ++ l2)).
  assert (Hne' : l1 ++ l2 <> []) by (destruct l1; [exact Hne | discriminate]).
  destruct (l1 ++ l2) as [| b l]; [contradiction | exact IH].
Qed.

Lemma firstn_nonempty {A} (n : nat) (l : list A) :
  (0 < n)%nat -> l <> [] -> firstn n l <> [].
Proof. destruct n, l; cbn; intros; try lia; congruence. Qed.

Lemma length_skipn_lt {A} (n : nat) (l : list A) :
  (0 < n)%nat -> l <> [] -> (List.length (skipn n l) < List.length l)%nat.
Proof.
  intros Hn Hl. rewrite length_skipn.
  destruct l; [contradiction | cbn [List.length]; lia].
Qed.

(** With distinct ids, the cursor finds its place in the timeline. *)
Lemma after_id_app (done rest : list raw_post) (x : raw_post) :
  NoDup (map post_id (done ++ x :: rest)) ->
  after_id (post_id x) (done ++ x :: rest) = rest.
Proof.
  induction done as [| p done IH]; intros Hnd; cbn.
  - rewrite Z.eqb_refl. reflexivity.
  - cbn in Hnd. inversion Hnd as [| ? ? Hnot Hnd']; subst.
    destruct (Z.eqb_spec (post_id p) (post_id x)) as [E | _].
    + exfalso. apply Hnot. rewrite E, map_app. apply in_or_app. right. left. reflexivity.
    + apply IH. exact Hnd'.
Qed.

Section PaginationProperties.

Variable clean_content : string -> result content.
Variable urlparse_netloc : string -> result string.
Variable W : Type.
Variable m : mastodon W.

Local Abbreviation enrich_all := (process_posts clean_content urlparse_netloc m).
Local Abbreviation turn_posts := (posts_turn clean_content urlparse_netloc m).
Local Abbreviation loop_posts := (posts_loop clean_content urlparse_netloc m).
Local Abbreviation collect_posts := (get_all_posts clean_content urlparse_netloc m).

Variable P : nat.
Hypothesis P_positive : (0 < P)%nat.
Hypothesis monitor_passes :
  forall w, exists msg, monitor_rate_limit (client_quota m w) = Ok msg.

Section Posts.

Variable aid : Z.
Variable timeline : list raw_post.
Hypothesis clean_total :
  forall p html, In p timeline -> cleaned_html p = Some html ->
                 exists c, clean_content html = Ok c.
Hypothesis ids_distinct : NoDup (map post_id timeline).
Hypothesis ids_nonzero : ~ In 0%Z (map post_id timeline).
Hypothesis source_paged :
  forall w cursor, exists batch w',
    account_statuses m w aid cursor = (Page batch, w') /\
    serves_posts P timeline cursor batch.

Lemma cursor_after_snoc (done : list raw_post) (d : raw_post) :
  cursor_after (done ++ [d]) = Some (post_id d).
Proof.
  unfold cursor_after, last_item.
  destruct (done ++ [d]) eqn:E; [destruct done; discriminate |].
  rewrite <- E, last_last. reflexivity.
Qed.

Lemma remaining_after_cursor (done rest : list raw_post) :
  timeline = done ++ rest ->
  remaining_after timeline (max_id_param (cursor_after done)) = rest.
Proof.
  intros Ht. destruct done as [| d0 done' _] using rev_ind; [exact Ht |].
  rewrite cursor_after_snoc. unfold max_id_param.
  destruct (Z.eqb_spec (post_id d0) 0) as [Z0 | _].
  - exfalso. apply ids_nonzero. rewrite Ht, <- Z0, !map_app.
    apply in_or_app. left. apply in_or_app. right. left. reflexivity.
  - cbn [remaining_after]. rewrite Ht, <- app_assoc. cbn [app].
    apply after_id_app. rewrite Ht, <- app_assoc in ids_distinct. exact ids_distinct.
Qed.

Lemma posts_loop_paged (fuel : nat) :
  forall (done rest : list raw_post) (s : posts_state W),
    timeline = done ++ rest ->
    map pd_id (all_posts s) = map post_id done ->
    max_id s = cursor_after done ->
    (List.length rest < fuel)%nat ->
    exists ds w' tr,
      loop_posts fuel aid None s = Some (Run (Ok ds) w' tr) /\
      map pd_id ds = map post_id timeline.
Proof.
  induction fuel as [| fuel IH]; intros done rest s Ht Hids Hcur Hfuel; [lia |].
  destruct (monitor_passes (posts_world s)) as [msg Hm].
  destruct (source_paged (posts_world s) (max_id_param (max_id s)))
    as (batch & w1 & Hf & Hserve).
  unfold serves_posts in Hserve.
  rewrite Hcur, (remaining_after_cursor _ _ Ht) in Hserve.
  cbn [posts_loop].
  destruct rest as [| r0 rs].
  - (* the timeline is exhausted: nothing in the answer is new *)
    rewrite app_nil_r in Ht. subst done.
    assert (Hold : new_posts_of batch (all_posts s) = []).
    { apply filter_all_false. intros p Hp. rewrite Hids.
      apply Hserve in Hp. apply id_in_spec in Hp. rewrite Hp. reflexivity. }
    destruct batch as [| b bs].
    + rewrite (@posts_turn_empty_page clean_content urlparse_netloc W m aid None s
                 msg w1 Hm Hf).
      do 3 eexists. split; [reflexivity | exact Hids].
    + rewrite (@posts_turn_nothing_new clean_content urlparse_netloc W m aid None s
                 msg (b :: bs) w1 Hm Hf); [| discriminate | exact Hold].
      do 3 eexists. split; [reflexivity | exact Hids].
  - (* a page of new posts *)
    assert (Hne : batch <> []) by (subst batch; apply firstn_nonempty; [exact P_positive | discriminate]).
    assert (Hnew : new_posts_of batch (all_posts s) = batch).
    { apply filter_all_true. intros p Hp. rewrite Hids.
      apply negb_true_iff, id_in_false. intros Hin.
      subst batch. apply in_firstn in Hp.
      apply (@nodup_app_disjoint _ (map post_id done) (map post_id (r0 :: rs)) (post_id p)).
      - rewrite <- map_app, <- Ht. exact ids_distinct.
      - exact Hin.
      - apply in_map. exact Hp. }
    destruct (@process_posts_total clean_content urlparse_netloc W m w1 batch)
      as (ds & w2 & He).
    { intros p html Hp. apply clean_total. rewrite Ht. apply in_or_app. right.
      subst batch. exact (in_firstn _ _ _ Hp). }
    rewrite (@posts_turn_page clean_content urlparse_netloc W m aid None s msg batch
               w1 w2 ds Hm Hf); try (rewrite Hnew; assumption); [| reflexivity].
    apply (IH (done ++ batch) (skipn P (r0 :: rs))).
    + rewrite Ht, <- app_assoc. f_equal. subst batch. symmetry. apply firstn_skipn.
    + cbn [all_posts]. rewrite !map_app, Hids. f_equal.
      eapply process_posts_ids. exact He.
    + cbn [max_id]. unfold cursor_after.
      destruct (done ++ batch) eqn:E; [destruct done, batch; try discriminate; contradiction |].
      rewrite <- E. unfold last_item. rewrite last_app_nonempty by exact Hne. reflexivity.
    + pose proof (@length_skipn_lt _ P (r0 :: rs) P_positive) as Hlt.
      specialize (Hlt ltac:(discriminate)). lia.
Qed.

(** Posts: whatever the page size, [get_all_posts] returns, and it returns
    one record per post of the timeline, in the order of the timeline. *)
Lemma get_all_posts_paged (fuel : nat) (w : W) :
  (forall w0, exists acct w1, account_info m w0 aid = (Ok acct, w1)) ->
  (List.length timeline < fuel)%nat ->
  exists ds w' tr,
    collect_posts fuel w aid None = Some (Run (Ok ds) w' tr) /\
    map pd_id ds = map post_id timeline.
Proof.
  intros Ha Hfuel. unfold get_all_posts.
  destruct (Ha w) as (acct & w1 & ->).
  apply (@posts_loop_paged fuel [] timeline); try reflexivity. exact Hfuel.
Qed.

End Posts.

Section Followers.

Variable url : string.
Variable expected_total : Z.
Variable everyone : list follower.
Variable rest_of : params -> list follower.
Hypothesis ids_distinct : NoDup (map fo_id everyone).
Hypothesis total_known : (Z.of_nat (List.length everyone) <= expected_total)%Z.
Hypothesis source_paged :
  forall w q, exists r w',
    requests_get m w url q = (GetResponse r, w') /\
    serves_followers P everyone rest_of q r.

Lemma followers_loop_paged (fuel : nat) :
  forall s : followers_state W,
    everyone = items s ++ rest_of (request_params s) ->
    (List.length (rest_of (request_params s)) < fuel)%nat ->
    exists w' tr,
      followers_loop m fuel url expected_total s = Some (Run (Ok everyone) w' tr).
Proof.
  induction fuel as [| fuel IH]; intros s Hall Hfuel; [lia |].
  destruct (monitor_passes (followers_world s)) as [msg Hm].
  destruct (source_paged (followers_world s) (request_params s))
    as (r & w1 & Hg & Herr & Hbody & Hnext & Hmore).
  cbn [followers_loop]. unfold followers_turn. rewrite Hm, Hg, Herr.
  destruct (rest_of (request_params s)) as [| r0 rs] eqn:R.
  - (* everything is collected: nothing in the answer is new *)
    rewrite app_nil_r in Hall.
    destruct (json_body r) as [| b bs] eqn:B.
    + do 2 eexists. cbn. rewrite <- Hall. reflexivity.
    + assert (Hold : new_items_of (b :: bs) (items s) = []).
      { apply filter_all_false. intros f Hf. rewrite <- Hall.
        apply Hbody in Hf. apply id_in_spec in Hf. rewrite Hf. reflexivity. }
      rewrite Hold. do 2 eexists. cbn. rewrite <- Hall. reflexivity.
  - (* a page of new items *)
    assert (Hne : json_body r <> [])
      by (rewrite Hbody; apply firstn_nonempty; [exact P_positive | discriminate]).
    assert (Hnew : new_items_of (json_body r) (items s) = json_body r).
    { apply filter_all_true. intros f Hf.
      apply negb_true_iff, id_in_false. intros Hin.
      rewrite Hbody in Hf. apply in_firstn in Hf.
      apply (@nodup_app_disjoint _ (map fo_id (items s)) (map fo_id (r0 :: rs)) (fo_id f)).
      - rewrite <- map_app, <- Hall. exact ids_distinct.
      - exact Hin.
      - apply in_map. exact Hf. }
    destruct (json_body r) as [| b bs] eqn:B; [contradiction |].
    rewrite Hnew.
    assert (Hlast : skipn P (r0 :: rs) = [] -> items s ++ b :: bs = everyone).
    { intros Hs. rewrite Hall, Hbody. f_equal.
      rewrite <- (firstn_skipn P (r0 :: rs)) at 2. rewrite Hs, app_nil_r. reflexivity. }
    destruct (link_next r) as [[next |] |] eqn:L.
    + destruct (Z.leb_spec expected_total (Z.of_nat (List.length (items s ++ b :: bs))))
        as [Hreach | Hnot].
      * do 2 eexists. cbn. rewrite Hlast; [reflexivity |].
        apply length_zero_iff_nil. rewrite length_skipn.
        assert (Hl : (List.length (items s ++ b :: bs) <= List.length everyone)%nat).
        { rewrite Hall, Hbody, !length_app, length_firstn. lia. }
        assert (Hl2 : List.length (items s ++ b :: bs) = List.length everyone) by lia.
        rewrite Hall, Hbody, !length_app, length_firstn in Hl2. lia.
      * apply IH; cbn [items request_params].
        -- rewrite (Hnext next eq_refl), Hall, Hbody, <- app_assoc. f_equal.
           symmetry. apply firstn_skipn.
        -- rewrite (Hnext next eq_refl).
           pose proof (@length_skipn_lt _ P (r0 :: rs) P_positive) as Hlt.
           specialize (Hlt ltac:(discriminate)). lia.
    + do 2 eexists. cbn. rewrite Hlast; [reflexivity |].
      destruct (skipn P (r0 :: rs)) eqn:S; [reflexivity |].
      destruct Hmore as [next Hx]; [discriminate | discriminate].
    + do 2 eexists. cbn. rewrite Hlast; [reflexivity |].
      destruct (skipn P (r0 :: rs)) eqn:S; [reflexivity |].
      destruct Hmore as [next Hx]; [discriminate | discriminate].
Qed.

End Followers.

(** Followers and following: whatever the page size,
    [get_followers_or_following_direct] returns, and it returns the items
    of the source, each once, in order. *)
Lemma get_followers_paged (fuel : nat) (w : W) (aid : Z) (type_list : string)
    (everyone : list follower) (rest_of : params -> list follower) :
  NoDup (map fo_id everyone) ->
  rest_of initial_params = everyone ->
  (forall w0, exists acct w1,
     account_info m w0 aid = (Ok acct, w1) /\
     (Z.of_nat (List.length everyone) <= account_followers_count acct)%Z /\
     (Z.of_nat (List.length everyone) <= account_following_count acct)%Z) ->
  (forall w0 q, exists r w1,
     requests_get m w0 (endpoint_url m aid type_list) q = (GetResponse r, w1) /\
     serves_followers P everyone rest_of q r) ->
  (List.length everyone < fuel)%nat ->
  exists w' tr,
    get_followers_or_following_direct m fuel w aid type_list
    = Some (Run (Ok everyone) w' tr).
Proof.
  intros Hnd Hinit Ha Hsrc Hfuel. unfold get_followers_or_following_direct.
  destruct (Ha w) as (acct & w1 & -> & Hfo & Hfg).
  apply (@followers_loop_paged (endpoint_url m aid type_list) _ everyone rest_of);
    try assumption.
  - destruct (type_list =? "followers"); assumption.
  - cbn [items request_params]. rewrite Hinit. reflexivity.
  - cbn [request_params]. rewrite Hinit. exact Hfuel.
Qed.

End PaginationProperties.

(** ** PaginatedCollector: no id is collected twice *)

Lemma nodup_map_filter {A B} (f : A -> B) (g : A -> bool) (l : list A) :
  NoDup (map f l) -> NoDup (map f (filter g l)).
Proof.
  induction l as [| a l IH]; intros H; cbn; [constructor |].
  cbn in H. inversion H as [| ? ? Hnot Hnd]; subst.
  destruct (g a); [| exact (IH Hnd)].
  cbn. constructor; [| exact (IH Hnd)].
  intros Hin. apply Hnot. apply in_map_iff in Hin. destruct Hin as (x & Hx & Hf).
  apply filter_In in Hf. destruct Hf as [Hf _].
  rewrite <- Hx. apply in_map. exact Hf.
Qed.

Lemma nodup_firstn {A} (n : nat) (l : list A) : NoDup l -> NoDup (firstn n l).
Proof.
  intros H. rewrite <- (firstn_skipn n l) in H.
  exact (NoDup_app_remove_r _ _ H).
Qed.

Lemma nodup_slice_to {A B} (f : A -> B) (n : Z) (l : list A) :
  NoDup (map f l) -> NoDup (map f (slice_to n l)).
Proof.
  intros H. unfold slice_to.
  destruct (0 <=? n)%Z; rewrite <- firstn_map; apply nodup_firstn; exact H.
Qed.

(** A post kept by the filter has an id that is not yet collected. *)
Lemma new_posts_of_fresh (batch : list raw_post) (known : list post_dict)
    (p : raw_post) :
  In p (new_posts_of batch known) -> ~ In (post_id p) (map pd_id known).
Proof.
  unfold new_posts_of. intros H. apply filter_In in H. destruct H as [_ H].
  apply negb_true_iff in H. apply id_in_false. exact H.
Qed.

Section DedupProperties.

Variable clean_content : string -> result content.
Variable urlparse_netloc : string -> result string.
Variable W : Type.
Variable m : mastodon W.

Local Abbreviation enrich_all := (process_posts clean_content urlparse_netloc m).
Local Abbreviation turn_posts := (posts_turn clean_content urlparse_netloc m).
Local Abbreviation loop_posts := (posts_loop clean_content urlparse_netloc m).

Variable aid : Z.
Variable mc : option Z.
Hypothesis pages_distinct :
  forall w cursor batch w1,
    account_statuses m w aid cursor = (Page batch, w1) -> NoDup (map post_id batch).

(** Whatever the source does, a turn keeps the collected ids distinct. *)
Lemma posts_turn_ids_distinct (s : posts_state W) :
  NoDup (map pd_id (all_posts s)) ->
  NoDup (map pd_id (all_posts (turn_state (turn_posts aid mc s)))).
Proof.
  intros Hnd. unfold posts_turn.
  destruct (monitor_rate_limit _) as [msg | e]; [| exact Hnd].
  destruct (account_statuses m (posts_world s) aid (max_id_param (max_id s)))
    as [[batch | | e] w1] eqn:F; [| exact Hnd | exact Hnd].
  destruct batch as [| b bs]; [exact Hnd |].
  destruct (new_posts_of (b :: bs) (all_posts s)) as [| n ns] eqn:N; [exact Hnd |].
  destruct (enrich_all w1 (n :: ns)) as [[ds | e] w2] eqn:E; [| exact Hnd].
  assert (Hall : NoDup (map pd_id (all_posts s ++ ds))).
  { rewrite map_app. apply NoDup_app; [exact Hnd | |].
    - rewrite (@process_posts_ids clean_content urlparse_netloc W m w1 w2 (n :: ns) ds E), <- N.
      apply nodup_map_filter. exact (pages_distinct _ _ F).
    - intros x Hx Hds. rewrite (@process_posts_ids clean_content urlparse_netloc W m w1 w2 (n :: ns) ds E), <- N in Hds.
      apply in_map_iff in Hds. destruct Hds as (p & <- & Hp).
      exact (new_posts_of_fresh _ _ _ Hp Hx). }
  destruct (max_count_reached mc _); cbn [turn_state all_posts]; [| exact Hall].
  apply nodup_slice_to. exact Hall.
Qed.

(** So whenever [get_all_posts] returns a list, its ids are distinct. *)
Lemma posts_loop_ids_distinct (fuel : nat) :
  forall (s : posts_state W) (ds : list post_dict) (w' : W)
         (tr : list (event (option Z))),
    NoDup (map pd_id (all_posts s)) ->
    loop_posts fuel aid mc s = Some (Run (Ok ds) w' tr) ->
    NoDup (map pd_id ds).
Proof.
  induction fuel as [| fuel IH]; intros s ds w' tr Hnd; [discriminate |].
  cbn [posts_loop]. pose proof (posts_turn_ids_distinct s Hnd) as Hturn.
  destruct (turn_posts aid mc s) as [s' | s' | e s']; cbn [turn_state] in Hturn.
  - apply IH. exact Hturn.
  - intros [= <- _ _]. exact Hturn.
  - discriminate.
Qed.

End DedupProperties.

Section FollowersDedup.

Variable W : Type.
Variable m : mastodon W.
Variable url : string.
Variable expected_total : Z.
Hypothesis pages_distinct :
  forall w q r w1,
    requests_get m w url q = (GetResponse r, w1) -> NoDup (map fo_id (json_body r)).

Lemma new_items_of_fresh (batch known : list follower) (f : follower) :
  In f (new_items_of batch known) -> ~ In (fo_id f) (map fo_id known).
Proof.
  unfold new_items_of. intros H. apply filter_In in H. destruct H as [_ H].
  apply negb_true_iff in H. apply id_in_false. exact H.
Qed.

Lemma followers_turn_ids_distinct (s : followers_state W) :
  NoDup (map fo_id (items s)) ->
  NoDup (map fo_id (items (turn_state (followers_turn m url expected_total s)))).
Proof.
  intros Hnd. unfold followers_turn.
  destruct (monitor_rate_limit _) as [msg | e]; [| exact Hnd].
  assert (Hexc : forall s0 : followers_state W, items s0 = items s ->
            NoDup (map fo_id (items (turn_state (followers_except m s0))))).
  { intros s0 Hs0. rewrite (proj1 (followers_except_state m s0)), Hs0. exact Hnd. }
  destruct (requests_get m (followers_world s) url (request_params s))
    as [[r | e] w1] eqn:G; [| apply Hexc; reflexivity].
  destruct (is_error_status r); [apply Hexc; reflexivity |].
  destruct (json_body r) as [| b bs] eqn:B; [exact Hnd |].
  destruct (new_items_of (b :: bs) (items s)) as [| n ns] eqn:N; [exact Hnd |].
  assert (Hall : NoDup (map fo_id (items s ++ n :: ns))).
  { rewrite map_app. apply NoDup_app; [exact Hnd | |].
    - rewrite <- N, <- B. apply nodup_map_filter. exact (pages_distinct _ _ G).
    - intros x Hx Hin. rewrite <- N in Hin.
      apply in_map_iff in Hin. destruct Hin as (f & <- & Hf).
      exact (new_items_of_fresh _ _ _ Hf Hx). }
  destruct (link_next r) as [[next |] |]; try exact Hall.
  destruct (expected_total <=? _)%Z; exact Hall.
Qed.

Lemma followers_loop_ids_distinct (fuel : nat) :
  forall (s : followers_state W) (l : list follower) (w' : W)
         (tr : list (event params)),
    NoDup (map fo_id (items s)) ->
    followers_loop m fuel url expected_total s = Some (Run (Ok l) w' tr) ->
    NoDup (map fo_id l).
Proof.
  induction fuel as [| fuel IH]; intros s l w' tr Hnd; [discriminate |].
  cbn [followers_loop]. pose proof (followers_turn_ids_distinct s Hnd) as Hturn.
  destruct (followers_turn m url expected_total s) as [s' | s' | e s'];
    cbn [turn_state] in Hturn.
  - apply IH. exact Hturn.
  - intros [= <- _ _]. exact Hturn.
  - discriminate.
Qed.

End FollowersDedup.


Lemma in_last_n {A} (n : nat) (l : list A) (x : A) : In x (last_n n l) -> In x l.
Proof.
  unfold last_n. intros H.
  rewrite <- (firstn_skipn (List.length l - n) l). apply in_or_app. right. exact H.
Qed.

(** [paged_client] serves its timeline and its followers in pages. *)
Lemma paged_client_serves_posts (P : nat) (timeline : list raw_post)
    (everyone : list follower) (w : script) (aid : Z) (cursor : option Z) :
  exists batch w1,
    account_statuses (paged_client P timeline everyone) w aid cursor = (Page batch, w1) /\
    serves_posts P timeline cursor batch.
Proof.
  unfold serves_posts. cbn [account_statuses paged_client].
  destruct (remaining_after timeline cursor) as [| r0 rs].
  - do 2 eexists. split; [reflexivity |].
    intros p Hp. apply in_map. exact (in_last_n _ _ _ Hp).
  - do 2 eexists. split; reflexivity.
Qed.

Lemma paged_client_serves_followers (P : nat) (timeline : list raw_post)
    (everyone : list follower) (w : script) (url : string) (q : params) :
  exists r w1,
    requests_get (paged_client P timeline everyone) w url q = (GetResponse r, w1) /\
    serves_followers P everyone
      (fun q => skipn (P * pages_served q) everyone) q r.
Proof.
  cbn [requests_get paged_client]. do 2 eexists. split; [reflexivity |].
  unfold serves_followers. cbn [json_body link_next].
  split; [reflexivity |]. split; [| split].
  - destruct (skipn (P * pages_served q) everyone) as [| r0 rs]; [| reflexivity].
    intros f Hf. apply in_map. exact (in_last_n _ _ _ Hf).
  - intros next [= <-]. rewrite skipn_skipn. f_equal.
    unfold pages_served. cbn. lia.
  - intros _. eexists. reflexivity.
Qed.



(** Three batches of five records, no posts file at first: the file ends
    with the fifteen records in order. *)
Example journal_three_batches_of_five :
  let statuses := firstn 15 twenty_five in
  let final := journal_loop demo_client "out" true 5 15 0 statuses
                 (JournalState [] 0 None idle) in
  file final = Some (status_list final) /\
  map pp_id (status_list final) = map Z.of_nat (seq 1 15).
Proof.
  cbv zeta. split.
  - apply (@journal_complete script demo_client "out" true 5 (firstn 15 twenty_five) idle).
    + lia.
    + discriminate.
    + right. reflexivity.
  - vm_compute. reflexivity.
Qed.

(** * Further properties of the source *)

(** ** RateLimitMonitor: the threshold *)

Lemma reset_in_future (reset now : Q) : Qltb 0 (reset - now) = Qltb now reset.
Proof.
  destruct (Qltb now reset) eqn:E.
  - apply Qltb_spec. apply Qltb_spec in E.
    apply (proj1 (Qlt_minus_iff now reset)). exact E.
  - destruct (Qltb 0 (reset - now)) eqn:E'; [| reflexivity].
    apply Qltb_spec in E'. apply (proj2 (Qlt_minus_iff now reset)) in E'.
    apply Qltb_spec in E'. congruence.
Qed.

(** X1. With a known remaining count and a positive limit, the quotient
    being in the range of the floats, the monitor returns an advisory
    exactly when the float [remaining / limit] is below the float [0.1] and
    the reset lies strictly in the future; the advisory carries the
    remaining count and the limit. In integers the test on the quotient is
    [remaining * 2^57 < 14411518807585587 * limit]: the quotient is below
    the midpoint of the float [0.1] and the float before it. For a limit
    below [2^56] that is [10 * remaining < limit], a tenth of the quota;
    for larger limits it is not. *)
Theorem monitor_rate_limit_threshold (remaining limit : Z) (reset now : Q) :
  (0 < limit)%Z -> (Z.abs remaining < limit * 2 ^ 1023)%Z ->
  monitor_rate_limit (Quota (Some remaining) (Some limit) reset now)
  = Ok (if (remaining * 2 ^ 57 <? 14411518807585587 * limit)%Z && Qltb now reset
        then Some (Advisory remaining limit (reset - now))
        else None) /\
  ((limit < 2 ^ 56)%Z ->
   (remaining * 2 ^ 57 <? 14411518807585587 * limit)%Z = (10 * remaining <? limit)%Z).
Proof.
  intros Hl Hr. split.
  - unfold monitor_rate_limit. cbn [ratelimit_remaining ratelimit_limit
      ratelimit_reset time_now].
    destruct (@true_div_in_range remaining limit) as [x Hx];
      [lia | rewrite (Z.abs_eq limit) by lia; exact Hr |].
    rewrite Hx. cbn [bind].
    rewrite (@true_div_below_tenth remaining limit x Hl Hx), reset_in_future.
    destruct (remaining * 2 ^ 57 <? 14411518807585587 * limit)%Z; [| reflexivity].
    destruct (Qltb now reset); reflexivity.
  - intros Hs.
    destruct (Z.ltb_spec (10 * remaining) limit) as [H | H];
      [apply Z.ltb_lt | apply Z.ltb_ge]; lia.
Qed.

Lemma monitor_rate_limit_threshold_witness :
  monitor_rate_limit (Quota (Some 29%Z) (Some 300%Z) 100 40)
  = Ok (Some (Advisory 29 300 (100 - 40))) /\
  monitor_rate_limit (Quota (Some 30%Z) (Some 300%Z) 100 40) = Ok None /\
  monitor_rate_limit (Quota (Some 29%Z) (Some 300%Z) 40 40) = Ok None /\
  (10 * 10 ^ 16 <? 10 ^ 17 + 1)%Z = true /\
  monitor_rate_limit (Quota (Some (10 ^ 16)%Z) (Some (10 ^ 17 + 1)%Z) 100 40) = Ok None.
Proof.
  split; [| split; [| split; [| split]]].
  - apply (proj1 (@monitor_rate_limit_threshold 29 300 100 40 ltac:(lia)
                    ltac:(vm_compute; reflexivity))).
  - apply (proj1 (@monitor_rate_limit_threshold 30 300 100 40 ltac:(lia)
                    ltac:(vm_compute; reflexivity))).
  - apply (proj1 (@monitor_rate_limit_threshold 29 300 40 40 ltac:(lia)
                    ltac:(vm_compute; reflexivity))).
  - reflexivity.
  - apply (proj1 (@monitor_rate_limit_threshold (10 ^ 16) (10 ^ 17 + 1) 100 40
                    ltac:(vm_compute; reflexivity) ltac:(vm_compute; reflexivity))).
Defined.

(** ** Media attachments *)

(** X2. [process_media_attachments] keeps the length, the order and the ids
    of the attachments; it gives an object a [meta] key exactly when its
    type is image or video; and applying it again to its own output, as
    [get_profile_info] does with the attachments [get_all_posts] has
    already processed, changes nothing. *)
Theorem process_media_attachments_stable (l : list media_item) :
  List.length (process_media_attachments l) = List.length l /\
  map media_id (process_media_attachments l) = map media_item_id l /\
  (forall o,
     media_meta (media_of_object o) <> None <->
     mo_type o = "image" \/ mo_type o = "video") /\
  process_media_attachments (map MediaDict (process_media_attachments l))
  = process_media_attachments l.
Proof.
  unfold process_media_attachments.
  split; [apply length_map |]. split; [| split].
  - rewrite map_map. apply map_ext. intros [d | o]; reflexivity.
  - intros o. unfold media_of_object. cbn [media_meta].
    destruct (String.eqb_spec (mo_type o) "image") as [E | E];
      destruct (String.eqb_spec (mo_type o) "video") as [E' | E']; cbn [orb];
      split; intros H; try discriminate; auto; try (destruct H; contradiction);
      try (exfalso; apply H; reflexivity).
  - rewrite !map_map. apply map_ext. intros [d | o]; reflexivity.
Qed.

(** ** PostEnricher: actors, failures, visibility *)

Section EnricherExtras.

Variable clean_content : string -> result content.
Variable urlparse_netloc : string -> result string.
Variable W : Type.
Variable m : mastodon W.

Local Abbreviation enrich := (process_post clean_content urlparse_netloc m).
Local Abbreviation engagement := (expand_engagement urlparse_netloc m).
Local Abbreviation entries := (actor_entries urlparse_netloc m).

Local Abbreviation actor_recorded := (actor_recorded urlparse_netloc m).

(** X3. Every actor of a reblogged-by or favourited-by listing gets
    exactly one record, in the order of the listing: a failed account
    lookup never drops the actor, it falls back to the basic record. *)
Theorem actor_entries_complete (users : list actor) (w : W) :
  Forall2 actor_recorded users (fst (entries w users)).
Proof.
  revert w. induction users as [| u rest IH]; intros w; cbn [actor_entries].
  - constructor.
  - unfold actor_entry. fold (actor_acct urlparse_netloc u).
    destruct (account_lookup m w (actor_acct urlparse_netloc u)) as [[a | e] w1] eqn:L.
    + specialize (IH w1). destruct (entries w1 rest) as [rs w2]. cbn [fst] in *.
      constructor; [| exact IH]. left. eauto.
    + specialize (IH w1). destruct (entries w1 rest) as [rs w2]. cbn [fst] in *.
      constructor; [| exact IH]. right. eauto.
Qed.

(** X4. The enrichment of a post raises in one case only: the post is not
    a favorite and [clean_content] raises on the content that is cleaned,
    the original's for a reblog and the post's own otherwise. Every lookup
    failure is absorbed. *)
Theorem process_post_raises (w w' : W) (post : raw_post) (e : exn) :
  enrich w post = (Raise e, w') ->
  classify post <> Favorite /\
  clean_content (match post_reblog post with
                 | Some rb => st_content rb
                 | None => post_content post
                 end) = Raise e.
Proof.
  unfold process_post.
  destruct (engagement w post) as [[rs fs] w2].
  pose proof (classify_reblog_iff post) as Hrb.
  destruct (classify post) eqn:C.
  - destruct (post_reblog post) as [rb |].
    + destruct (clean_content (st_content rb)) eqn:E; cbn; [discriminate |].
      intros [= <- _]. split; [discriminate | reflexivity].
    + exfalso. apply (proj1 Hrb); reflexivity.
  - destruct (resolve_favorite clean_content m w2 post) as [[[c fav] | e'] w3];
      discriminate.
  - destruct (post_reblog post) as [rb |].
    + exfalso. assert (Original = Reblog) by (apply Hrb; discriminate). discriminate.
    + destruct (clean_content (post_content post)) eqn:E; cbn; [discriminate |].
      intros [= <- _]. split; [discriminate | reflexivity].
Qed.

(** X5. For a post that is not public and not a favorite, the enrichment
    issues no call at all: the service state is the one it started from,
    and both actor lists are empty. *)
Theorem process_post_not_public (w w' : W) (post : raw_post)
    (r : result post_dict) :
  post_visibility post <> "public" ->
  classify post <> Favorite ->
  enrich w post = (r, w') ->
  w' = w /\
  forall d, r = Ok d -> pd_rebloggers d = [] /\ pd_favouriters d = [].
Proof.
  intros Hv Hc. unfold process_post, expand_engagement.
  destruct (String.eqb_spec (post_visibility post) "public") as [E | _];
    [contradiction |].
  destruct (classify post); [| contradiction |].
  - destruct (post_reblog post) as [rb |].
    + destruct (clean_content (st_content rb)); cbn; intros [= <- <-];
        (split; [reflexivity |]); intros d [= <-]; cbn; auto.
    + destruct (clean_content (post_content post)); cbn; intros [= <- <-];
        (split; [reflexivity |]); intros d [= <-]; cbn; auto.
  - destruct (post_reblog post) as [rb |];
      destruct (clean_content (post_content post)); cbn; intros [= <- <-];
        (split; [reflexivity |]); intros d [= <-]; cbn; auto.
Qed.

(** X6. For a reblog, the content kept is the cleaned content of the
    original status (the body of the wrapping post is never read), the
    cross-reference names the original's id, author and date and holds the
    original's processed attachments, and the post's own attachment list
    comes from the wrapping post alone. *)
Theorem process_post_reblog (w w' : W) (post : raw_post) (rb : status)
    (d : post_dict) :
  post_reblog post = Some rb ->
  enrich w post = (Ok d, w') ->
  pd_type d = Reblog /\
  clean_content (st_content rb) = Ok (pd_content d) /\
  pd_reblogged_from d
  = Some {| rf_id := st_id rb;
            rf_account := st_account rb;
            rf_created_at := st_created_at rb;
            rf_media_attachments :=
              process_media_attachments (st_media_attachments rb) |} /\
  pd_media_attachments d = process_media_attachments (post_media_attachments post).
Proof.
  intros Hrb. unfold process_post, classify. rewrite Hrb.
  destruct (engagement w post) as [[rs fs] w2].
  destruct (clean_content (st_content rb)) as [c | e]; cbn; [| discriminate].
  intros [= <- <-]. cbn. auto.
Qed.

End EnricherExtras.

Lemma process_post_raises_witness :
  classify (plain_post 13 "<a class='mention hashtag'>x</a>" "https://example.social/@alice/13")
    <> Favorite /\
  picky_content "<a class='mention hashtag'>x</a>" = Raise AttributeError.
Proof.
  apply (@process_post_raises picky_content fixed_netloc script demo_client idle idle
           (plain_post 13 "<a class='mention hashtag'>x</a>"
              "https://example.social/@alice/13") AttributeError).
  reflexivity.
Defined.

Lemma process_post_not_public_witness :
  idle = idle /\
  forall d,
    fst (process_post plain_content fixed_netloc demo_client idle private_post) = Ok d ->
    pd_rebloggers d = [] /\ pd_favouriters d = [].
Proof.
  apply (@process_post_not_public plain_content fixed_netloc script demo_client
           idle idle private_post
           (fst (process_post plain_content fixed_netloc demo_client idle private_post))).
  - cbn. discriminate.
  - cbn. discriminate.
  - reflexivity.
Defined.

Lemma process_post_reblog_witness :
  pd_type (enriched (reblog_of_77 1001)) = Reblog /\
  plain_content "<p>look</p>" = Ok (pd_content (enriched (reblog_of_77 1001))) /\
  pd_reblogged_from (enriched (reblog_of_77 1001))
  = Some (RebloggedFrom 77 bob_ref "2023-11-30" [picture]) /\
  pd_media_attachments (enriched (reblog_of_77 1001)) = [].
Proof.
  apply (@process_post_reblog plain_content fixed_netloc script demo_client idle idle
           (reblog_of_77 1001) original_77 (enriched (reblog_of_77 1001)));
    reflexivity.
Defined.

(** ** PaginatedCollector: the maximum count, and what a run keeps *)

Lemma length_slice_to_pos {A} (c : Z) (l : list A) :
  (0 < c)%Z -> (Z.of_nat (List.length (slice_to c l)) <= c)%Z.
Proof.
  intros Hc. unfold slice_to. destruct (Z.leb_spec 0 c); [| lia].
  rewrite length_firstn. lia.
Qed.

Section CollectorExtras.

Variable clean_content : string -> result content.
Variable urlparse_netloc : string -> result string.
Variable W : Type.
Variable m : mastodon W.

Local Abbreviation enrich_all := (process_posts clean_content urlparse_netloc m).
Local Abbreviation turn_posts := (posts_turn clean_content urlparse_netloc m).
Local Abbreviation loop_posts := (posts_loop clean_content urlparse_netloc m).
Local Abbreviation collect_posts := (get_all_posts clean_content urlparse_netloc m).

Lemma posts_turn_within_max (aid c : Z) (s : posts_state W) :
  (0 < c)%Z ->
  (Z.of_nat (List.length (all_posts s)) <= c)%Z ->
  (Z.of_nat (List.length (all_posts (turn_state (turn_posts aid (Some c) s)))) <= c)%Z.
Proof.
  intros Hc Hs. unfold posts_turn.
  destruct (monitor_rate_limit _) as [msg | e]; [| exact Hs].
  destruct (account_statuses m (posts_world s) aid (max_id_param (max_id s)))
    as [[batch | | e] w1]; [| exact Hs | exact Hs].
  destruct batch as [| b bs]; [exact Hs |].
  destruct (new_posts_of (b :: bs) (all_posts s)) as [| n ns]; [exact Hs |].
  destruct (enrich_all w1 (n :: ns)) as [[ds | e] w2]; [| exact Hs].
  unfold max_count_reached.
  destruct (Z.eqb_spec c 0) as [E | _]; [lia |]. cbn [negb andb].
  destruct (Z.leb_spec c (Z.of_nat (List.length (all_posts s ++ ds))));
    cbn [turn_state all_posts].
  - apply length_slice_to_pos. exact Hc.
  - lia.
Qed.

Lemma posts_loop_within_max (fuel : nat) (aid c : Z) :
  (0 < c)%Z ->
  forall (s : posts_state W) (ds : list post_dict) (w' : W)
         (tr : list (event (option Z))),
    (Z.of_nat (List.length (all_posts s)) <= c)%Z ->
    loop_posts fuel aid (Some c) s = Some (Run (Ok ds) w' tr) ->
    (Z.of_nat (List.length ds) <= c)%Z.
Proof.
  intros Hc. induction fuel as [| fuel IH]; intros s ds w' tr Hs; [discriminate |].
  cbn [posts_loop]. pose proof (posts_turn_within_max aid s Hc Hs) as Hturn.
  destruct (turn_posts aid (Some c) s) as [s' | s' | e s']; cbn [turn_state] in Hturn.
  - apply IH. exact Hturn.
  - intros [= <- _ _]. exact Hturn.
  - discriminate.
Qed.

(** X7. With a positive [max_count], [get_all_posts] never returns more
    than [max_count] records, whatever the source answers. *)
Theorem get_all_posts_within_max (fuel : nat) (w w' : W) (aid c : Z)
    (ds : list post_dict) (tr : list (event (option Z))) :
  (0 < c)%Z ->
  collect_posts fuel w aid (Some c) = Some (Run (Ok ds) w' tr) ->
  (Z.of_nat (List.length ds) <= c)%Z.
Proof.
  intros Hc. unfold get_all_posts.
  destruct (account_info m w aid) as [[acct | e] w1]; [| discriminate].
  apply posts_loop_within_max; [exact Hc | cbn; lia].
Qed.

Lemma posts_turn_max_zero (aid : Z) (s : posts_state W) :
  turn_posts aid (Some 0%Z) s = turn_posts aid None s.
Proof.
  unfold posts_turn.
  destruct (monitor_rate_limit _) as [msg | e]; [| reflexivity].
  destruct (account_statuses m (posts_world s) aid (max_id_param (max_id s)))
    as [[batch | | e] w1]; try reflexivity.
Qed.

(** X8. [max_count = 0] is no limit: [if max_count and ...] is a
    truthiness test, so a run with [max_count = 0] is the run without a
    maximum, not a run that returns nothing. *)
Theorem get_all_posts_max_zero (fuel : nat) (w : W) (aid : Z) :
  get_all_posts clean_content urlparse_netloc m fuel w aid (Some 0%Z)
  = get_all_posts clean_content urlparse_netloc m fuel w aid None.
Proof.
  unfold get_all_posts.
  destruct (account_info m w aid) as [[acct | e] w1]; [| reflexivity].
  generalize (PostsState (@nil post_dict) None w1 []).
  induction fuel as [| fuel IH]; intros s; [reflexivity |].
  cbn [posts_loop]. rewrite posts_turn_max_zero.
  destruct (turn_posts aid None s); [apply IH | reflexivity | reflexivity].
Qed.

(** X9. Whenever [get_all_posts] returns, the ids of the records are
    distinct, provided no single page lists an id twice: an id seen on an
    earlier page is never appended again, whatever the source repeats. *)
Theorem get_all_posts_ids_distinct (fuel : nat) (w w' : W) (aid : Z)
    (mc : option Z) (ds : list post_dict) (tr : list (event (option Z))) :
  (forall w0 cursor batch w1,
     account_statuses m w0 aid cursor = (Page batch, w1) ->
     NoDup (map post_id batch)) ->
  collect_posts fuel w aid mc = Some (Run (Ok ds) w' tr) ->
  NoDup (map pd_id ds).
Proof.
  intros Hpages. unfold get_all_posts.
  destruct (account_info m w aid) as [[acct | e] w1]; [| discriminate].
  apply (@posts_loop_ids_distinct clean_content urlparse_netloc W m aid mc Hpages fuel).
  constructor.
Qed.

(** X10. The same for the followers and following lists. *)
Theorem get_followers_ids_distinct (fuel : nat) (w w' : W) (aid : Z)
    (type_list : string) (l : list follower) (tr : list (event params)) :
  (forall w0 q r w1,
     requests_get m w0 (endpoint_url m aid type_list) q = (GetResponse r, w1) ->
     NoDup (map fo_id (json_body r))) ->
  get_followers_or_following_direct m fuel w aid type_list
    = Some (Run (Ok l) w' tr) ->
  NoDup (map fo_id l).
Proof.
  intros Hpages. unfold get_followers_or_following_direct.
  destruct (account_info m w aid) as [[acct | e] w1]; [| discriminate].
  apply (@followers_loop_ids_distinct W m (endpoint_url m aid type_list) _ Hpages fuel).
  constructor.
Qed.

Lemma posts_turn_keeps (aid : Z) (s : posts_state W) :
  exists extra,
    all_posts (turn_state (turn_posts aid None s)) = all_posts s ++ extra.
Proof.
  unfold posts_turn.
  destruct (monitor_rate_limit _) as [msg | e];
    [| exists []; cbn; rewrite app_nil_r; reflexivity].
  destruct (account_statuses m (posts_world s) aid (max_id_param (max_id s)))
    as [[batch | | e] w1];
    try (exists []; cbn; rewrite app_nil_r; reflexivity).
  destruct batch as [| b bs]; [exists []; cbn; rewrite app_nil_r; reflexivity |].
  destruct (new_posts_of (b :: bs) (all_posts s)) as [| n ns];
    [exists []; cbn; rewrite app_nil_r; reflexivity |].
  destruct (enrich_all w1 (n :: ns)) as [[ds | e] w2];
    [| exists []; cbn; rewrite app_nil_r; reflexivity].
  exists ds. reflexivity.
Qed.

Lemma followers_turn_keeps (url : string) (total : Z) (s : followers_state W) :
  exists extra,
    items (turn_state (followers_turn m url total s)) = items s ++ extra.
Proof.
  unfold followers_turn.
  destruct (monitor_rate_limit _) as [msg | e];
    [| exists []; cbn; rewrite app_nil_r; reflexivity].
  assert (Hexc : forall s0 : followers_state W, items s0 = items s ->
            exists extra, items (turn_state (followers_except m s0)) = items s ++ extra).
  { intros s0 Hs0. exists []. rewrite app_nil_r.
    rewrite (proj1 (followers_except_state m s0)). exact Hs0. }
  destruct (requests_get m (followers_world s) url (request_params s))
    as [[r | e] w1]; [| apply Hexc; reflexivity].
  destruct (is_error_status r); [apply Hexc; reflexivity |].
  destruct (json_body r) as [| b bs];
    [exists []; cbn; rewrite app_nil_r; reflexivity |].
  destruct (new_items_of (b :: bs) (items s)) as [| n ns];
    [exists []; cbn; rewrite app_nil_r; reflexivity |].
  exists (n :: ns).
  destruct (link_next r) as [[next |] |]; try reflexivity.
  destruct (total <=? _)%Z; reflexivity.
Qed.

(** X11. A run that returns normally has lost nothing on the way: what
    either loop holds at any turn is a prefix of what it returns (for the
    posts, without a maximum count). *)
Theorem collectors_keep_items (fuel : nat) :
  (forall aid (s : posts_state W) ds w' tr,
     loop_posts fuel aid None s = Some (Run (Ok ds) w' tr) ->
     exists extra, ds = all_posts s ++ extra) /\
  (forall url total (s : followers_state W) l w' tr,
     followers_loop m fuel url total s = Some (Run (Ok l) w' tr) ->
     exists extra, l = items s ++ extra).
Proof.
  split.
  - intros aid. induction fuel as [| f IH]; intros s ds w' tr; [discriminate |].
    cbn [posts_loop]. destruct (posts_turn_keeps aid s) as [extra Hk].
    destruct (turn_posts aid None s) as [s' | s' | e s']; cbn [turn_state] in Hk.
    + intros H. destruct (IH _ _ _ _ H) as [extra' ->].
      rewrite Hk, <- app_assoc. eauto.
    + intros [= <- _ _]. eauto.
    + discriminate.
  - intros url total. induction fuel as [| f IH]; intros s l w' tr; [discriminate |].
    cbn [followers_loop]. destruct (followers_turn_keeps url total s) as [extra Hk].
    destruct (followers_turn m url total s) as [s' | s' | e s']; cbn [turn_state] in Hk.
    + intros H. destruct (IH _ _ _ _ H) as [extra' ->].
      rewrite Hk, <- app_assoc. eauto.
    + intros [= <- _ _]. eauto.
    + discriminate.
Qed.

End CollectorExtras.

Lemma after_id_suffix (c : Z) (timeline : list raw_post) :
  exists pre, timeline = pre ++ after_id c timeline.
Proof.
  induction timeline as [| p rest IH]; [exists []; reflexivity |].
  cbn [after_id]. destruct (post_id p =? c)%Z.
  - exists [p]. reflexivity.
  - destruct IH as [pre IH]. exists (p :: pre). cbn. rewrite <- IH. reflexivity.
Qed.

Lemma nodup_map_suffix {A B} (f : A -> B) (pre suf : list A) :
  NoDup (map f (pre ++ suf)) -> NoDup (map f suf).
Proof. rewrite map_app. apply NoDup_app_remove_l. Qed.

Lemma nodup_map_firstn {A B} (f : A -> B) (n : nat) (l : list A) :
  NoDup (map f l) -> NoDup (map f (firstn n l)).
Proof. intros H. rewrite <- firstn_map. apply nodup_firstn. exact H. Qed.

Lemma nodup_map_skipn {A B} (f : A -> B) (n : nat) (l : list A) :
  NoDup (map f l) -> NoDup (map f (skipn n l)).
Proof.
  intros H. rewrite <- (firstn_skipn n l) in H. exact (nodup_map_suffix _ _ _ H).
Qed.

(** The pages of [paged_client] list no id twice. *)
Lemma paged_client_pages_distinct (P : nat) (timeline : list raw_post)
    (everyone : list follower) :
  NoDup (map post_id timeline) ->
  forall w aid cursor batch w1,
    account_statuses (paged_client P timeline everyone) w aid cursor = (Page batch, w1) ->
    NoDup (map post_id batch).
Proof.
  intros Hnd w aid cursor batch w1. cbn [account_statuses paged_client].
  assert (Hrest : NoDup (map post_id (remaining_after timeline cursor))).
  { destruct cursor as [c |]; cbn [remaining_after]; [| exact Hnd].
    destruct (after_id_suffix c timeline) as [pre Hpre].
    rewrite Hpre in Hnd. exact (nodup_map_suffix _ _ _ Hnd). }
  destruct (remaining_after timeline cursor) as [| r0 rs].
  - intros [= <- _]. unfold last_page, last_n. apply nodup_map_skipn. exact Hnd.
  - intros [= <- _]. apply nodup_map_firstn. exact Hrest.
Qed.

Lemma paged_client_bodies_distinct (P : nat) (timeline : list raw_post)
    (everyone : list follower) :
  NoDup (map fo_id everyone) ->
  forall w url q r w1,
    requests_get (paged_client P timeline everyone) w url q = (GetResponse r, w1) ->
    NoDup (map fo_id (json_body r)).
Proof.
  intros Hnd w url q r w1. cbn [requests_get paged_client].
  intros [= <- _]. cbn [json_body].
  pose proof (nodup_map_skipn fo_id (P * pages_served q) everyone Hnd) as Hrest.
  destruct (skipn (P * pages_served q) everyone) as [| r0 rs].
  - unfold last_page, last_n. apply nodup_map_skipn. exact Hnd.
  - apply nodup_map_firstn. exact Hrest.
Qed.

Lemma five_posts_distinct : NoDup (map post_id five_posts).
Proof.
  cbn. repeat (apply NoDup_cons; [cbn; intuition discriminate |]). apply NoDup_nil.
Qed.

Lemma five_followers_distinct : NoDup (map fo_id five_followers).
Proof.
  cbn. repeat (apply NoDup_cons; [cbn; intuition discriminate |]). apply NoDup_nil.
Qed.

Lemma get_all_posts_within_max_witness :
  exists ds w' tr,
    get_all_posts plain_content fixed_netloc (paged_client 2 five_posts five_followers)
      6 idle 1 (Some 3%Z) = Some (Run (Ok ds) w' tr) /\
    (Z.of_nat (List.length ds) <= 3)%Z.
Proof.
  do 3 eexists. split; [reflexivity |].
  eapply (@get_all_posts_within_max plain_content fixed_netloc script
            (paged_client 2 five_posts five_followers) 6 idle _ 1%Z 3%Z);
    [lia | reflexivity].
Defined.

Lemma get_all_posts_ids_distinct_witness :
  exists ds w' tr,
    get_all_posts plain_content fixed_netloc (paged_client 2 five_posts five_followers)
      6 idle 1 None = Some (Run (Ok ds) w' tr) /\
    NoDup (map pd_id ds).
Proof.
  do 3 eexists. split; [reflexivity |].
  eapply (@get_all_posts_ids_distinct plain_content fixed_netloc script
            (paged_client 2 five_posts five_followers) 6 idle _ 1%Z None);
    [| reflexivity].
  intros w0 cursor batch w1.
  apply (@paged_client_pages_distinct 2 five_posts five_followers five_posts_distinct).
Defined.

Lemma get_followers_ids_distinct_witness :
  exists l w' tr,
    get_followers_or_following_direct (paged_client 2 five_posts five_followers)
      6 idle 1 "following" = Some (Run (Ok l) w' tr) /\
    NoDup (map fo_id l).
Proof.
  do 3 eexists. split; [reflexivity |].
  eapply (@get_followers_ids_distinct script
            (paged_client 2 five_posts five_followers) 6 idle _ 1%Z "following");
    [| reflexivity].
  intros w0 q r w1.
  apply (@paged_client_bodies_distinct 2 five_posts five_followers five_followers_distinct).
Defined.

Lemma collectors_keep_items_witness :
  let carol := Follower 11 "carol" "Carol" "https://example.social/@carol" in
  let dave := Follower 12 "dave" "Dave" "https://example.social/@dave" in
  exists extra,
    [carol; dave] = items (FollowersState [carol] initial_params None
                             (Script [] [GetResponse (Response 200 None None [carol; dave])])
                             []) ++ extra.
Proof.
  intros carol dave.
  eapply (proj2 (@collectors_keep_items plain_content fixed_netloc script demo_client 2)
            "u" 5%Z).
  reflexivity.
Defined.

(** ** Followers and following: failures and stops *)

Section FollowersExtras.

Variable W : Type.
Variable m : mastodon W.

(** X12. In the followers loop a request that fails, by a transport
    exception after some earlier response that was not a 429 or by an error
    status other than 429, ends the loop, and the function returns the
    items collected so far. *)
Theorem followers_failure_returns_items (fuel : nat) (url : string) (total : Z)
    (s : followers_state W) (msg : option advisory) (w1 : W) (out : get_outcome) :
  monitor_rate_limit (client_quota m (followers_world s)) = Ok msg ->
  requests_get m (followers_world s) url (request_params s) = (out, w1) ->
  match out with
  | GetRaised _ =>
      exists r0, last_response s = Some r0 /\ status_code r0 <> 429%Z
  | GetResponse r => is_error_status r = true /\ status_code r <> 429%Z
  end ->
  exists tr,
    followers_loop m (S fuel) url total s = Some (Run (Ok (items s)) w1 tr).
Proof.
  intros Hm Hg Hout.
  destruct out as [r | e].
  - destruct Hout as [He Hc].
    exact (@followers_loop_http_error W m fuel url total s msg w1 r Hm Hg He Hc).
  - destruct Hout as (r0 & Hr & Hc).
    exact (@followers_loop_transport_failure W m fuel url total s msg e w1 r0
             Hm Hg Hr Hc).
Qed.

(** X13. When the very first request of the followers loop raises a
    transport exception, the handler reads the local [response] before it
    was ever bound: [get_followers_or_following_direct] raises
    [UnboundLocalError] instead of returning an empty list. *)
Theorem get_followers_first_request_failure (fuel : nat) (w0 w1 w2 : W)
    (aid : Z) (type_list : string) (acct : account) (msg : option advisory)
    (e : exn) :
  monitor_rate_limit (client_quota m w1) = Ok msg ->
  account_info m w0 aid = (Ok acct, w1) ->
  requests_get m w1 (endpoint_url m aid type_list) initial_params = (GetRaised e, w2) ->
  exists tr,
    get_followers_or_following_direct m (S fuel) w0 aid type_list
    = Some (Run (Raise UnboundLocalError) w2 tr).
Proof.
  intros Hm Ha Hg. unfold get_followers_or_following_direct. rewrite Ha.
  apply (@followers_loop_first_request_failure W m fuel _ _
           (FollowersState [] initial_params None w1 []) msg e w2);
    [exact Hm | exact Hg | reflexivity].
Qed.

(** X14. The handler tells a rate limit by the status of the last response
    it has, not by the exception: a transport failure that follows a 429
    response is taken for one more rate limit. When the stale response has
    no [Retry-After] (60 seconds) or one that [int] reads as an integer [d]
    with [0 <= d <= sleep_max] ([d] seconds), the delay ending before the
    monotonic clock does, the loop sleeps and retries with the same items
    and parameters; when [int] does not read the stale header, the handler
    raises [ValueError]. *)
Theorem followers_turn_stale_429 (url : string) (total : Z)
    (s : followers_state W) (msg : option advisory) (e : exn) (w1 : W)
    (r0 : response) :
  monitor_rate_limit (client_quota m (followers_world s)) = Ok msg ->
  requests_get m (followers_world s) url (request_params s) = (GetRaised e, w1) ->
  last_response s = Some r0 ->
  status_code r0 = 429%Z ->
  let tr := followers_trace s ++ advisory_events msg
            ++ [EvRequest (request_params s)] in
  (forall d,
     retry_after r0 = None /\ d = 60%Z \/
     (exists header, retry_after r0 = Some header /\ python_int header = Some d) ->
     (0 <= d <= sleep_max)%Z ->
     (monotonic_ns m w1 + d * 10 ^ 9 < 2 ^ 63)%Z ->
     followers_turn m url total s
     = Continue (FollowersState (items s) (request_params s) (Some r0) w1
                   (tr ++ [EvSleep (inject_Z d)]))) /\
  (forall header,
     retry_after r0 = Some header -> python_int header = None ->
     followers_turn m url total s
     = Abort ValueError (FollowersState (items s) (request_params s) (Some r0) w1 tr)).
Proof.
  intros Hm Hg Hr Hc tr.
  assert (E : followers_turn m url total s
              = followers_except m
                  (FollowersState (items s) (request_params s) (Some r0) w1 tr)).
  { unfold followers_turn. rewrite Hm, Hg, Hr. reflexivity. }
  rewrite E, (@followers_except_429 W m
                (FollowersState (items s) (request_params s) (Some r0) w1 tr)
                r0 eq_refl Hc).
  cbn [items request_params followers_world followers_trace].
  split.
  - intros d Hd Hs Hclock.
    assert (R : retry_after_seconds r0 = Ok d).
    { unfold retry_after_seconds.
      destruct Hd as [[-> ->] | (h & -> & ->)]; reflexivity. }
    rewrite R, (@time_sleep_ok _ d Hs Hclock). reflexivity.
  - intros h Hh Hp. unfold retry_after_seconds. rewrite Hh, Hp. reflexivity.
Qed.

(** X15. The loop stops as soon as the number of items reaches the
    account's counter, even when the response names a next page: with a
    counter that is too low (zero, for one) the function returns the first
    page alone, after a single request. *)
Theorem get_followers_stops_at_counter (fuel : nat) (w0 w1 w2 : W) (aid : Z)
    (type_list : string) (acct : account) (msg : option advisory)
    (r : response) (next : params) :
  monitor_rate_limit (client_quota m w1) = Ok msg ->
  account_info m w0 aid = (Ok acct, w1) ->
  requests_get m w1 (endpoint_url m aid type_list) initial_params
    = (GetResponse r, w2) ->
  is_error_status r = false ->
  json_body r <> [] ->
  link_next r = Some (Some next) ->
  ((if (type_list =? "followers")%string then account_followers_count acct
    else account_following_count acct)
   <= Z.of_nat (List.length (json_body r)))%Z ->
  exists tr,
    get_followers_or_following_direct m (S fuel) w0 aid type_list
      = Some (Run (Ok (json_body r)) w2 tr) /\
    without_advisories tr = [EvRequest initial_params].
Proof.
  intros Hm Ha Hg He Hb Hl Hc. unfold get_followers_or_following_direct. rewrite Ha.
  cbn [followers_loop]. unfold followers_turn.
  cbn [followers_world request_params items followers_trace].
  rewrite Hm, Hg, He.
  destruct (json_body r) as [| b bs] eqn:B; [contradiction |].
  rewrite new_items_of_nil, Hl. cbn [app].
  destruct (Z.leb_spec
              (if (type_list =? "followers")%string then account_followers_count acct
               else account_following_count acct)
              (Z.of_nat (List.length (b :: bs)))) as [_ | Hlt]; [| lia].
  eexists. split; [reflexivity |].
  cbn [followers_run trace followers_trace]. rewrite !without_advisories_app.
  rewrite without_advisories_advisory. reflexivity.
Qed.

End FollowersExtras.

Lemma followers_failure_returns_items_witness :
  let carol := Follower 11 "carol" "Carol" "https://example.social/@carol" in
  let s := FollowersState [carol] initial_params
             (Some (Response 200 None None [carol]))
             (Script [] [GetResponse (Response 503 None None [])]) [] in
  exists tr,
    followers_loop demo_client 1 "u" 9 s = Some (Run (Ok [carol]) (Script [] []) tr).
Proof.
  intros carol s.
  apply (@followers_failure_returns_items script demo_client 0 "u" 9%Z s None
           (Script [] []) (GetResponse (Response 503 None None []))).
  - reflexivity.
  - reflexivity.
  - split; [reflexivity | cbn; discriminate].
Defined.

Lemma get_followers_first_request_failure_witness :
  exists tr,
    get_followers_or_following_direct demo_client 1
      (Script [] [GetRaised ConnectionError]) 1 "followers"
    = Some (Run (Raise UnboundLocalError) (Script [] []) tr).
Proof.
  apply (@get_followers_first_request_failure script demo_client 0
           (Script [] [GetRaised ConnectionError])
           (Script [] [GetRaised ConnectionError]) (Script [] [])
           1%Z "followers" alice None ConnectionError).
  - reflexivity.
  - reflexivity.
  - reflexivity.
Defined.

Lemma followers_turn_stale_429_witness :
  let stale := Response 429 None None [] in
  let dated := Response 429 (Some "Wed, 21 Oct 2015 07:28:00 GMT") None [] in
  followers_turn demo_client "u" 9
    (FollowersState [] initial_params (Some stale)
       (Script [] [GetRaised ConnectionError]) [])
  = Continue (FollowersState [] initial_params (Some stale)
                (Script [] []) [EvRequest initial_params; EvSleep 60]) /\
  followers_turn demo_client "u" 9
    (FollowersState [] initial_params (Some dated)
       (Script [] [GetRaised ConnectionError]) [])
  = Abort ValueError (FollowersState [] initial_params (Some dated)
                        (Script [] []) [EvRequest initial_params]).
Proof.
  intros stale dated. split.
  - apply (proj1 (@followers_turn_stale_429 script demo_client "u" 9%Z
                    (FollowersState [] initial_params (Some stale)
                       (Script [] [GetRaised ConnectionError]) [])
                    None ConnectionError (Script [] []) stale
                    eq_refl eq_refl eq_refl eq_refl) 60%Z).
    + left. split; reflexivity.
    + unfold sleep_max. lia.
    + vm_compute. reflexivity.
  - apply (proj2 (@followers_turn_stale_429 script demo_client "u" 9%Z
                    (FollowersState [] initial_params (Some dated)
                       (Script [] [GetRaised ConnectionError]) [])
                    None ConnectionError (Script [] []) dated
                    eq_refl eq_refl eq_refl eq_refl)
             "Wed, 21 Oct 2015 07:28:00 GMT"); reflexivity.
Defined.

Lemma get_followers_stops_at_counter_witness :
  let carol := Follower 11 "carol" "Carol" "https://example.social/@carol" in
  let dave := Follower 12 "dave" "Dave" "https://example.social/@dave" in
  let page := Response 200 None (Some (Some [("max_id", "12")])) [carol; dave] in
  let w := Script [] [GetResponse page; GetResponse (Response 200 None None [carol])] in
  exists tr,
    get_followers_or_following_direct
      (scripted_client (Account 1 "alice" "Alice" "u" "a" false "2020-01-01" 0 0 0) [])
      1 w 1 "followers"
      = Some (Run (Ok [carol; dave])
                (Script [] [GetResponse (Response 200 None None [carol])]) tr) /\
    without_advisories tr = [EvRequest initial_params].
Proof.
  intros carol dave page w.
  apply (@get_followers_stops_at_counter script
           (scripted_client (Account 1 "alice" "Alice" "u" "a" false "2020-01-01" 0 0 0) [])
           0 w w (Script [] [GetResponse (Response 200 None None [carol])])
           1%Z "followers"
           (Account 1 "alice" "Alice" "u" "a" false "2020-01-01" 0 0 0)
           None page [("max_id", "12")]).
  - reflexivity.
  - reflexivity.
  - reflexivity.
  - reflexivity.
  - cbn. discriminate.
  - reflexivity.
  - cbn. lia.
Defined.

(** ** The profile handle *)

Lemma prefix_one_char (c a : ascii) (s : string) :
  prefix (String c EmptyString) (String a s) = Ascii.eqb c a.
Proof.
  cbn. destruct (ascii_dec c a) as [-> | N].
  - rewrite Ascii.eqb_refl. destruct s; reflexivity.
  - symmetry. apply Ascii.eqb_neq. exact N.
Qed.

Lemma contains_char_cons (c a : ascii) (s : string) :
  contains (String c EmptyString) (String a s)
  = Ascii.eqb c a || contains (String c EmptyString) s.
Proof.
  rewrite contains_cons, prefix_one_char. destruct (Ascii.eqb c a); reflexivity.
Qed.

Lemma contains_char_app (c : ascii) (u v : string) :
  contains (String c EmptyString) (u ++ String c v)%string = true.
Proof.
  induction u as [| a u IH]; cbn [String.append].
  - rewrite contains_char_cons, Ascii.eqb_refl. reflexivity.
  - rewrite contains_char_cons, IH. apply orb_true_r.
Qed.

Lemma split_on_not_nil (sep : ascii) (s : string) : split_on sep s <> [].
Proof.
  destruct s as [| c s]; cbn; [discriminate |].
  destruct (Ascii.eqb c sep); [discriminate |].
  destruct (split_on sep s); discriminate.
Qed.

Lemma split_on_no_sep (sep : ascii) (s : string) :
  contains (String sep EmptyString) s = false -> split_on sep s = [s].
Proof.
  induction s as [| c s IH]; [reflexivity |].
  rewrite contains_char_cons. intros H. apply orb_false_iff in H.
  destruct H as [Hc Hs]. cbn [split_on].
  rewrite Ascii.eqb_sym, Hc, (IH Hs). reflexivity.
Qed.

Lemma split_on_app (sep : ascii) (u v : string) :
  contains (String sep EmptyString) u = false ->
  split_on sep (u ++ String sep v)%string = u :: split_on sep v.
Proof.
  induction u as [| c u IH]; cbn [String.append split_on].
  - intros _. rewrite Ascii.eqb_refl. reflexivity.
  - rewrite contains_char_cons. intros H. apply orb_false_iff in H.
    destruct H as [Hc Hu]. rewrite Ascii.eqb_sym, Hc, (IH Hu). reflexivity.
Qed.

Lemma split_on_single (sep : ascii) (s x : string) :
  split_on sep s = [x] ->
  s = x /\ contains (String sep EmptyString) s = false.
Proof.
  revert x. induction s as [| c s IH]; intros x; cbn [split_on].
  - intros [= <-]. split; reflexivity.
  - destruct (Ascii.eqb c sep) eqn:E.
    + intros [= _ H]. exfalso. exact (@split_on_not_nil _ _ H).
    + destruct (split_on sep s) as [| w ws] eqn:S;
        [exfalso; exact (@split_on_not_nil _ _ S) |].
      intros [= <- ->]. destruct (IH w eq_refl) as [-> Hs].
      split; [reflexivity |].
      rewrite contains_char_cons, Ascii.eqb_sym, E, Hs. reflexivity.
Qed.

Lemma split_on_pair (sep : ascii) (s u v : string) :
  split_on sep s = [u; v] ->
  s = (u ++ String sep v)%string /\
  contains (String sep EmptyString) u = false /\
  contains (String sep EmptyString) v = false.
Proof.
  revert u. induction s as [| c s IH]; intros u; cbn [split_on]; [discriminate |].
  destruct (Ascii.eqb_spec c sep) as [-> | N].
  - intros [= <- H]. destruct (@split_on_single _ _ _ H) as [-> Hv].
    split; [reflexivity | split; [reflexivity | exact Hv]].
  - destruct (split_on sep s) as [| w ws] eqn:S;
      [exfalso; exact (@split_on_not_nil _ _ S) |].
    intros [= <- ->]. destruct (IH w eq_refl) as (-> & Hw & Hv).
    split; [reflexivity |]. split; [| exact Hv].
    rewrite contains_char_cons, Hw.
    destruct (Ascii.eqb_spec sep c) as [E | _]; [congruence | reflexivity].
Qed.

(** X16. The handle of [get_profile_info]. A handle without [@] names an
    account of the default instance; [username@instance] splits back into
    its two parts, the username possibly empty; nothing else is accepted
    with an [@]: a handle holding two of them, such as [@user@host], is
    rejected. *)
Theorem parse_profile_arg_spec :
  (forall arg, contains "@" arg = false ->
     parse_profile_arg arg = Some (arg, default_instance)) /\
  (forall u i, contains "@" u = false -> contains "@" i = false ->
     parse_profile_arg (u ++ "@" ++ i) = Some (u, i)) /\
  (forall a b c, contains "@" a = false -> contains "@" b = false ->
     parse_profile_arg (a ++ "@" ++ b ++ "@" ++ c) = None) /\
  (forall arg u i, parse_profile_arg arg = Some (u, i) ->
     (contains "@" arg = false /\ u = arg /\ i = default_instance) \/
     (arg = (u ++ "@" ++ i)%string /\
      contains "@" u = false /\ contains "@" i = false)).
Proof.
  unfold parse_profile_arg. split; [| split; [| split]].
  - intros arg H. rewrite H. reflexivity.
  - intros u i Hu Hi. cbn [String.append].
    rewrite contains_char_app, (@split_on_app "@" u i Hu), (@split_on_no_sep "@" i Hi).
    reflexivity.
  - intros a b c Ha Hb. cbn [String.append].
    rewrite contains_char_app, (@split_on_app "@" a _ Ha), (@split_on_app "@" b c Hb).
    destruct (split_on "@" c) as [| x xs] eqn:S;
      [exfalso; exact (@split_on_not_nil _ _ S) | reflexivity].
  - intros arg u i. destruct (contains "@" arg) eqn:C.
    + destruct (split_on "@" arg) as [| x [| y [| z zs]]] eqn:S; try discriminate.
      intros [= <- <-]. right. exact (@split_on_pair _ _ _ _ S).
    + intros [= <- <-]. left. auto.
Qed.

Lemma parse_profile_arg_spec_witness :
  parse_profile_arg "alice" = Some ("alice", "mastodon.social") /\
  parse_profile_arg "alice@example.social" = Some ("alice", "example.social") /\
  parse_profile_arg "@alice@example.social" = None.
Proof.
  destruct parse_profile_arg_spec as (H1 & H2 & H3 & _).
  split; [| split].
  - apply H1. reflexivity.
  - apply (H2 "alice" "example.social"); reflexivity.
  - apply (H3 EmptyString "alice" "example.social"); reflexivity.
Defined.

(** ** Followers and following files *)

Section AccountsProperties.

Variable urlparse_netloc : string -> result string.

Local Abbreviation convert := (account_entry_of urlparse_netloc).

Lemma accounts_loop_spec (B n : nat) (data : list follower_json) :
  forall (i : nat) (records : list account_entry) (file : accounts_file),
    (n = i + List.length data)%nat ->
    accounts_loop urlparse_netloc B n i data records file
    = (records ++ map convert data,
       match data with
       | [] => file
       | _ => Some (records ++ map convert data)
       end).
Proof.
  induction data as [| item rest IH]; intros i records file Hn; cbn [accounts_loop].
  - rewrite app_nil_r. reflexivity.
  - destruct rest as [| item' rest'].
    + cbn [accounts_loop map]. unfold flush_accounts. cbn [List.length] in Hn.
      replace (i =? n - 1)%nat with true by (symmetry; apply Nat.eqb_eq; lia).
      rewrite orb_true_r. reflexivity.
    + rewrite (IH (S i)) by (cbn [List.length] in Hn |- *; lia).
      cbn [map]. rewrite <- app_assoc. reflexivity.
Qed.

(** X17. The followers (or following) stage leaves in its file the whole
    list of converted records, in order, whatever the file held before,
    as soon as there is one item. With no item the loop body never runs
    and the file is not written: it stays absent, or keeps the content of
    an earlier run. *)
Theorem persist_accounts_spec (data : list follower_json) (file0 : accounts_file) :
  persist_accounts urlparse_netloc data file0
  = (map convert data,
     match data with
     | [] => file0
     | _ => Some (map convert data)
     end).
Proof.
  unfold persist_accounts. rewrite accounts_loop_spec by reflexivity. reflexivity.
Qed.

End AccountsProperties.

(** ** The posts file: size of the run, and what was there before *)

Lemma flush_posts_appends (B n i : nat) (sl old x : list persisted_post) :
  (i <> 0 \/ (2 <= B /\ 2 <= n))%nat ->
  exists x', flush_posts B n i sl (Some (old ++ x)) = Some (old ++ x').
Proof.
  intros H. unfold flush_posts.
  destruct (((i + 1) mod B =? 0) || (i =? n - 1))%nat eqn:C; [| eauto].
  destruct (Nat.eqb_spec i 0) as [-> | N].
  - exfalso. destruct H as [H | [HB Hn]]; [congruence |].
    apply orb_true_iff in C. destruct C as [C | C].
    + apply Nat.eqb_eq in C. cbn [Nat.add] in C.
      rewrite Nat.mod_small in C by lia. discriminate.
    + apply Nat.eqb_eq in C. lia.
  - exists (x ++ last_n B sl). rewrite app_assoc. reflexivity.
Qed.

Section JournalExtras.

Variable W : Type.
Variable m : mastodon W.
Variable output_dir : string.
Variable download_media_files : bool.

Local Abbreviation journal := (journal_loop m output_dir download_media_files).
Local Abbreviation persist := (persist_posts m output_dir download_media_files).

Lemma journal_loop_keeps_old (B n : nat) (old : list persisted_post)
    (statuses : list post_dict) :
  (2 <= B)%nat -> (2 <= n)%nat ->
  forall (i : nat) (s : journal_state W) (x : list persisted_post),
    file s = Some (old ++ x) ->
    exists x', file (journal B n i statuses s) = Some (old ++ x').
Proof.
  intros HB Hn. induction statuses as [| st rest IH]; intros i s x Hf;
    cbn [journal_loop]; [eauto |].
  destruct (reconstruct_post m output_dir download_media_files (journal_world s) st)
    as [[post count] w1].
  destruct (@flush_posts_appends B n i (status_list s ++ [post]) old x) as [x' Hx'];
    [right; split; assumption |].
  apply (IH (S i) _ x'). cbn [file]. rewrite Hf. exact Hx'.
Qed.

Lemma journal_loop_small_rerun (B n : nat) (old : list persisted_post)
    (statuses : list post_dict) :
  (2 <= n)%nat -> (n <= B)%nat ->
  forall (i : nat) (s : journal_state W),
    statuses <> [] ->
    (n = i + List.length statuses)%nat ->
    List.length (status_list s) = i ->
    file s = Some old ->
    let final := journal B n i statuses s in
    file final = Some (old ++ status_list final).
Proof.
  intros Hn HB. induction statuses as [| st rest IH]; intros i s Hne Hlen Hsl Hf;
    [contradiction |].
  cbn [journal_loop].
  destruct (reconstruct_post m output_dir download_media_files (journal_world s) st)
    as [[post count] w1].
  cbn [List.length] in Hlen.
  destruct rest as [| st' rest'].
  - cbn [journal_loop file status_list List.length] in *.
    unfold flush_posts.
    replace (i =? n - 1)%nat with true by (symmetry; apply Nat.eqb_eq; lia).
    rewrite orb_true_r.
    destruct (Nat.eqb_spec i 0) as [E | _]; [lia |].
    rewrite Hf. f_equal. f_equal. apply last_n_all.
    rewrite length_app. cbn. lia.
  - apply IH.
    + discriminate.
    + cbn [List.length] in *. lia.
    + cbn [status_list]. rewrite length_app. cbn. lia.
    + cbn [file]. unfold flush_posts. cbn [List.length] in Hlen.
      replace (i =? n - 1)%nat with false by (symmetry; apply Nat.eqb_neq; lia).
      rewrite (Nat.mod_small (i + 1) B) by lia.
      replace (i + 1 =? 0)%nat with false by (symmetry; apply Nat.eqb_neq; lia).
      exact Hf.
Qed.

(** X18. With no posts file at the start, and a number of posts that is at
    most 20 or a multiple of 20, the posts stage leaves in the file exactly
    the records it produced, one per collected post, in order. *)
Theorem persist_posts_complete (w : W) (statuses : list post_dict) :
  statuses <> [] ->
  (List.length statuses <= 20 \/ List.length statuses mod 20 = 0)%nat ->
  let final := persist w statuses None in
  file final = Some (status_list final) /\
  List.length (status_list final) = List.length statuses.
Proof.
  intros Hne Hn final. split.
  - apply (@journal_complete W m output_dir download_media_files 20 statuses w);
      [lia | exact Hne | exact Hn].
  - unfold final, persist_posts. rewrite journal_loop_length. reflexivity.
Qed.

(** X19. With more than 20 posts and a number that is not a multiple of
    20, the last flush appends the last 20 records to the whole batches
    already in the file: the file ends with [n - n mod 20 + 20] records,
    the [20 - n mod 20] records before the last partial batch being there
    twice. *)
Theorem persist_posts_overlap (w : W) (statuses : list post_dict) :
  (20 < List.length statuses)%nat ->
  (List.length statuses mod 20 <> 0)%nat ->
  let n := List.length statuses in
  let final := persist w statuses None in
  exists on_disk,
    file final = Some on_disk /\
    on_disk = firstn (n - n mod 20) (status_list final)
              ++ last_n 20 (status_list final) /\
    List.length on_disk = (n - n mod 20 + 20)%nat.
Proof.
  intros Hlt Hmod n final.
  destruct (@journal_duplicates W m output_dir download_media_files 20 statuses w)
    as (on_disk & H1 & H2 & H3 & _); [lia | exact Hlt | exact Hmod |].
  exists on_disk. auto.
Qed.

(** X20. The posts stage run over a posts file that already exists. With a
    single post the file is overwritten. With two posts or more nothing is
    ever removed from it: what it held stays at its head, and for at most
    20 posts the new records follow it, so a second run of the tool on
    the same profile doubles the file. With no post the file is not
    touched. *)
Theorem persist_posts_existing_file (w : W) (statuses : list post_dict)
    (old : list persisted_post) :
  let final := persist w statuses (Some old) in
  (statuses = [] -> file final = Some old) /\
  (List.length statuses = 1%nat -> file final = Some (status_list final)) /\
  ((2 <= List.length statuses)%nat ->
   exists added, file final = Some (old ++ added)) /\
  ((2 <= List.length statuses <= 20)%nat ->
   file final = Some (old ++ status_list final)).
Proof.
  intros final. split; [| split; [| split]].
  - intros ->. reflexivity.
  - intros H1. destruct statuses as [| st [| st' rest]]; try discriminate.
    unfold final, persist_posts. cbn [journal_loop List.length journal_world].
    destruct (reconstruct_post m output_dir download_media_files w st)
      as [[post count] w1]. reflexivity.
  - intros H2.
    apply (@journal_loop_keeps_old 20 (List.length statuses) old statuses
             ltac:(lia) H2 0%nat _ []).
    cbn [file]. rewrite app_nil_r. reflexivity.
  - intros [H2 H20].
    apply (@journal_loop_small_rerun 20 (List.length statuses) old statuses H2 H20);
      try reflexivity.
    destruct statuses; [cbn in H2; lia | discriminate].
Qed.

End JournalExtras.

Lemma persist_posts_complete_witness :
  let final := persist_posts demo_client "out" true idle (firstn 20 twenty_five) None in
  file final = Some (status_list final) /\
  List.length (status_list final) = 20%nat.
Proof.
  apply (@persist_posts_complete script demo_client "out" true idle
           (firstn 20 twenty_five)).
  - discriminate.
  - left. cbn. lia.
Defined.

Lemma persist_posts_overlap_witness :
  let final := persist_posts demo_client "out" true idle twenty_five None in
  exists on_disk,
    file final = Some on_disk /\
    on_disk = firstn 20 (status_list final) ++ last_n 20 (status_list final) /\
    List.length on_disk = 40%nat.
Proof.
  apply (@persist_posts_overlap script demo_client "out" true idle twenty_five).
  - cbn. lia.
  - cbn. discriminate.
Defined.

Lemma persist_posts_existing_file_witness :
  let old := status_list (persist_posts demo_client "out" true idle
                            (firstn 2 twenty_five) None) in
  let final := persist_posts demo_client "out" true idle
                 (firstn 2 twenty_five) (Some old) in
  file final = Some (old ++ status_list final).
Proof.
  intros old final.
  apply (@persist_posts_existing_file script demo_client "out" true idle
           (firstn 2 twenty_five) old).
  cbn. lia.
Defined.

(** ** Media download *)

Section MediaExtras.

Variable W : Type.
Variable m : mastodon W.
Variable output_dir : string.

(** The outcome of a download is taken to depend on the URL and the path
    only. *)
Variable fetched : string -> string -> bool.
Hypothesis download_media_fetched :
  forall w url path, fst (download_media m w url path) = fetched url path.

Lemma download_one_fetched (st : post_dict) (w : W) (md : media) :
  fst (download_one m output_dir st w md)
  = if fetched (media_url md) (save_path output_dir st md)
    then (with_local_path st md, 1%nat)
    else (md, 0%nat).
Proof.
  unfold download_one, save_path.
  rewrite <- (download_media_fetched w).
  destruct (download_media m w (media_url md) _) as [[|] w1]; reflexivity.
Qed.

Lemma download_all_fetched (st : post_dict) (mds : list media) :
  forall w : W,
    fst (download_all m output_dir st w mds)
    = (map (fun md => if fetched (media_url md) (save_path output_dir st md)
                      then with_local_path st md else md) mds,
       List.length (filter (fun md => fetched (media_url md) (save_path output_dir st md))
                      mds)).
Proof.
  induction mds as [| md rest IH]; intros w; cbn [download_all]; [reflexivity |].
  pose proof (download_one_fetched st w md) as H1.
  destruct (download_one m output_dir st w md) as [[md' c1] w1].
  specialize (IH w1).
  destruct (download_all m output_dir st w1 rest) as [[rest' c2] w2].
  cbn [fst] in *. cbn [map filter].
  destruct (fetched (media_url md) (save_path output_dir st md));
    injection H1 as -> ->; injection IH as -> ->; reflexivity.
Qed.

(** X21. For every post, [get_profile_info] handles the post's own media
    followed by the media of the post it reblogs, in that order. With
    downloads enabled it calls [download_media] for each of them, with the
    URL of the medium and the path [<output_dir>/media/<file name>]; a
    medium whose call returned [True] gains the local path
    [media/<file name>], a medium whose call returned [False] is kept as it
    was, and the count for the post is the number of calls that returned
    [True]. With downloads disabled the media are kept as they were and
    nothing is counted. *)
Theorem reconstruct_post_media (dl : bool) (w : W) (st : post_dict) :
  let downloaded md :=
    dl && fetched (media_url md) (save_path output_dir st md) in
  let '(pp, count, _) := reconstruct_post m output_dir dl w st in
  pp_media_attachments pp
  = map (fun md => if downloaded md then with_local_path st md else md)
        (media_of_post st) /\
  count = List.length (filter downloaded (media_of_post st)).
Proof.
  unfold reconstruct_post. fold (media_of_post st). cbv zeta.
  destruct dl; cbn [andb].
  - pose proof (download_all_fetched st (media_of_post st) w) as H.
    destruct (download_all m output_dir st w (media_of_post st)) as [[out c] w1].
    destruct (get_context_for_status m w1 (pd_id st)) as [replies w2].
    cbn [pp_media_attachments fst] in *. injection H as -> ->.
    split; reflexivity.
  - destruct (get_context_for_status m w (pd_id st)) as [replies w2].
    cbn [pp_media_attachments]. split.
    + symmetry. apply map_id.
    + induction (media_of_post st); [reflexivity | assumption].
Qed.

End MediaExtras.

(** ** [get_all_items]: the cursor by [since_id] *)

Section SortProperties.

Variable A : Type.
Variable id_of : A -> Z.

Lemma insert_by_id_in (x y : A) (l : list A) :
  In y (insert_by_id id_of x l) <-> y = x \/ In y l.
Proof.
  induction l as [| a l IH]; cbn [insert_by_id].
  - cbn. intuition.
  - destruct (id_of x <=? id_of a)%Z; cbn [In]; [intuition |].
    rewrite IH. intuition.
Qed.

Lemma sorted_by_id_in (y : A) (l : list A) :
  In y (sorted_by_id id_of l) <-> In y l.
Proof.
  induction l as [| a l IH]; cbn [sorted_by_id]; [reflexivity |].
  rewrite insert_by_id_in, IH. cbn. intuition.
Qed.

Lemma insert_by_id_ascending (x : A) (l : list A) :
  ascending (map id_of l) -> ascending (map id_of (insert_by_id id_of x l)).
Proof.
  induction l as [| a l IH]; intros H; cbn [insert_by_id].
  - cbn. split; [intros y [] | exact I].
  - destruct H as [Ha Hl]. destruct (Z.leb_spec (id_of x) (id_of a)) as [Hle | Hlt].
    + cbn [map ascending]. split; [| split; assumption].
      intros y [<- | Hy]; [exact Hle |]. specialize (Ha y Hy). lia.
    + cbn [map ascending]. split; [| exact (IH Hl)].
      intros y Hy. apply in_map_iff in Hy. destruct Hy as (z & <- & Hz).
      apply insert_by_id_in in Hz. destruct Hz as [-> | Hz]; [lia |].
      apply Ha. apply in_map. exact Hz.
Qed.

Lemma sorted_by_id_ascending (l : list A) :
  ascending (map id_of (sorted_by_id id_of l)).
Proof.
  induction l as [| a l IH]; cbn [sorted_by_id]; [exact I |].
  apply insert_by_id_ascending. exact IH.
Qed.

Lemma ascending_last (ids : list Z) (d : Z) :
  ascending ids -> forall x, In x ids -> (x <= last ids d)%Z.
Proof.
  induction ids as [| a ids IH]; intros H x Hx; [destruct Hx |].
  destruct H as [Ha Hids]. destruct ids as [| b ids'].
  - destruct Hx as [<- | []]. cbn. lia.
  - change (last (a :: b :: ids') d) with (last (b :: ids') d).
    destruct Hx as [<- | Hx]; [| exact (IH Hids x Hx)].
    assert (Hb : (a <= b)%Z) by (apply Ha; left; reflexivity).
    specialize (IH Hids b (or_introl eq_refl)). lia.
Qed.

Lemma last_in {B} (l : list B) (d : B) : l <> [] -> In (last l d) l.
Proof.
  induction l as [| a l IH]; intros H; [contradiction |].
  destruct l as [| b l']; [left; reflexivity |].
  right. apply IH. discriminate.
Qed.

Lemma ascending_filter (f : A -> bool) (l : list A) :
  ascending (map id_of l) -> ascending (map id_of (filter f l)).
Proof.
  induction l as [| a l IH]; intros H; [exact I |].
  destruct H as [Ha Hl]. cbn [filter]. destruct (f a); [| exact (IH Hl)].
  cbn [map ascending]. split; [| exact (IH Hl)].
  intros y Hy. apply Ha. apply in_map_iff in Hy. destruct Hy as (z & <- & Hz).
  apply filter_In in Hz. apply in_map. exact (proj1 Hz).
Qed.

End SortProperties.

Section GetAllItemsProperties.

Variable W : Type.
Variable m : mastodon W.
Variable A : Type.
Variable id_of : A -> Z.
Variable dummy_item : A.
Variable fetch_function : W -> Z -> Z -> option Z -> items_outcome A * W.

Local Abbreviation turn_items := (items_turn m id_of dummy_item fetch_function).

(** X22. [get_all_items] sorts each page by id before it reads its cursor:
    after a page that brought something new, [since_id] is the greatest id
    of the page, whatever the order the page came in, and the new items
    were appended in ascending order of id. *)
Theorem items_turn_since_id (aid : Z) (desc : string) (total : Z)
    (s : items_state W A) (msg : option advisory) (batch : list A) (w1 : W) :
  monitor_rate_limit (client_quota m (is_world s)) = Ok msg ->
  fetch_function (is_world s) aid (if is_account_list desc then 80%Z else 40%Z)
    (max_id_param (is_since_id s)) = (ItemsPage batch, w1) ->
  (exists x, In x batch /\ ~ In (id_of x) (map id_of (is_items s))) ->
  let s' := turn_state (turn_items aid desc total s) in
  exists since extra,
    is_since_id s' = Some since /\
    In since (map id_of batch) /\
    (forall x, In x batch -> (id_of x <= since)%Z) /\
    is_items s' = is_items s ++ extra /\
    ascending (map id_of extra).
Proof.
  intros Hm Hf (x & Hx & Hfresh) s'. unfold s', items_turn. rewrite Hm, Hf.
  destruct batch as [| b bs]; [destruct Hx |].
  set (page := sorted_by_id id_of (b :: bs)).
  assert (Hpage : page <> []).
  { intros E. assert (Hb : In b page) by (apply sorted_by_id_in; left; reflexivity).
    rewrite E in Hb. destruct Hb. }
  set (fresh := fun y => negb (id_in (id_of y) (map id_of (is_items s)))).
  assert (Hnew : In x (filter fresh page)).
  { apply filter_In. split; [apply sorted_by_id_in; exact Hx |].
    unfold fresh. apply negb_true_iff, id_in_false. exact Hfresh. }
  destruct (filter fresh page) as [| n ns] eqn:N; [destruct Hnew |].
  assert (Hres : forall t : turn (items_state W A),
            is_since_id (turn_state t) = Some (id_of (last page dummy_item)) ->
            is_items (turn_state t) = is_items s ++ n :: ns ->
            exists since extra,
              is_since_id (turn_state t) = Some since /\
              In since (map id_of (b :: bs)) /\
              (forall y, In y (b :: bs) -> (id_of y <= since)%Z) /\
              is_items (turn_state t) = is_items s ++ extra /\
              ascending (map id_of extra)).
  { intros t Hs Hi. exists (id_of (last page dummy_item)), (n :: ns).
    split; [exact Hs |]. split.
    - apply in_map. apply (sorted_by_id_in id_of). apply last_in. exact Hpage.
    - split; [| split; [exact Hi |]].
      + intros y Hy. rewrite (last_map id_of).
        apply ascending_last; [apply sorted_by_id_ascending |].
        apply in_map. apply sorted_by_id_in. exact Hy.
      + rewrite <- N. apply ascending_filter. apply sorted_by_id_ascending. }
  destruct (is_account_list desc && _); apply Hres; reflexivity.
Qed.

End GetAllItemsProperties.

Lemma items_turn_since_id_witness :
  let s := ItemsState (A := Z) [] None [ItemsPage [30; 10; 20]%Z] [] in
  let s' := turn_state (items_turn items_client (fun x => x) 0%Z scripted_fetch
                          1 "statuses" 0 s) in
  is_since_id s' = Some 30%Z /\ is_items s' = [10; 20; 30]%Z.
Proof.
  intros s s'.
  destruct (@items_turn_since_id (list (items_outcome Z)) items_client Z (fun x => x)
              0%Z scripted_fetch 1%Z "statuses" 0%Z s None [30; 10; 20]%Z [])
    as (since & extra & H1 & _ & _ & H2 & _).
  - reflexivity.
  - reflexivity.
  - exists 30%Z. split; [left; reflexivity | intros []].
  - split; reflexivity.
Defined.

(** ** Media file names never collide *)

Lemma str_of_Z_inj (a b : Z) : str_of_Z a = str_of_Z b -> a = b.
Proof.
  unfold str_of_Z. intros H.
  assert (Hnn : forall z, Z.to_int z <> Decimal.Pos Decimal.Nil /\
                          Z.to_int z <> Decimal.Neg Decimal.Nil).
  { intros [| p | p]; cbn; split; try discriminate;
      intros [= E]; exact (DecimalPos.Unsigned.to_uint_nonnil p E). }
  apply DecimalZ.to_int_inj.
  assert (E : Some (Z.to_int a) = Some (Z.to_int b)).
  { rewrite <- (NilZero.isi (Z.to_int a)) by apply Hnn.
    rewrite <- (NilZero.isi (Z.to_int b)) by apply Hnn.
    rewrite H. reflexivity. }
  congruence.
Qed.

Lemma uint_string_free (c : ascii) (d : Decimal.uint) :
  not_numeral_char c ->
  contains (String c EmptyString) (NilEmpty.string_of_uint d) = false.
Proof.
  intros Hc.
  induction d as [| d IH | d IH | d IH | d IH | d IH | d IH | d IH | d IH | d IH | d IH];
    cbn [NilEmpty.string_of_uint]; [reflexivity | ..];
    rewrite contains_char_cons, IH, orb_false_r; apply Hc; cbn; tauto.
Qed.

Lemma str_of_Z_free (c : ascii) (z : Z) :
  not_numeral_char c -> contains (String c EmptyString) (str_of_Z z) = false.
Proof.
  intros Hc. unfold str_of_Z, NilZero.string_of_int, NilZero.string_of_uint.
  assert (H0 : contains (String c EmptyString) "0" = false).
  { rewrite contains_char_cons. cbn [contains prefix].
    rewrite orb_false_r. apply Hc. cbn. tauto. }
  destruct (Z.to_int z) as [d | d].
  - destruct d; try exact H0; apply uint_string_free; exact Hc.
  - rewrite contains_char_cons.
    replace (Ascii.eqb c "-") with false by (symmetry; apply Hc; cbn; tauto).
    cbn [orb]. destruct d; try exact H0; apply uint_string_free; exact Hc.
Qed.

Lemma underscore_not_numeral : not_numeral_char "_".
Proof. intros d Hd. cbn in Hd. decompose [or] Hd; subst; try reflexivity; contradiction. Qed.

Lemma dot_not_numeral : not_numeral_char ".".
Proof. intros d Hd. cbn in Hd. decompose [or] Hd; subst; try reflexivity; contradiction. Qed.

(** A string is cut in one way only at the first occurrence of a
    character. *)
Lemma append_char_inj (c : ascii) (u u' v v' : string) :
  contains (String c EmptyString) u = false ->
  contains (String c EmptyString) u' = false ->
  (u ++ String c v = u' ++ String c v')%string ->
  u = u' /\ v = v'.
Proof.
  revert u'. induction u as [| a u IH]; intros [| a' u'] Hu Hu' E;
    cbn [String.append] in E.
  - injection E as ->. auto.
  - injection E as <- _. rewrite contains_char_cons, Ascii.eqb_refl in Hu'.
    discriminate.
  - injection E as -> _. rewrite contains_char_cons, Ascii.eqb_refl in Hu.
    discriminate.
  - injection E as <- E. rewrite contains_char_cons in Hu, Hu'.
    apply orb_false_iff in Hu, Hu'.
    destruct (IH u' (proj2 Hu) (proj2 Hu') E) as [-> ->]. auto.
Qed.

Lemma rfind_substring (c : ascii) (p : string) (i : nat) :
  rfind c p = Some i ->
  (i < String.length p)%nat /\
  forall k, exists rest, substring i (S k) p = String c rest.
Proof.
  revert i. induction p as [| a p IH]; intros i; cbn [rfind]; [discriminate |].
  destruct (rfind c p) as [j |].
  - intros [= <-]. destruct (IH j eq_refl) as [Hlt Hsub].
    split; [cbn; lia |]. intros k. exact (Hsub k).
  - destruct (Ascii.eqb_spec a c) as [-> | _]; [| discriminate].
    intros [= <-]. split; [cbn; lia |]. intros k. eexists. reflexivity.
Qed.

(** The extension [os.path.splitext] returns is empty or starts with a
    dot. *)
Lemma splitext_ext_dot (p : string) :
  splitext_ext p = EmptyString \/ exists e, splitext_ext p = String "." e.
Proof.
  unfold splitext_ext.
  destruct (rfind "." p) as [dot |] eqn:R; [| auto].
  destruct (_ <=? dot)%nat; [| auto].
  destruct (all_dots _); [auto |].
  destruct (rfind_substring _ _ R) as [Hlt Hsub].
  destruct (Hsub (String.length p - dot - 1)%nat) as [rest Hrest].
  replace (String.length p - dot)%nat with (S (String.length p - dot - 1)) by lia.
  right. eauto.
Qed.

Lemma file_ext_dot (md : media) : exists e, file_ext md = String "." e.
Proof.
  unfold file_ext.
  destruct (splitext_ext_dot (media_url md)) as [-> | [e ->]].
  - cbn. destruct (media_type md =? "image"); eauto.
  - cbn. eauto.
Qed.

(** X23. The file name of a medium always carries an extension, and it
    determines the original post's id, the medium's id and the extension:
    two media of a run are written to the same file only when they agree
    on all three, so one download never overwrites the file of a
    different medium. *)
Theorem media_filename_inj (st st' : post_dict) (md md' : media) :
  (exists e, file_ext md = String "." e) /\
  (media_filename st md = media_filename st' md' ->
   media_post_id st = media_post_id st' /\
   media_id md = media_id md' /\
   file_ext md = file_ext md').
Proof.
  split; [apply file_ext_dot |].
  unfold media_filename. intros E.
  destruct (file_ext_dot md) as [e He]. destruct (file_ext_dot md') as [e' He'].
  rewrite He, He' in *. cbn [String.append] in E.
  apply append_char_inj in E;
    try (apply str_of_Z_free; exact underscore_not_numeral).
  destruct E as [E1 E2].
  apply append_char_inj in E2; try (apply str_of_Z_free; exact dot_not_numeral).
  destruct E2 as [E2 ->].
  split; [exact (str_of_Z_inj _ _ E1) |].
  split; [exact (str_of_Z_inj _ _ E2) | reflexivity].
Qed.

Lemma media_filename_inj_witness :
  media_post_id (enriched (reblog_of_77 1001)) = media_post_id (enriched (reblog_of_77 2002)) /\
  media_id picture = media_id picture /\
  file_ext picture = file_ext picture.
Proof.
  apply (proj2 (media_filename_inj (enriched (reblog_of_77 1001))
                  (enriched (reblog_of_77 2002)) picture picture)).
  reflexivity.
Defined.

(** ** The status a favorite refers to *)

Lemma split_on_append (sep : ascii) (u v : string) :
  split_on sep (u ++ String sep v)%string = split_on sep u ++ split_on sep v.
Proof.
  induction u as [| c u IH]; cbn [String.append split_on].
  - rewrite Ascii.eqb_refl. reflexivity.
  - rewrite IH. destruct (Ascii.eqb c sep); [reflexivity |].
    destruct (split_on sep u) as [| w ws] eqn:S;
      [exfalso; exact (@split_on_not_nil _ _ S) | reflexivity].
Qed.

Lemma second_to_last_app {A} (l : list A) (x y : A) :
  second_to_last (l ++ [x; y]) = Some x.
Proof. unfold second_to_last. rewrite rev_app_distr. reflexivity. Qed.

Section FavoriteExtras.

Variable clean_content : string -> result content.
Variable W : Type.
Variable m : mastodon W.

(** X24. For a favorite marker whose URL is [<base>/<id>/activity], the
    status that is fetched is the one named by the segment [<id>]; when
    that lookup and the cleaning of its content succeed, the post gets the
    cleaned content of that status and a cross-reference with its id,
    author and date. *)
Theorem resolve_favorite_segment (w w1 : W) (post : raw_post)
    (base id : string) (original : status) (c : content) :
  post_url post = (base ++ "/" ++ id ++ "/activity")%string ->
  contains "/" id = false ->
  status_lookup m w id = (Ok original, w1) ->
  clean_content (st_content original) = Ok c ->
  resolve_favorite clean_content m w post
  = (Ok (c, {| fs_id := st_id original;
               fs_account := st_account original;
               fs_created_at := st_created_at original |}), w1).
Proof.
  intros Hurl Hid Hl Hc. unfold resolve_favorite. rewrite Hurl.
  cbn [String.append]. rewrite split_on_append.
  change (String "/" "activity") with (String "/"%char "activity").
  rewrite (@split_on_app "/" id "activity" Hid).
  change (split_on "/" "activity") with ["activity"].
  rewrite second_to_last_app, Hl, Hc. reflexivity.
Qed.

End FavoriteExtras.

Lemma resolve_favorite_segment_witness :
  resolve_favorite plain_content demo_client idle found_favorite
  = (Ok (Content "<p>hi</p>" [] [] [], FavoritedStatus 43 bob_ref "2023-12-31"), idle).
Proof.
  apply (@resolve_favorite_segment plain_content script demo_client idle idle
           found_favorite "https://example.social/users/alice/statuses" "43"
           status_43 (Content "<p>hi</p>" [] [] [])); reflexivity.
Defined.

(** ** Pacing of the requests *)

Lemma paced_app {P} (tr tr' : list (event P)) (b : bool) :
  paced b (tr ++ tr') = paced b tr && paced (ends_after_request b tr) tr'.
Proof.
  revert b. induction tr as [| [a | p | d] tr IH]; intros b; cbn [app paced ends_after_request].
  - reflexivity.
  - apply IH.
  - rewrite IH. apply andb_assoc.
  - apply IH.
Qed.

Lemma ends_after_request_app {P} (tr tr' : list (event P)) (b : bool) :
  ends_after_request b (tr ++ tr')
  = ends_after_request (ends_after_request b tr) tr'.
Proof.
  revert b. induction tr as [| [a | p | d] tr IH]; intros b;
    cbn [app ends_after_request]; auto.
Qed.

Lemma paced_advisory {P} (msg : option advisory) (b : bool) :
  paced b (@advisory_events P msg) = true /\
  ends_after_request b (@advisory_events P msg) = b.
Proof. destruct msg; split; reflexivity. Qed.

Lemma extend_paced {P} (tr : list (event P)) (msg : option advisory) (p : P) :
  paced false tr = true -> ends_after_request false tr = false ->
  (paced false ((tr ++ advisory_events msg) ++ [EvRequest p]) = true) /\
  (forall d,
     paced false (((tr ++ advisory_events msg) ++ [EvRequest p]) ++ [EvSleep d]) = true /\
     ends_after_request false
       (((tr ++ advisory_events msg) ++ [EvRequest p]) ++ [EvSleep d]) = false).
Proof.
  intros Hp He.
  destruct (@paced_advisory P msg false) as [Ha Hb].
  assert (H1 : paced false ((tr ++ advisory_events msg) ++ [EvRequest p]) = true).
  { rewrite !paced_app, !ends_after_request_app, Hp, He, Ha, Hb. reflexivity. }
  split; [exact H1 |]. intros d. split.
  - rewrite paced_app, H1. rewrite !ends_after_request_app, He, Hb. reflexivity.
  - rewrite !ends_after_request_app, He, Hb. reflexivity.
Qed.

Section PacingProperties.

Variable clean_content : string -> result content.
Variable urlparse_netloc : string -> result string.
Variable W : Type.
Variable m : mastodon W.

Local Abbreviation turn_posts := (posts_turn clean_content urlparse_netloc m).
Local Abbreviation loop_posts := (posts_loop clean_content urlparse_netloc m).

Lemma posts_turn_paced (aid : Z) (mc : option Z) (s : posts_state W) :
  paced false (posts_trace s) = true ->
  ends_after_request false (posts_trace s) = false ->
  turn_paced (@posts_trace W) (turn_posts aid mc s).
Proof.
  intros Hp He. unfold turn_paced, posts_turn.
  destruct (monitor_rate_limit _) as [msg | e];
    [| cbn [turn_state]; split; [exact Hp | discriminate]].
  destruct (extend_paced (posts_trace s) msg (max_id_param (max_id s)) Hp He)
    as [H1 H2].
  destruct (account_statuses m (posts_world s) aid (max_id_param (max_id s)))
    as [[batch | | e] w1].
  - destruct batch as [| b bs];
      [cbn [turn_state posts_trace]; split; [exact H1 | discriminate] |].
    destruct (new_posts_of (b :: bs) (all_posts s)) as [| n ns];
      [cbn [turn_state posts_trace]; split; [exact H1 | discriminate] |].
    destruct (process_posts clean_content urlparse_netloc m w1 (n :: ns))
      as [[ds | e] w2];
      [| cbn [turn_state posts_trace]; split; [exact H1 | discriminate]].
    destruct (max_count_reached mc _); cbn [turn_state posts_trace].
    + split; [exact H1 | discriminate].
    + split; [exact (proj1 (H2 _)) |]. intros s' [= <-]. exact (proj2 (H2 _)).
  - cbn [turn_state posts_trace]. split; [exact H1 | discriminate].
  - cbn [turn_state posts_trace]. split; [exact H1 | discriminate].
Qed.

Lemma followers_turn_paced (url : string) (total : Z) (s : followers_state W) :
  paced false (followers_trace s) = true ->
  ends_after_request false (followers_trace s) = false ->
  turn_paced (@followers_trace W) (followers_turn m url total s).
Proof.
  intros Hp He. unfold turn_paced, followers_turn.
  destruct (monitor_rate_limit _) as [msg | e];
    [| cbn [turn_state]; split; [exact Hp | discriminate]].
  rewrite (app_assoc (followers_trace s)).
  destruct (extend_paced (followers_trace s) msg (request_params s) Hp He)
    as [H1 H2].
  set (tr := (followers_trace s ++ advisory_events msg) ++ [EvRequest (request_params s)]) in *.
  assert (Hexc : forall (it : list follower) (q : params) (lr : option response) (w : W),
            turn_paced (@followers_trace W)
              (followers_except m (FollowersState it q lr w tr))).
  { intros it q lr w. unfold turn_paced.
    destruct (followers_except_state m (FollowersState it q lr w tr))
      as (_ & _ & _ & _ & [(seconds & Hc & Ht) | (Hn & Ht)]);
      cbv zeta in *; cbn [followers_trace] in Ht.
    - rewrite Ht. split; [exact (proj1 (H2 _)) |].
      intros s' Hs'. rewrite Hc in Hs'. injection Hs' as <-.
      rewrite Ht. exact (proj2 (H2 _)).
    - rewrite Ht. split; [exact H1 |].
      intros s' Hs'. exfalso. exact (Hn s' Hs'). }
  destruct (requests_get m (followers_world s) url (request_params s))
    as [[r | e] w1]; [| apply Hexc].
  destruct (is_error_status r); [apply Hexc |].
  destruct (json_body r) as [| b bs];
    [cbn [turn_state followers_trace]; split; [exact H1 | discriminate] |].
  destruct (new_items_of (b :: bs) (items s)) as [| n ns];
    [cbn [turn_state followers_trace]; split; [exact H1 | discriminate] |].
  destruct (link_next r) as [[next |] |];
    try (cbn [turn_state followers_trace]; split; [exact H1 | discriminate]).
  destruct (total <=? _)%Z; cbn [turn_state followers_trace].
  - split; [exact H1 | discriminate].
  - split; [exact (proj1 (H2 _)) |]. intros s' [= <-]. exact (proj2 (H2 _)).
Qed.


End PacingProperties.


Lemma process_media_attachments_stable_witness :
  let l := [MediaDict picture; MediaObj video_object; MediaObj audio_object] in
  map media_id (process_media_attachments l) = [501; 502; 503]%Z /\
  media_meta (media_of_object video_object) <> None /\
  ~ media_meta (media_of_object audio_object) <> None /\
  process_media_attachments (map MediaDict (process_media_attachments l))
  = process_media_attachments l.
Proof.
  intros l.
  destruct (process_media_attachments_stable l) as (_ & Hids & Hmeta & Hagain).
  split; [exact Hids |]. split; [| split; [| exact Hagain]].
  - apply (proj2 (Hmeta video_object)). right. reflexivity.
  - intros H. apply (proj1 (Hmeta audio_object)) in H.
    destruct H as [H | H]; discriminate.
Defined.

Lemma reconstruct_post_media_witness :
  let st := enriched (reblog_of_77 1001) in
  (pp_media_attachments (fst (fst (reconstruct_post demo_client "out" true idle st)))
   = [Media 501 "image" "https://files.other.social/media/501.png" EmptyString
        None None (Some "media/77_501.png")] /\
   snd (fst (reconstruct_post demo_client "out" true idle st)) = 1%nat) /\
  (pp_media_attachments (fst (fst (reconstruct_post demo_client "out" false idle st)))
   = [picture] /\
   snd (fst (reconstruct_post demo_client "out" false idle st)) = 0%nat).
Proof.
  intros st. split.
  - pose proof (@reconstruct_post_media script demo_client "out" (fun _ _ => true)
                  ltac:(reflexivity) true idle st) as H.
    cbv zeta in H.
    destruct (reconstruct_post demo_client "out" true idle st) as [[pp count] w'].
    exact H.
  - pose proof (@reconstruct_post_media script demo_client "out" (fun _ _ => true)
                  ltac:(reflexivity) false idle st) as H.
    cbv zeta in H.
    destruct (reconstruct_post demo_client "out" false idle st) as [[pp count] w'].
    exact H.
Defined.

Lemma persist_accounts_spec_witness :
  snd (persist_accounts fixed_netloc [] None) = None /\
  option_map (map ae_id)
    (snd (persist_accounts fixed_netloc [bare_follower 11; bare_follower 12]
            (Some [account_entry_of fixed_netloc (bare_follower 99)])))
  = Some [11; 12]%Z.
Proof.
  split.
  - rewrite (persist_accounts_spec fixed_netloc [] None). reflexivity.
  - rewrite (persist_accounts_spec fixed_netloc [bare_follower 11; bare_follower 12]
               (Some [account_entry_of fixed_netloc (bare_follower 99)])).
    reflexivity.
Defined.
